(** * Scroll-driven forest scene: choreography handlers and firefly swarms

    A shallow embedding of the scroll handlers and particle kernels of the
    scene (src/fireflies.js, src/animations.js,
    src/professional/FirefliesSystem.js, src/professional/AssetManager.js,
    src/professional/ScrollAnimations.js), of the scene manager's lights,
    the asset cache of src/loader.js, the loading screen of
    src/main_new.js and the roaming fireflies of main.js, together with
    the properties stated about them.

    Numbers.  A JavaScript number is modelled as a real number: [+], [-],
    [*] are the field operations, [Math.sin]/[Math.cos] are [sin]/[cos],
    [Math.max]/[Math.min] are [Rmax]/[Rmin], [Math.floor] is [Int_part].
    Rounding, NaN and the infinities of IEEE-754 are outside this model.
    The narrowing of a store into a [Float32Array] is left out as well,
    except where a bound turns on it: [Float32.fround] is that narrowing,
    and [TypedFireflies] embeds [attractToPoint] of src/fireflies.js with
    it, for the clamp of the velocities.

    Arrays.  A [Float32Array] is a [list R] of fixed length, read with
    [aget] and written with stdpp's [<[i:=v]>].  A write past the end is
    ignored by both; a read past the end is [undefined] in JavaScript and
    never happens in the loops below, whose indices stay under
    [3 * count] (the length chosen by the constructors).

    Randomness and time.  [Math.random()] reads the next value of an
    oracle ([Random]); [Date.now()] is an argument of the handler that
    reads it.  The theorems hold for every oracle and every clock value. *)

From Stdlib Require Import Reals Lra Lia List ZArith.
From stdpp Require Import base list gmap strings.
Import ListNotations.
Open Scope R_scope.

(** ** JavaScript primitives *)

Module JS.

Definition aget (a : list R) (i : nat) : R := default 0 (a !! i).

(** The comparisons [a < b], [a > b], [a >= b] as JavaScript booleans. *)
Definition num_lt (a b : R) : bool := if Rlt_dec a b then true else false.
Definition num_gt (a b : R) : bool := if Rgt_dec a b then true else false.
Definition num_ge (a b : R) : bool := if Rge_dec a b then true else false.

Definition Math_max (a b : R) : R := Rmax a b.
Definition Math_min (a b : R) : R := Rmin a b.
Definition Math_abs (a : R) : R := Rabs a.
Definition Math_floor (a : R) : Z := Int_part a.
Definition Math_round (a : R) : Z := Int_part (a + 1 / 2).

(** [for (let i = 0; i < n; i++) body] *)
Definition for_count {St : Type} (n : nat) (body : nat -> St -> St) (s : St) : St :=
  fold_left (fun acc i => body i acc) (seq 0 n) s.

(** The source of [Math.random()]: an infinite sequence of draws and the
    index of the next one. *)
Record Random : Type := mkRandom { draws : nat -> R; cursor : nat }.

Definition Math_random (g : Random) : R * Random :=
  (draws g (cursor g), mkRandom (draws g) (S (cursor g))).

Record Vec3 : Type := mkVec3 { vx : R; vy : R; vz : R }.

(** The fields of a [THREE.Object3D] that the handlers touch. *)
Record Object3D : Type := mkObject3D {
  visible : bool;
  position : Vec3;
  rotation : Vec3;
  scale : Vec3
}.

Definition set_visible (b : bool) (o : Object3D) : Object3D :=
  mkObject3D b (position o) (rotation o) (scale o).
Definition set_rotation (r : Vec3) (o : Object3D) : Object3D :=
  mkObject3D (visible o) (position o) r (scale o).
Definition set_scale (v : Vec3) (o : Object3D) : Object3D :=
  mkObject3D (visible o) (position o) (rotation o) v.

End JS.
Import JS.

(** ** src/fireflies.js: [FireflySystem], the 50-particle swarm *)

Module Fireflies.

Record FireflySystem : Type := mkFireflySystem {
  count : nat;
  positions : list R;       (* also geometry.attributes.position.array *)
  velocities : list R;
  phases : list R;
  sizes : list R;
  opacity : list R;
  time : R;
  material_size : R;
  material_opacity : R;
  needsUpdate : bool
}.

Definition set_velocities (v : list R) (s : FireflySystem) : FireflySystem :=
  mkFireflySystem (count s) (positions s) v (phases s) (sizes s) (opacity s)
    (time s) (material_size s) (material_opacity s) (needsUpdate s).

Definition set_material (sz op : R) (s : FireflySystem) : FireflySystem :=
  mkFireflySystem (count s) (positions s) (velocities s) (phases s) (sizes s)
    (opacity s) (time s) sz op (needsUpdate s).

(** The arrays have the lengths the constructor allocates. *)
Definition wf (s : FireflySystem) : Prop :=
  length (positions s) = (count s * 3)%nat /\
  length (velocities s) = (count s * 3)%nat /\
  length (phases s) = count s.

(** The body of the loop of [update] is three blocks, embedded one by one.
    First block ("Update positions with smooth movement", "Add floating
    motion"): the six increments of the particle's coordinates. *)
Definition integrate (phases : list R) (time : R) (i : nat)
    (positions velocities : list R) : list R :=
  let i3 := (i * 3)%nat in
  (* Update positions with smooth movement *)
  let positions := <[i3 := aget positions i3 + aget velocities i3]> positions in
  let positions :=
    <[(i3 + 1)%nat := aget positions (i3 + 1) + aget velocities (i3 + 1)]> positions in
  let positions :=
    <[(i3 + 2)%nat := aget positions (i3 + 2) + aget velocities (i3 + 2)]> positions in
  (* Add floating motion *)
  let phase := aget phases i + time * 0.5 in
  let positions :=
    <[(i3 + 1)%nat := aget positions (i3 + 1) + sin phase * 0.003]> positions in
  let positions := <[i3 := aget positions i3 + cos (phase * 0.7) * 0.002]> positions in
  let positions :=
    <[(i3 + 2)%nat := aget positions (i3 + 2) + sin (phase * 0.3) * 0.002]> positions in
  positions.

(** Second block ("Boundary wrapping", "Keep fireflies above ground"):
    the six boundary tests. *)
Definition wrap (i : nat) (positions : list R) : list R :=
  let i3 := (i * 3)%nat in
  (* Boundary wrapping *)
  let positions :=
    if num_gt (aget positions i3) 10 then <[i3 := -10]> positions else positions in
  let positions :=
    if num_lt (aget positions i3) (-10) then <[i3 := 10]> positions else positions in
  let positions :=
    if num_gt (aget positions (i3 + 2)) 10
    then <[(i3 + 2)%nat := -10]> positions else positions in
  let positions :=
    if num_lt (aget positions (i3 + 2)) (-10)
    then <[(i3 + 2)%nat := 10]> positions else positions in
  (* Keep fireflies above ground *)
  let positions :=
    if num_lt (aget positions (i3 + 1)) 1
    then <[(i3 + 1)%nat := 8]> positions else positions in
  let positions :=
    if num_gt (aget positions (i3 + 1)) 9
    then <[(i3 + 1)%nat := 1]> positions else positions in
  positions.

(** Third block ("Occasionally change direction"): one draw decides
    whether three more draws replace the particle's velocity. *)
Definition resample (i : nat) (velocities : list R) (g : Random) : list R * Random :=
  let i3 := (i * 3)%nat in
  let '(r, g) := Math_random g in
  if num_lt r 0.005 then
    let '(r1, g) := Math_random g in
    let velocities := <[i3 := (r1 - 0.5) * 0.02]> velocities in
    let '(r2, g) := Math_random g in
    let velocities := <[(i3 + 1)%nat := (r2 - 0.5) * 0.01]> velocities in
    let '(r3, g) := Math_random g in
    let velocities := <[(i3 + 2)%nat := (r3 - 0.5) * 0.02]> velocities in
    (velocities, g)
  else (velocities, g).

(** One iteration of the loop of [update]; the state of the loop is the
    position array, the velocity array and the random source. *)
Definition update_body (phases : list R) (time : R) (i : nat)
    (st : list R * list R * Random) : list R * list R * Random :=
  let '(positions, velocities, g) := st in
  let positions := integrate phases time i positions velocities in
  let positions := wrap i positions in
  let '(velocities, g) := resample i velocities g in
  (positions, velocities, g).

(** [Math.max(-maxVel, Math.min(maxVel, v))] with [maxVel = 0.05]. *)
Definition limit_velocity (v : R) : R :=
  let maxVel := 0.05 in Math_max (- maxVel) (Math_min maxVel v).

(** What the two boundary tests of an axis do to its coordinate. *)
Definition wrap_horizontal (v : R) : R :=
  let v := if num_gt v 10 then -10 else v in
  if num_lt v (-10) then 10 else v.

Definition wrap_vertical (v : R) : R :=
  let v := if num_lt v 1 then 8 else v in
  if num_gt v 9 then 1 else v.

Definition update (g : Random) (s : FireflySystem) : FireflySystem * Random :=
  let time := time s + 0.016 in
  let '(positions, velocities, g) :=
    for_count (count s) (update_body (phases s) time)
      (positions s, velocities s, g) in
  (* Update pulsing opacity *)
  let pulseIntensity := 0.3 + 0.4 * sin (time * 2) in
  (mkFireflySystem (count s) positions velocities (phases s) (sizes s)
     (opacity s) time (material_size s) pulseIntensity true, g).

(** One iteration of the loop of [attractToPoint], in the real reading
    of numbers; [TypedFireflies.attract_body] has the narrowing of the six
    writes into the typed array. *)
Definition attract_body (positions : list R) (x y z strength : R) (i : nat)
    (velocities : list R) : list R :=
  let i3 := (i * 3)%nat in
  (* Calculate direction to target *)
  let dx := x - aget positions i3 in
  let dy := y - aget positions (i3 + 1) in
  let dz := z - aget positions (i3 + 2) in
  (* Apply attraction force *)
  let velocities := <[i3 := aget velocities i3 + dx * strength]> velocities in
  let velocities :=
    <[(i3 + 1)%nat := aget velocities (i3 + 1) + dy * strength]> velocities in
  let velocities :=
    <[(i3 + 2)%nat := aget velocities (i3 + 2) + dz * strength]> velocities in
  (* Limit velocity *)
  let maxVel := 0.05 in
  let velocities :=
    <[i3 := Math_max (- maxVel) (Math_min maxVel (aget velocities i3))]> velocities in
  let velocities :=
    <[(i3 + 1)%nat :=
        Math_max (- maxVel) (Math_min maxVel (aget velocities (i3 + 1)))]> velocities in
  let velocities :=
    <[(i3 + 2)%nat :=
        Math_max (- maxVel) (Math_min maxVel (aget velocities (i3 + 2)))]> velocities in
  velocities.

(** [attractToPoint(x, y, z, strength = 0.001)]; the only caller passes
    all four arguments. *)
Definition attractToPoint (x y z strength : R) (s : FireflySystem) : FireflySystem :=
  set_velocities
    (for_count (count s) (attract_body (positions s) x y z strength) (velocities s)) s.

Definition setScrollProgress (progress : R) (s : FireflySystem) : FireflySystem :=
  if num_lt progress 0.3 then
    (* Forest section - more active *)
    set_material (0.8 + sin (time s * 3) * 0.2) (0.8 + sin (time s * 2) * 0.2) s
  else if num_lt progress 0.6 then
    (* Orange section - gather around center *)
    set_material 1.0 0.9 (attractToPoint 2 0 (-3) 0.001 s)
  else
    (* Logo section - celebratory movement *)
    set_material (1.2 + sin (time s * 4) * 0.3) 1.0 s.

(** [n] frames of the render loop, each calling [update()] once. *)
Fixpoint update_n (n : nat) (g : Random) (s : FireflySystem) : FireflySystem * Random :=
  match n with
  | O => (s, g)
  | S k => let '(s', g') := update_n k g s in update g' s'
  end.

(** Where particle [i] is after the iteration that moves it. *)
Definition moved (phases : list R) (t : R) (pos vel : list R) (i : nat) : Vec3 :=
  let phase := aget phases i + t * 0.5 in
  mkVec3
    (wrap_horizontal (aget pos (i * 3) + aget vel (i * 3) + cos (phase * 0.7) * 0.002))
    (wrap_vertical (aget pos (i * 3 + 1) + aget vel (i * 3 + 1) + sin phase * 0.003))
    (wrap_horizontal
       (aget pos (i * 3 + 2) + aget vel (i * 3 + 2) + sin (phase * 0.3) * 0.002)).

(** After [n] iterations the first [n] particles have moved and the
    others are untouched. *)
Definition update_inv (phases : list R) (t : R) (pos0 vel0 : list R) (n : nat)
    (st : list R * list R * Random) : Prop :=
  let '(pos, vel, _) := st in
  length pos = length pos0 /\ length vel = length vel0 /\
  (forall i, (i < n)%nat ->
     aget pos (i * 3) = vx (moved phases t pos0 vel0 i) /\
     aget pos (i * 3 + 1) = vy (moved phases t pos0 vel0 i) /\
     aget pos (i * 3 + 2) = vz (moved phases t pos0 vel0 i)) /\
  (forall j, (n * 3 <= j)%nat -> aget pos j = aget pos0 j /\ aget vel j = aget vel0 j).

(** After [n] iterations the first [n] particles have been pulled and
    clamped and the others are untouched. *)
Definition attract_inv (pos : list R) (x y z k : R) (vel0 : list R) (n : nat)
    (vel : list R) : Prop :=
  length vel = length vel0 /\
  (forall i, (i < n)%nat ->
     aget vel (i * 3)
       = limit_velocity (aget vel0 (i * 3) + (x - aget pos (i * 3)) * k) /\
     aget vel (i * 3 + 1)
       = limit_velocity (aget vel0 (i * 3 + 1) + (y - aget pos (i * 3 + 1)) * k) /\
     aget vel (i * 3 + 2)
       = limit_velocity (aget vel0 (i * 3 + 2) + (z - aget pos (i * 3 + 2)) * k)) /\
  (forall j, (n * 3 <= j)%nat -> aget vel j = aget vel0 j).

(** A small swarm for the statements about [FireflySystem]: two
    particles. *)
Definition small_swarm : FireflySystem :=
  mkFireflySystem 2
    [1; 2; -3; -4; 5; 9.5] [0.01; -0.005; 0; 0.049; 0.004; -0.01]
    [0; 1] [0.5; 1] [0.3; 1] 0 0.8 0.8 false.

End Fireflies.

(** ** src/professional/FirefliesSystem.js: the 200-particle swarm *)

Module FirefliesSystem.

Record FirefliesSystem : Type := mkFirefliesSystem {
  fireflyCount : nat;
  time : R;
  speed : R;
  amplitude : R;
  glowIntensity : R;
  (* fireflyGeometry.attributes *)
  attr_position : list R;
  attr_scale : list R;
  attr_phase : list R;
  attr_velocity : list R;
  needsUpdate : bool;
  (* fireflyMaterial, which is also fireflies.material *)
  uniform_time : R;
  uniform_glowIntensity : R;
  material_opacity : R
}.

Definition wf (s : FirefliesSystem) : Prop :=
  length (attr_position s) = (fireflyCount s * 3)%nat /\
  length (attr_velocity s) = (fireflyCount s * 3)%nat /\
  length (attr_phase s) = fireflyCount s.

(** One iteration of the loop of [createFireflyParticles]; the state is
    the four fresh arrays (positions, scales, phases, velocities) and the
    random source. *)
Definition create_body (i : nat)
    (st : list R * list R * list R * list R * Random)
    : list R * list R * list R * list R * Random :=
  let '(positions, scales, phases, velocities, g) := st in
  let i3 := (i * 3)%nat in
  (* Random position within forest bounds *)
  let '(r, g) := Math_random g in
  let positions := <[i3 := (r - 0.5) * 40]> positions in
  let '(r, g) := Math_random g in
  let positions := <[(i3 + 1)%nat := r * 15 + 2]> positions in
  let '(r, g) := Math_random g in
  let positions := <[(i3 + 2)%nat := (r - 0.5) * 40]> positions in
  (* Random scale for size variation *)
  let '(r, g) := Math_random g in
  let scales := <[i := r * 0.5 + 0.3]> scales in
  (* Random phase for pulsating animation *)
  let '(r, g) := Math_random g in
  let phases := <[i := r * PI * 2]> phases in
  (* Random velocity for movement *)
  let '(r, g) := Math_random g in
  let velocities := <[i3 := (r - 0.5) * 0.02]> velocities in
  let '(r, g) := Math_random g in
  let velocities := <[(i3 + 1)%nat := (r - 0.5) * 0.01]> velocities in
  let '(r, g) := Math_random g in
  let velocities := <[(i3 + 2)%nat := (r - 0.5) * 0.02]> velocities in
  (positions, scales, phases, velocities, g).

(** [new FirefliesSystem(scene, assetManager)]: the fields set by the
    constructor, [createFireflyParticles] and [createFireflyShader]. A new
    [Float32Array] holds zeros; a new material has opacity 1. *)
Definition create (g : Random) : FirefliesSystem * Random :=
  let fireflyCount := 200%nat in
  let '(positions, scales, phases, velocities, g) :=
    for_count fireflyCount create_body
      (replicate (fireflyCount * 3) 0, replicate fireflyCount 0,
       replicate fireflyCount 0, replicate (fireflyCount * 3) 0, g) in
  (mkFirefliesSystem fireflyCount 0 0.5 2 1 positions scales phases velocities false
     0 1 1, g).

(** One iteration of the loop of [update]; the loop writes the position
    and the velocity attribute. *)
Definition update_body (phases : list R) (time : R) (i : nat)
    (st : list R * list R) : list R * list R :=
  let '(positions, velocities) := st in
  let i3 := (i * 3)%nat in
  (* Sine wave movement for natural floating *)
  let positions :=
    <[i3 := aget positions i3
            + (aget velocities i3 + sin (time + aget phases i) * 0.01)]> positions in
  let positions :=
    <[(i3 + 1)%nat :=
        aget positions (i3 + 1)
        + (aget velocities (i3 + 1) + cos (time * 0.7 + aget phases i) * 0.005)]>
      positions in
  let positions :=
    <[(i3 + 2)%nat :=
        aget positions (i3 + 2)
        + (aget velocities (i3 + 2) + sin (time * 0.8 + aget phases i) * 0.01)]>
      positions in
  (* Keep fireflies within bounds *)
  let velocities :=
    if num_gt (Math_abs (aget positions i3)) 20
    then <[i3 := aget velocities i3 * -1]> velocities else velocities in
  let velocities :=
    if num_lt (aget positions (i3 + 1)) 1 || num_gt (aget positions (i3 + 1)) 16
    then <[(i3 + 1)%nat := aget velocities (i3 + 1) * -1]> velocities
    else velocities in
  let velocities :=
    if num_gt (Math_abs (aget positions (i3 + 2))) 20
    then <[(i3 + 2)%nat := aget velocities (i3 + 2) * -1]> velocities
    else velocities in
  (positions, velocities).

Definition update (deltaTime : R) (s : FirefliesSystem) : FirefliesSystem :=
  let time := time s + deltaTime * speed s in
  let '(positions, velocities) :=
    for_count (fireflyCount s) (update_body (attr_phase s) time)
      (attr_position s, attr_velocity s) in
  mkFirefliesSystem (fireflyCount s) time (speed s) (amplitude s) (glowIntensity s)
    positions (attr_scale s) (attr_phase s) velocities true
    time (uniform_glowIntensity s) (material_opacity s).

Definition updateIntensity (progress : R) (s : FirefliesSystem) : FirefliesSystem :=
  (* Fireflies are most active at the beginning, fade towards the end *)
  let intensity := Math_max 0.2 (1 - progress * 0.8) in
  mkFirefliesSystem (fireflyCount s) (time s) (speed s) (amplitude s) (glowIntensity s)
    (attr_position s) (attr_scale s) (attr_phase s) (attr_velocity s) (needsUpdate s)
    (uniform_time s) intensity intensity.

(** The frames of the render loop: one [update(deltaTime)] per frame,
    oldest frame first. *)
Definition run (dts : list R) (s : FirefliesSystem) : FirefliesSystem :=
  fold_left (fun acc dt => update dt acc) dts s.

(** The draws of particle [i], counted from the cursor [c] at which the
    constructor starts: eight per particle. *)
Definition draw (d : nat -> R) (c i k : nat) : R := d (c + 8 * i + k)%nat.

Definition created_position (d : nat -> R) (c i : nat) : Vec3 :=
  mkVec3 ((draw d c i 0 - 0.5) * 40) (draw d c i 1 * 15 + 2)
         ((draw d c i 2 - 0.5) * 40).

Definition created_velocity (d : nat -> R) (c i : nat) : Vec3 :=
  mkVec3 ((draw d c i 5 - 0.5) * 0.02) ((draw d c i 6 - 0.5) * 0.01)
         ((draw d c i 7 - 0.5) * 0.02).

(** After [n] iterations of the loop of the constructor. *)
Definition create_inv (d : nat -> R) (c : nat) (n : nat)
    (st : list R * list R * list R * list R * Random) : Prop :=
  let '(pos, sc, ph, vel, g) := st in
  length pos = 600%nat /\ length sc = 200%nat /\ length ph = 200%nat /\
  length vel = 600%nat /\ draws g = d /\ cursor g = (c + 8 * n)%nat /\
  forall i, (i < n)%nat ->
    aget pos (i * 3) = vx (created_position d c i) /\
    aget pos (i * 3 + 1) = vy (created_position d c i) /\
    aget pos (i * 3 + 2) = vz (created_position d c i) /\
    aget ph i = draw d c i 4 * PI * 2 /\
    aget vel (i * 3) = vx (created_velocity d c i) /\
    aget vel (i * 3 + 1) = vy (created_velocity d c i) /\
    aget vel (i * 3 + 2) = vz (created_velocity d c i).

(** Where particle [i] and its velocity are after the iteration of
    [update] that handles it. *)
Definition floated (phases : list R) (t : R) (pos vel : list R) (i : nat) : Vec3 :=
  mkVec3
    (aget pos (i * 3) + (aget vel (i * 3) + sin (t + aget phases i) * 0.01))
    (aget pos (i * 3 + 1)
     + (aget vel (i * 3 + 1) + cos (t * 0.7 + aget phases i) * 0.005))
    (aget pos (i * 3 + 2)
     + (aget vel (i * 3 + 2) + sin (t * 0.8 + aget phases i) * 0.01)).

Definition reflected (phases : list R) (t : R) (pos vel : list R) (i : nat) : Vec3 :=
  let p := floated phases t pos vel i in
  mkVec3
    (if num_gt (Math_abs (vx p)) 20 then aget vel (i * 3) * -1 else aget vel (i * 3))
    (if num_lt (vy p) 1 || num_gt (vy p) 16
     then aget vel (i * 3 + 1) * -1 else aget vel (i * 3 + 1))
    (if num_gt (Math_abs (vz p)) 20
     then aget vel (i * 3 + 2) * -1 else aget vel (i * 3 + 2)).

(** After [n] iterations of the loop of [update]. *)
Definition update_inv (phases : list R) (t : R) (pos0 vel0 : list R) (n : nat)
    (st : list R * list R) : Prop :=
  length (fst st) = length pos0 /\ length (snd st) = length vel0 /\
  (forall i, (i < n)%nat ->
     (aget (fst st) (i * 3) = vx (floated phases t pos0 vel0 i) /\
      aget (fst st) (i * 3 + 1) = vy (floated phases t pos0 vel0 i) /\
      aget (fst st) (i * 3 + 2) = vz (floated phases t pos0 vel0 i)) /\
     (aget (snd st) (i * 3) = vx (reflected phases t pos0 vel0 i) /\
      aget (snd st) (i * 3 + 1) = vy (reflected phases t pos0 vel0 i) /\
      aget (snd st) (i * 3 + 2) = vz (reflected phases t pos0 vel0 i))) /\
  (forall j, (n * 3 <= j)%nat ->
     aget (fst st) j = aget pos0 j /\ aget (snd st) j = aget vel0 j).

(** A random source whose every draw is [r]. *)
Definition constant_source (r : R) : Random := mkRandom (fun _ => r) 0.

(** The integration rule in the words of the design document, for the x
    coordinate of particle [i]: the position advances by velocity times
    the frame delta, plus the wandering offset. *)
Definition integrates_velocity_times_dt (dt : R) (s : FirefliesSystem) (i : nat)
    : Prop :=
  let s' := update dt s in
  aget (attr_position s') (i * 3)
    = aget (attr_position s) (i * 3) + aget (attr_velocity s) (i * 3) * dt
      + sin (time s' + aget (attr_phase s) i) * 0.01.

End FirefliesSystem.

(** ** src/professional/AssetManager.js: [getAsset], [updateVisibility] *)

Module AssetManager.

Record Asset : Type := mkAsset { model : Object3D }.

Record AssetManager : Type := mkAssetManager {
  loadedAssets : gmap string Asset
}.

Definition getAsset (name : string) (am : AssetManager) : option Asset :=
  loadedAssets am !! name.

Definition updateVisibility (progress : R) (am : AssetManager) : AssetManager :=
  match getAsset "blueFlower" am with
  | Some flowerAsset =>
      let m := set_visible true (model flowerAsset) in
      let m := set_scale (mkVec3 2.5 2.5 2.5) m in
      mkAssetManager (<["blueFlower" := mkAsset m]> (loadedAssets am))
  | None => am
  end.

(** An asset manager that has loaded the flower, still hidden. *)
Definition with_flower : AssetManager :=
  mkAssetManager
    {[ "blueFlower" :=
         mkAsset (mkObject3D false (mkVec3 0 0 (-8)) (mkVec3 0 0 0) (mkVec3 1 1 1)) ]}.

End AssetManager.

(** ** src/animations.js: the scroll handler of the first scene *)

Module Animations.

Record Camera : Type := mkCamera { cam_position : Vec3; cam_rotation : Vec3 }.

Record ScrollAnimations : Type := mkScrollAnimations {
  camera : Camera;
  forestModel : option Object3D;
  orangeModel : option Object3D;
  logoModel : option Object3D;
  currentProgress : R;
  isAnimating : bool
}.

(** The handler and what it reaches through [window.app.fireflies]
    (absent while [window.app] or its swarm is not set). *)
Record World : Type := mkWorld {
  anim : ScrollAnimations;
  fireflies : option Fireflies.FireflySystem
}.

(** [adjustLighting] computes two locals and writes nothing. *)
Definition adjustLighting (progress : R) (s : ScrollAnimations) : ScrollAnimations :=
  let intensity := 0.8 + progress * 0.4 in
  let warmth := progress in
  s.

(** [now] is the value of [Date.now()]. *)
Definition updateModelVisibility (now progress : R) (s : ScrollAnimations)
    : ScrollAnimations :=
  (* Show/hide models based on scroll progress *)
  let forest :=
    match forestModel s with
    | Some m => Some (set_visible (num_lt progress 0.8) m)
    | None => None
    end in
  let orange :=
    match orangeModel s with
    | Some m =>
        if visible m then
          (* Gently rotate orange while visible *)
          let r := rotation m in
          Some (set_rotation (mkVec3 (vx r) (vy r + 0.01) (vz r)) m)
        else Some m
    | None => None
    end in
  let logo :=
    match logoModel s with
    | Some m =>
        if visible m then
          (* Animate logo rotation *)
          let r := rotation m in
          let r := mkVec3 (vx r) (vy r + 0.02) (vz r) in
          let r := mkVec3 (sin (now * 0.001) * 0.1) (vy r) (vz r) in
          Some (set_rotation r m)
        else Some m
    | None => None
    end in
  mkScrollAnimations (camera s) forest orange logo (currentProgress s) (isAnimating s).

Definition handleScrollProgress (now progress : R) (w : World) : World :=
  (* Update fireflies based on scroll progress *)
  let ff :=
    match fireflies w with
    | Some f => Some (Fireflies.setScrollProgress progress f)
    | None => None
    end in
  (* Adjust lighting based on progress *)
  let s := adjustLighting progress (anim w) in
  (* Update model visibility and transforms *)
  let s := updateModelVisibility now progress s in
  mkWorld s ff.

(** A scene in its second section: the forest and the orange are shown,
    the logo is loaded but hidden, and the application has its swarm. *)
Definition orange_scene : World :=
  let origin := mkVec3 0 0 0 in
  let unit := mkVec3 1 1 1 in
  mkWorld
    (mkScrollAnimations (mkCamera (mkVec3 0 2 8) origin)
       (Some (mkObject3D true origin origin unit))
       (Some (mkObject3D true (mkVec3 2 0 0) origin unit))
       (Some (mkObject3D false (mkVec3 2 0 0) origin unit))
       0 false)
    (Some Fireflies.small_swarm).

End Animations.

(** ** src/professional/ScrollAnimations.js: scene update and video trigger *)

Module ScrollAnimations.

Record Fog : Type := mkFog { near : R; far : R }.

Record ScrollAnimations : Type := mkScrollAnimations {
  firefliesSystem : FirefliesSystem.FirefliesSystem;
  assetManager : AssetManager.AssetManager;
  scene_fog : option Fog;
  scrollProgress : R;
  lastLoggedProgress : R;
  isVideoPhase : bool;
  videoTriggered : bool
}.

(** What a [setTimeout] of this class can run. *)
Inductive Callback : Type :=
| CallRedirectToVideoPage
| CallPlayVideo.

Inductive LogLine : Type :=
| LogScrollProgress (percent : Z)
| LogReached95
| LogScrollComplete.

(** The object and the part of the page it acts on: the pending timers
    (delay in ms and callback, oldest first), the console, the opacity of
    [#canvas-container] when the element exists, and how often
    [redirectToVideoPage] and [playVideo] have run. *)
Record World : Type := mkWorld {
  self : ScrollAnimations;
  timers : list (R * Callback);
  console : list LogLine;
  canvasOpacity : option R;
  redirects : nat;
  videoPlays : nat
}.

(** The state the constructor leaves. *)
Definition init (ff : FirefliesSystem.FirefliesSystem) (am : AssetManager.AssetManager)
    (fog : option Fog) (canvas : option R) : World :=
  mkWorld (mkScrollAnimations ff am fog 0 0 false false) [] [] canvas 0 0.

Definition updateScene (progress : R) (s : ScrollAnimations) : ScrollAnimations :=
  (* Update fireflies intensity *)
  let ff := FirefliesSystem.updateIntensity progress (firefliesSystem s) in
  (* Update asset visibility *)
  let am := AssetManager.updateVisibility progress (assetManager s) in
  (* Add subtle fog changes *)
  let fog :=
    match scene_fog s with
    | Some _ => Some (mkFog (50 - progress * 30) (200 - progress * 50))
    | None => None
    end in
  mkScrollAnimations ff am fog (scrollProgress s) (lastLoggedProgress s)
    (isVideoPhase s) (videoTriggered s).

Definition set_self (s : ScrollAnimations) (w : World) : World :=
  mkWorld s (timers w) (console w) (canvasOpacity w) (redirects w) (videoPlays w).

Definition log (l : LogLine) (w : World) : World :=
  mkWorld (self w) (timers w) (console w ++ [l]) (canvasOpacity w)
    (redirects w) (videoPlays w).

Definition setTimeout (cb : Callback) (delay : R) (w : World) : World :=
  mkWorld (self w) (timers w ++ [(delay, cb)]) (console w) (canvasOpacity w)
    (redirects w) (videoPlays w).

Definition set_videoTriggered (b : bool) (s : ScrollAnimations) : ScrollAnimations :=
  mkScrollAnimations (firefliesSystem s) (assetManager s) (scene_fog s)
    (scrollProgress s) (lastLoggedProgress s) (isVideoPhase s) b.

Definition redirectToVideoPage (w : World) : World :=
  let w := log LogScrollComplete w in
  (* Hide the 3D scene immediately *)
  let canvas := match canvasOpacity w with Some _ => Some 0 | None => None end in
  let w := mkWorld (self w) (timers w) (console w) canvas
             (S (redirects w)) (videoPlays w) in
  (* Wait a moment for transition, then start video *)
  setTimeout CallPlayVideo 500 w.

(** The page side of [playVideo] is not modelled beyond its being run. *)
Definition playVideo (w : World) : World :=
  mkWorld (self w) (timers w) (console w) (canvasOpacity w)
    (redirects w) (S (videoPlays w)).

(** The [onUpdate] callback of the scroll trigger. *)
Definition onUpdate (progress : R) (w : World) : World :=
  let s := self w in
  let s := mkScrollAnimations (firefliesSystem s) (assetManager s) (scene_fog s)
             progress (lastLoggedProgress s) (isVideoPhase s) (videoTriggered s) in
  let s := updateScene progress s in
  let w := set_self s w in
  (* Debug logging *)
  let w :=
    if negb (Math_floor (progress * 10)
             =? Math_floor (lastLoggedProgress (self w) * 10))%Z
    then
      let w := log (LogScrollProgress (Math_round (progress * 100))) w in
      let s := self w in
      set_self (mkScrollAnimations (firefliesSystem s) (assetManager s) (scene_fog s)
                  (scrollProgress s) progress (isVideoPhase s) (videoTriggered s)) w
    else w in
  (* Auto-trigger video at 95% scroll progress as backup *)
  if num_ge progress 0.95 && negb (videoTriggered (self w)) then
    let w := set_self (set_videoTriggered true (self w)) w in
    let w := log LogReached95 w in
    setTimeout CallRedirectToVideoPage 100 w
  else w.

(** The [onComplete] callback of the scroll trigger. *)
Definition onComplete (w : World) : World :=
  (* Main trigger when scroll completes *)
  if negb (videoTriggered (self w)) then
    let w := set_self (set_videoTriggered true (self w)) w in
    redirectToVideoPage w
  else w.

(** What can happen to the object during the life of the scene. *)
Inductive Event : Type :=
| ScrollUpdate (progress : R)
| ScrollComplete
| TimerFires (k : nat).        (* the [k]-th pending timer expires *)

Definition fire (k : nat) (w : World) : World :=
  match timers w !! k with
  | Some (_, cb) =>
      let w := mkWorld (self w) (delete k (timers w)) (console w) (canvasOpacity w)
                 (redirects w) (videoPlays w) in
      match cb with
      | CallRedirectToVideoPage => redirectToVideoPage w
      | CallPlayVideo => playVideo w
      end
  | None => w
  end.

Definition step (w : World) (e : Event) : World :=
  match e with
  | ScrollUpdate progress => onUpdate progress w
  | ScrollComplete => onComplete w
  | TimerFires k => fire k w
  end.

Definition run (es : list Event) (w : World) : World := fold_left step es w.

(** Redirects asked for so far: those that ran and those whose timer is
    still pending. *)
Definition is_redirect (t : R * Callback) : bool :=
  match snd t with CallRedirectToVideoPage => true | CallPlayVideo => false end.

Definition pendingRedirects (w : World) : nat :=
  length (filter (fun t => is_redirect t = true) (timers w)).

Definition redirectsEmitted (w : World) : nat :=
  (redirects w + pendingRedirects w)%nat.

(** The flag and the count of requested redirects move together. *)
Definition guarded (w : World) : Prop :=
  redirectsEmitted w = (if videoTriggered (self w) then 1 else 0)%nat.

(** The clamp of the design document, [clamp(progress, 0, 1)]; the class
    has no such step. *)
Definition clamp01 (progress : R) : R := Math_max 0 (Math_min 1 progress).

(** A scene as the application builds it: a freshly created swarm, the
    flower loaded, the fog of the scene manager, the canvas present. *)
Definition fresh_world : World :=
  init (fst (FirefliesSystem.create (FirefliesSystem.constant_source 0.5)))
    AssetManager.with_flower (Some (mkFog 20 80)) (Some 1).

(** A scroll that hovers around the threshold, completes, and lets the
    pending timers expire. *)
Definition hovering_scroll : list Event :=
  [ScrollUpdate 0.5; ScrollUpdate 0.96; ScrollUpdate 0.94; ScrollUpdate 0.97;
   ScrollComplete; ScrollUpdate 1; TimerFires 0; ScrollComplete; TimerFires 0].

End ScrollAnimations.

(** ** Float32 numbers *)

Module Float32.

(** The integer nearest to [t], the even one of the two when [t] lies
    half way. *)
Definition nearest_even (t : R) : Z :=
  let f := Int_part t in
  let r := t - IZR f in
  if Rlt_dec r (1 / 2) then f
  else if Rlt_dec (1 / 2) r then (f + 1)%Z
  else if Z.even f then f else (f + 1)%Z.

(** The binary exponent of a positive number, [2^e <= x < 2^(e+1)], not
    below -126, the exponent of the subnormal numbers. *)
Definition exponent (x : R) : Z := Z.max (-126) (Int_part (ln x / ln 2)).

(** The distance between neighbouring float32 numbers around a positive
    number: 24 significant bits. *)
Definition ulp (x : R) : R := powerRZ 2 (exponent x - 23).

Definition fround_pos (x : R) : R := IZR (nearest_even (x / ulp x)) * ulp x.

(** [Math.fround]: the value an element of a [Float32Array] holds after
    a store of [x], the float32 number nearest to [x], ties to even.
    Beyond the largest float32 number a store gives an infinity, which has
    no counterpart here; the grid of the last binade is continued. *)
Definition fround (x : R) : R :=
  if Rlt_dec 0 x then fround_pos x
  else if Rlt_dec x 0 then - fround_pos (- x)
  else 0.

(** The float32 number nearest to 0.05. *)
Definition maxVel32 : R := 13421773 / 268435456.

End Float32.

(** ** src/fireflies.js: [attractToPoint] with the stores narrowed

    [velocities] is a [Float32Array] (line 14), so each of the six writes
    of an iteration narrows its value.  The arithmetic between two writes
    is that of JavaScript numbers, modelled exactly. *)

Module TypedFireflies.
Import Fireflies Float32.

(** One iteration of the loop of [attractToPoint]. *)
Definition attract_body (positions : list R) (x y z strength : R) (i : nat)
    (velocities : list R) : list R :=
  let i3 := (i * 3)%nat in
  (* Calculate direction to target *)
  let dx := x - aget positions i3 in
  let dy := y - aget positions (i3 + 1) in
  let dz := z - aget positions (i3 + 2) in
  (* Apply attraction force *)
  let velocities := <[i3 := fround (aget velocities i3 + dx * strength)]> velocities in
  let velocities :=
    <[(i3 + 1)%nat := fround (aget velocities (i3 + 1) + dy * strength)]> velocities in
  let velocities :=
    <[(i3 + 2)%nat := fround (aget velocities (i3 + 2) + dz * strength)]> velocities in
  (* Limit velocity *)
  let maxVel := 0.05 in
  let velocities :=
    <[i3 := fround (Math_max (- maxVel) (Math_min maxVel (aget velocities i3)))]>
      velocities in
  let velocities :=
    <[(i3 + 1)%nat :=
        fround (Math_max (- maxVel) (Math_min maxVel (aget velocities (i3 + 1))))]>
      velocities in
  let velocities :=
    <[(i3 + 2)%nat :=
        fround (Math_max (- maxVel) (Math_min maxVel (aget velocities (i3 + 2))))]>
      velocities in
  velocities.

Definition attractToPoint (x y z strength : R) (s : FireflySystem) : FireflySystem :=
  set_velocities
    (for_count (count s) (attract_body (positions s) x y z strength) (velocities s)) s.

Definition setScrollProgress (progress : R) (s : FireflySystem) : FireflySystem :=
  if num_lt progress 0.3 then
    (* Forest section - more active *)
    set_material (0.8 + sin (time s * 3) * 0.2) (0.8 + sin (time s * 2) * 0.2) s
  else if num_lt progress 0.6 then
    (* Orange section - gather around center *)
    set_material 1.0 0.9 (attractToPoint 2 0 (-3) 0.001 s)
  else
    (* Logo section - celebratory movement *)
    set_material (1.2 + sin (time s * 4) * 0.3) 1.0 s.

(** What a velocity element holds after the iteration of its particle,
    when [v] is the sum the first write computes. *)
Definition stored (v : R) : R := fround (limit_velocity (fround v)).

(** After [n] iterations the first [n] particles have been pulled and
    clamped and the others are untouched. *)
Definition attract_inv (pos : list R) (x y z k : R) (vel0 : list R) (n : nat)
    (vel : list R) : Prop :=
  length vel = length vel0 /\
  (forall i, (i < n)%nat ->
     aget vel (i * 3) = stored (aget vel0 (i * 3) + (x - aget pos (i * 3)) * k) /\
     aget vel (i * 3 + 1)
       = stored (aget vel0 (i * 3 + 1) + (y - aget pos (i * 3 + 1)) * k) /\
     aget vel (i * 3 + 2)
       = stored (aget vel0 (i * 3 + 2) + (z - aget pos (i * 3 + 2)) * k)) /\
  (forall j, (n * 3 <= j)%nat -> aget vel j = aget vel0 j).

(** A particle flying fast along x. *)
Definition fast_particle : FireflySystem :=
  mkFireflySystem 1 [0; 4; 0] [1; 0; -1] [0] [0.5] [0.3] 0 0.8 0.8 false.

End TypedFireflies.

(** ** src/fireflies.js: constructor, [reset] and the life of a swarm *)

Module FireflyLife.
Import Fireflies.

(** One iteration of the loop of [createGeometry]. *)
Definition geometry_body (i : nat) (st : list R * Random) : list R * Random :=
  let '(positions, g) := st in
  let i3 := (i * 3)%nat in
  (* Spread fireflies in a natural area *)
  let '(r, g) := Math_random g in
  let positions := <[i3 := (r - 0.5) * 20]> positions in
  let '(r, g) := Math_random g in
  let positions := <[(i3 + 1)%nat := r * 8 + 1]> positions in
  let '(r, g) := Math_random g in
  let positions := <[(i3 + 2)%nat := (r - 0.5) * 20]> positions in
  (positions, g).

(** One iteration of the loop of [initializeParticles]; the state is the
    velocity, phase, size and opacity arrays and the random source. *)
Definition particle_body (i : nat)
    (st : list R * list R * list R * list R * Random)
    : list R * list R * list R * list R * Random :=
  let '(velocities, phases, sizes, opacity, g) := st in
  let i3 := (i * 3)%nat in
  (* Random movement velocities *)
  let '(r, g) := Math_random g in
  let velocities := <[i3 := (r - 0.5) * 0.02]> velocities in
  let '(r, g) := Math_random g in
  let velocities := <[(i3 + 1)%nat := (r - 0.5) * 0.01]> velocities in
  let '(r, g) := Math_random g in
  let velocities := <[(i3 + 2)%nat := (r - 0.5) * 0.02]> velocities in
  (* Random phases for pulsing animation *)
  let '(r, g) := Math_random g in
  let phases := <[i := r * PI * 2]> phases in
  (* Random sizes *)
  let '(r, g) := Math_random g in
  let sizes := <[i := 0.5 + r * 0.5]> sizes in
  (* Random opacity *)
  let '(r, g) := Math_random g in
  let opacity := <[i := 0.3 + r * 0.7]> opacity in
  (velocities, phases, sizes, opacity, g).

(** [new FireflySystem(scene, count)]: the constructor allocates the
    arrays (zeros) and [init] runs [createGeometry], [createMaterial]
    (size 0.8, opacity 0.8), [createPoints] and [initializeParticles]. *)
Definition create (count : nat) (g : Random) : FireflySystem * Random :=
  let '(positions, g) :=
    for_count count geometry_body (replicate (count * 3) 0, g) in
  let '(velocities, phases, sizes, opacity, g) :=
    for_count count particle_body
      (replicate (count * 3) 0, replicate count 0, replicate count 0,
       replicate count 0, g) in
  (mkFireflySystem count positions velocities phases sizes opacity 0 0.8 0.8 false, g).

(** One iteration of the loop of [reset]. *)
Definition reset_body (i : nat) (st : list R * list R * Random)
    : list R * list R * Random :=
  let '(positions, velocities, g) := st in
  let i3 := (i * 3)%nat in
  let '(r, g) := Math_random g in
  let positions := <[i3 := (r - 0.5) * 20]> positions in
  let '(r, g) := Math_random g in
  let positions := <[(i3 + 1)%nat := r * 8 + 1]> positions in
  let '(r, g) := Math_random g in
  let positions := <[(i3 + 2)%nat := (r - 0.5) * 20]> positions in
  let '(r, g) := Math_random g in
  let velocities := <[i3 := (r - 0.5) * 0.02]> velocities in
  let '(r, g) := Math_random g in
  let velocities := <[(i3 + 1)%nat := (r - 0.5) * 0.01]> velocities in
  let '(r, g) := Math_random g in
  let velocities := <[(i3 + 2)%nat := (r - 0.5) * 0.02]> velocities in
  (positions, velocities, g).

Definition reset (g : Random) (s : FireflySystem) : FireflySystem * Random :=
  let '(positions, velocities, g) :=
    for_count (count s) reset_body (positions s, velocities s, g) in
  (mkFireflySystem (count s) positions velocities (phases s) (sizes s) (opacity s)
     (time s) (material_size s) (material_opacity s) true, g).

(** What the application and the scroll handler do to a swarm. *)
Inductive Op : Type :=
| Update
| SetScrollProgress (progress : R)
| AttractToPoint (x y z strength : R)
| Reset.

(** The attraction runs with its stores narrowed, since the bound on
    the velocities turns on them. *)
Definition apply (st : FireflySystem * Random) (o : Op) : FireflySystem * Random :=
  let '(s, g) := st in
  match o with
  | Update => update g s
  | SetScrollProgress p => (TypedFireflies.setScrollProgress p s, g)
  | AttractToPoint x y z k => (TypedFireflies.attractToPoint x y z k s, g)
  | Reset => reset g s
  end.

Definition life (ops : list Op) (st : FireflySystem * Random) : FireflySystem * Random :=
  fold_left apply ops st.

(** Particle [i] lies in the box of the 50-particle swarm. *)
Definition in_box (positions : list R) (i : nat) : Prop :=
  -10 <= aget positions (i * 3) <= 10 /\
  1 <= aget positions (i * 3 + 1) <= 9 /\
  -10 <= aget positions (i * 3 + 2) <= 10.

(** No entry of the array exceeds [b] in size. *)
Definition bounded (b : R) (a : list R) : Prop :=
  forall j, Rabs (aget a j) <= b.

(** Every draw of the source lies in [0,1), as [Math.random] promises. *)
Definition unit_draws (g : Random) : Prop := forall k, 0 <= draws g k < 1.

(** The ranges of the per-particle values that [initializeParticles]
    draws for particle [i]. *)
Definition particle_ranges (vel phases sizes opacity : list R) (i : nat) : Prop :=
  Rabs (aget vel (i * 3)) <= 0.01 /\ Rabs (aget vel (i * 3 + 1)) <= 0.005 /\
  Rabs (aget vel (i * 3 + 2)) <= 0.01 /\
  0 <= aget phases i < 2 * PI /\ 0.5 <= aget sizes i < 1 /\ 0.3 <= aget opacity i < 1.

(** After [n] iterations of the loop of [initializeParticles] started
    with the source [g0]. *)
Definition particle_inv (count : nat) (g0 : Random) (n : nat)
    (st : list R * list R * list R * list R * Random) : Prop :=
  let '(vel, ph, sz, op, g) := st in
  length vel = (count * 3)%nat /\ length ph = count /\ length sz = count /\
  length op = count /\ draws g = draws g0 /\ cursor g = (cursor g0 + 6 * n)%nat /\
  bounded 0.01 vel /\
  forall i, (i < n)%nat -> particle_ranges vel ph sz op i.

(** After [n] iterations of the loop of [reset]. *)
Definition reset_inv (count : nat) (g0 : Random) (b : R) (vel0 : list R) (n : nat)
    (st : list R * list R * Random) : Prop :=
  let '(pos, vel, g) := st in
  length pos = (count * 3)%nat /\ length vel = (count * 3)%nat /\
  draws g = draws g0 /\ cursor g = (cursor g0 + 6 * n)%nat /\
  (bounded b vel0 -> bounded b vel) /\
  forall i, (i < n)%nat ->
    in_box pos i /\
    Rabs (aget vel (i * 3)) <= 0.01 /\ Rabs (aget vel (i * 3 + 1)) <= 0.005 /\
    Rabs (aget vel (i * 3 + 2)) <= 0.01.

(** What holds of a swarm of [n] particles at every moment of its life. *)
Definition healthy (n : nat) (s : FireflySystem) : Prop :=
  wf s /\ count s = n /\
  (forall i, (i < n)%nat -> in_box (positions s) i) /\
  bounded Float32.maxVel32 (velocities s).

End FireflyLife.

(** ** src/professional/FirefliesSystem.js: [spawnFirefliesAt] *)

Module FirefliesSpawn.
Import FirefliesSystem.








End FirefliesSpawn.

(** ** src/professional/ScrollAnimations.js: the page after the trigger *)

Module VideoPage.
Import ScrollAnimations.

(** Pending [playVideo] timers. *)
Definition pendingPlays (w : World) : nat :=
  length (filter (fun t => is_redirect t = false) (timers w)).

(** What the canvas looks like once [redirectToVideoPage] has run: faded
    out if the element exists. *)
Definition faded (canvas : option R) : option R :=
  match canvas with Some _ => Some 0 | None => None end.

(** Every redirect that ran has started the video or has its
    [playVideo] timer pending, and the canvas is faded out from the first
    redirect on; [canvas0] is the canvas the scene started with. *)
Definition settled (canvas0 : option R) (w : World) : Prop :=
  (videoPlays w + pendingPlays w)%nat = redirects w /\
  canvasOpacity w = (if (redirects w =? 0)%nat then canvas0 else faded canvas0).

(** The work the pending timers still stand for: a pending redirect
    stands for itself and for the [playVideo] it will schedule. *)
Definition backlog (w : World) : nat :=
  (2 * pendingRedirects w + pendingPlays w)%nat.

(** The look-at target of the camera, computed by the [onUpdate] of the
    empty tween of [animateCamera] from the stored scroll progress. *)
Definition lookAtTarget (s : ScrollAnimations) : Vec3 :=
  let startLookAt := mkVec3 0 1 0 in
  let endLookAt := mkVec3 0 1 (-8) in
  let progress := scrollProgress s in
  let lookAtX := vx startLookAt + (vx endLookAt - vx startLookAt) * progress in
  let lookAtY := vy startLookAt + (vy endLookAt - vy startLookAt) * progress in
  let lookAtZ := vz startLookAt + (vz endLookAt - vz startLookAt) * progress in
  mkVec3 lookAtX lookAtY lookAtZ.

(** The events after which no [ScrollUpdate] follows. *)
Definition is_update (e : Event) : bool :=
  match e with ScrollUpdate _ => true | _ => false end.

End VideoPage.

(** ** src/animations.js: repeated scroll callbacks and [reset] *)

Module AnimationsLife.
Import Animations.

(** The pin trigger calls [handleScrollProgress] once per scroll update;
    each call comes with the value [Date.now()] has at that moment and
    the progress reported.  Oldest call first. *)
Definition handle_all (calls : list (R * R)) (w : World) : World :=
  fold_left (fun acc c => handleScrollProgress (fst c) (snd c) acc) calls w.

(** The object with the two clones the constructor stores beside the
    fields of [Animations.ScrollAnimations]. *)
Record Stored : Type := mkStored {
  world : World;
  initialCameraPosition : Vec3;
  initialCameraRotation : Vec3
}.

Definition construct (cam : Camera) (forest orange logo : option Object3D)
    (app_fireflies : option Fireflies.FireflySystem) : Stored :=
  mkStored (mkWorld (mkScrollAnimations cam forest orange logo 0 false) app_fireflies)
    (cam_position cam) (cam_rotation cam).

(** The writes of [reset], up to its last statement. *)
Definition reset_writes (st : Stored) : Stored :=
  let s := anim (world st) in
  let cam := mkCamera (initialCameraPosition st) (initialCameraRotation st) in
  let forest :=
    match forestModel s with
    | Some m => Some (set_visible true m)
    | None => None
    end in
  let orange :=
    match orangeModel s with
    | Some m => Some (set_scale (mkVec3 1 1 1) (set_visible false m))
    | None => None
    end in
  let logo :=
    match logoModel s with
    | Some m => Some (set_scale (mkVec3 1 1 1) (set_visible false m))
    | None => None
    end in
  mkStored (mkWorld (mkScrollAnimations cam forest orange logo 0 (isAnimating s))
              (fireflies (world st)))
    (initialCameraPosition st) (initialCameraRotation st).

(** [reset] ends with [ScrollTrigger.refresh()].  That function belongs
    to GSAP, which is not part of the repository: it re-measures the
    triggers and may run their callbacks, which in this file write the
    camera (the tweens of the timeline), [currentProgress] (the
    timeline's [onUpdate]) and, through [handleScrollProgress], the models
    and the swarm.  What it does to the object is the parameter
    [refresh]. *)
Definition reset (refresh : Stored -> Stored) (st : Stored) : Stored :=
  refresh (reset_writes st).

(** A model turned by [d] about its y axis. *)
Definition turned (d : R) (m : Object3D) : Object3D :=
  set_rotation (mkVec3 (vx (rotation m)) (vy (rotation m) + d) (vz (rotation m))) m.

End AnimationsLife.

(** ** SceneManager.js: the point lights and their animation *)

Module SceneManager.

Record PointLight : Type := mkPointLight {
  color : Z;
  intensity : R;
  distance : R;
  light_position : Vec3
}.

Definition pointLightColors : list Z := [0x8fbc8f; 0x6b8e6b; 0x556b55]%Z.

(** One iteration of the loop of [setupLights] that creates the point
    lights; the arguments of [position.set] are evaluated left to right. *)
Definition setupLights_body (i : nat) (st : list PointLight * Random)
    : list PointLight * Random :=
  let '(pointLights, g) := st in
  let '(rx, g) := Math_random g in
  let '(ry, g) := Math_random g in
  let '(rz, g) := Math_random g in
  let pointLight :=
    mkPointLight (nth i pointLightColors 0%Z) 0.3 25
      (mkVec3 ((rx - 0.5) * 30) (5 + ry * 3) ((rz - 0.5) * 30)) in
  (pointLights ++ [pointLight], g).

(** [this.lights.pointLights] as [setupLights] leaves it. *)
Definition setupLights (g : Random) : list PointLight * Random :=
  for_count 3 setupLights_body ([], g).

(** The callback of [forEach] in [animate]; [now] is the value of
    [Date.now()] read inside it. *)
Definition animate_light (now : R) (index : nat) (light : PointLight) : PointLight :=
  let time := now * 0.001 in
  let p := light_position light in
  let p := mkVec3 (vx p + sin (time + INR index) * 0.01) (vy p) (vz p) in
  let p := mkVec3 (vx p) (vy p) (vz p + cos (time + INR index) * 0.01) in
  mkPointLight (color light) (0.3 + sin (time * 2 + INR index) * 0.2)
    (distance light) p.

(** [animate(deltaTime)]; [now index] is what [Date.now()] returns when
    the callback runs for the light at [index]. *)
Definition animate (now : nat -> R) (deltaTime : R) (pointLights : list PointLight)
    : list PointLight :=
  imap (fun index light => animate_light (now index) index light) pointLights.

(** The frames of the render loop, each with its clock and its delta. *)
Definition frames (fs : list ((nat -> R) * R)) (pointLights : list PointLight)
    : list PointLight :=
  fold_left (fun acc f => animate (fst f) (snd f) acc) fs pointLights.

End SceneManager.

(** ** src/loader.js: the asset cache and the post-processing of models *)

Module AssetLoader.

Inductive Filter : Type := NearestFilter | LinearFilter | LinearMipmapLinearFilter.
Inductive Wrapping : Type := ClampToEdgeWrapping | RepeatWrapping.

Record Texture : Type := mkTexture {
  minFilter : Filter;
  magFilter : Filter;
  generateMipmaps : bool;
  wrapS : Wrapping;
  wrapT : Wrapping;
  anisotropy : R
}.

Record Material : Type := mkMaterial {
  isMeshStandardMaterial : bool;
  roughness : R;
  metalness : R;
  vertexColors : bool
}.

(** [has_color] is whether [geometry.attributes.color] is set; the two
    flags record that the bounding volumes have been computed. *)
Record Geometry : Type := mkGeometry {
  has_color : bool;
  boundingBox : bool;
  boundingSphere : bool
}.

(** A node of a loaded model, with the fields [optimizeModel] reads and
    writes.  A mesh always carries a geometry. *)
Record Node : Type := mkNode {
  isMesh : bool;
  castShadow : bool;
  receiveShadow : bool;
  material : option Material;
  geometry : Geometry
}.

(** The callback that [optimizeModel] passes to [traverse]. *)
Definition optimize_child (child : Node) : Node :=
  if isMesh child then
    (* Optimize materials *)
    let mat :=
      match material child with
      | Some m =>
          let m :=
            if has_color (geometry child)
            then mkMaterial (isMeshStandardMaterial m) (roughness m) (metalness m) true
            else m in
          let m :=
            if isMeshStandardMaterial m
            then mkMaterial (isMeshStandardMaterial m) (Math_max (roughness m) 0.1)
                   (Math_min (metalness m) 0.9) (vertexColors m)
            else m in
          Some m
      | None => None
      end in
    (* Optimize geometry *)
    let geo := mkGeometry (has_color (geometry child)) true true in
    mkNode (isMesh child) true true mat geo
  else child.

(** A model is the sequence of nodes [traverse] visits: the root and
    all its descendants. *)
Definition optimizeModel (model : list Node) : list Node := map optimize_child model.

Definition optimizeTexture (texture : Texture) : Texture :=
  let maxAnisotropy := 4 in
  mkTexture LinearMipmapLinearFilter LinearFilter true RepeatWrapping RepeatWrapping
    (Math_min maxAnisotropy 16).

Inductive Asset : Type :=
| Model (nodes : list Node)
| Tex (texture : Texture).

Record AssetLoader : Type := mkAssetLoader { loadedAssets : gmap string Asset }.

Definition new : AssetLoader := mkAssetLoader ∅.

(** The success callback of [loadGLTF]: optimise, store, resolve. *)
Definition gltf_loaded (url : string) (scene : list Node) (ld : AssetLoader)
    : AssetLoader * Asset :=
  let model := optimizeModel scene in
  (mkAssetLoader (<[url := Model model]> (loadedAssets ld)), Model model).

(** The success callback of [loadTexture]. *)
Definition texture_loaded (url : string) (texture : Texture) (ld : AssetLoader)
    : AssetLoader * Asset :=
  let texture := optimizeTexture texture in
  (mkAssetLoader (<[url := Tex texture]> (loadedAssets ld)), Tex texture).

(** A call of [loadGLTF] whose response, if one is requested, arrives
    before anything else touches the cache: [response] is the scene the
    network delivers, or [None] when the request fails.  The result is
    the value the promise resolves with, or [None] when it is rejected;
    a clone has the value of its original. *)
Definition loadGLTF (url : string) (response : option (list Node)) (ld : AssetLoader)
    : AssetLoader * option Asset :=
  match loadedAssets ld !! url with
  | Some a => (ld, Some a)
  | None =>
      match response with
      | Some scene => let '(ld, a) := gltf_loaded url scene ld in (ld, Some a)
      | None => (ld, None)
      end
  end.

Definition loadTexture (url : string) (response : option Texture) (ld : AssetLoader)
    : AssetLoader * option Asset :=
  match loadedAssets ld !! url with
  | Some a => (ld, Some a)
  | None =>
      match response with
      | Some texture => let '(ld, a) := texture_loaded url texture ld in (ld, Some a)
      | None => (ld, None)
      end
  end.

Definition getCached (url : string) (ld : AssetLoader) : option Asset :=
  loadedAssets ld !! url.

Definition clearCache (ld : AssetLoader) : AssetLoader := mkAssetLoader ∅.

Definition getCacheSize (ld : AssetLoader) : nat := size (loadedAssets ld).

(** What can happen to the cache, in any interleaving of concurrent
    loads: a model arrives, a texture arrives, the cache is cleared. *)
Inductive Event : Type :=
| GLTFArrives (url : string) (scene : list Node)
| TextureArrives (url : string) (texture : Texture)
| CacheCleared.

Definition step (ld : AssetLoader) (e : Event) : AssetLoader :=
  match e with
  | GLTFArrives url scene => fst (gltf_loaded url scene ld)
  | TextureArrives url texture => fst (texture_loaded url texture ld)
  | CacheCleared => clearCache ld
  end.

Definition run (es : list Event) (ld : AssetLoader) : AssetLoader := fold_left step es ld.

(** A node as [optimizeModel] leaves a mesh. *)
Definition optimized_node (n : Node) : Prop :=
  isMesh n = true ->
  castShadow n = true /\ receiveShadow n = true /\
  boundingBox (geometry n) = true /\ boundingSphere (geometry n) = true /\
  forall m, material n = Some m ->
    (has_color (geometry n) = true -> vertexColors m = true) /\
    (isMeshStandardMaterial m = true -> 0.1 <= roughness m /\ metalness m <= 0.9).

Definition optimized (a : Asset) : Prop :=
  match a with
  | Model nodes => Forall optimized_node nodes
  | Tex t =>
      minFilter t = LinearMipmapLinearFilter /\ magFilter t = LinearFilter /\
      generateMipmaps t = true /\ wrapS t = RepeatWrapping /\ wrapT t = RepeatWrapping /\
      anisotropy t = 4
  end.

Definition is_clear (e : Event) : bool :=
  match e with CacheCleared => true | _ => false end.

(** The number of models and textures that have arrived. *)
Definition arrivals (es : list Event) : nat :=
  length (filter (fun e => is_clear e = false) es).

End AssetLoader.

(** ** AssetManager.js and main_new.js: loading and the loading screen *)

Module Loading.

Record Config : Type := mkConfig {
  path : string;
  cfg_position : Vec3;
  cfg_scale : Vec3;
  cfg_rotation : Vec3
}.

Definition assetDefinitions : list (string * Config) :=
  [ ("grass",
     mkConfig "./assets/models/grass.glb"
       (mkVec3 0 0 0) (mkVec3 0.1 0.05 0.1) (mkVec3 0 0 0));
    ("blueFlower",
     mkConfig "./assets/models/flower/source/Blue_end.glb"
       (mkVec3 0 0.3 5) (mkVec3 2.5 2.5 2.5) (mkVec3 0 0 0)) ].

(** The asset manager with its counters.  Of a stored asset only the
    model is kept: the functions modelled do not read the rest. *)
Record Manager : Type := mkManager {
  assets : AssetManager.AssetManager;
  loadingProgress : R;
  totalAssets : nat;
  loadedCount : nat
}.

Definition new : Manager :=
  mkManager (AssetManager.mkAssetManager ∅) 0 (length assetDefinitions) 0.

(** The loading screen of main_new.js: the width of the progress bar in
    percent, and the content of the text element if the page has one. *)
Record Screen : Type := mkScreen {
  width : Z;
  loadingText : option string
}.

Definition updateLoadingProgress (progress : R) (sc : Screen) : Screen :=
  let percentage := Math_round (progress * 100) in
  let text :=
    match loadingText sc with
    | Some _ =>
        Some (if (percentage <? 30)%Z then "Loading Forest Assets..."
              else if (percentage <? 60)%Z then "Preparing Fireflies..."
              else if (percentage <? 90)%Z then "Setting up Animations..."
              else "Almost Ready...")
    | None => None
    end in
  mkScreen percentage text.

(** The success callback of [loadAsset], with the progress callback
    that [loadAssets] of main_new.js passes down. *)
Definition asset_loaded (name : string) (scene : Object3D) (st : Manager * Screen)
    : Manager * Screen :=
  let '(am, sc) := st in
  let loaded :=
    AssetManager.mkAssetManager
      (<[name := AssetManager.mkAsset scene]> (AssetManager.loadedAssets (assets am))) in
  let loadedCount := S (loadedCount am) in
  let loadingProgress := INR loadedCount / INR (totalAssets am) in
  (mkManager loaded loadingProgress (totalAssets am) loadedCount,
   updateLoadingProgress loadingProgress sc).

(** The assets that finish loading, oldest first. *)
Definition load_all (arrivals : list (string * Object3D)) (st : Manager * Screen)
    : Manager * Screen :=
  fold_left (fun acc a => asset_loaded (fst a) (snd a) acc) arrivals st.

End Loading.

(** ** main.js: the roaming fireflies of the space scene *)

Module Roaming.

Record UserData : Type := mkUserData {
  basePosition : Vec3;
  roamRadius : R;
  speed : R;
  offsetX : R;
  offsetY : R;
  offsetZ : R;
  verticalSpeed : R
}.

(** A firefly mesh: its transform, what the constructor draws for its
    look, and its roaming properties ([None] while [userData] is unset). *)
Record Firefly : Type := mkFirefly {
  mesh : Object3D;
  radius : R;
  hue : R;
  opacity : R;
  haloRadius : R;
  userData : option UserData
}.

Definition set_mesh (m : Object3D) (f : Firefly) : Firefly :=
  mkFirefly m (radius f) (hue f) (opacity f) (haloRadius f) (userData f).

Definition createSingleFirefly (index : nat) (g : Random) : Firefly * Random :=
  let '(r, g) := Math_random g in
  let radius := 0.8 + r * 0.4 in
  (* Vary the colors slightly for each firefly *)
  let '(r, g) := Math_random g in
  let hue := 0.15 + r * 0.1 in
  let '(r, g) := Math_random g in
  let opacity := 0.8 + r * 0.2 in
  (* Random starting positions *)
  let '(r, g) := Math_random g in
  let x := (r - 0.5) * 40 in
  let '(r, g) := Math_random g in
  let y := 2 + r * 8 in
  let '(r, g) := Math_random g in
  let z := (r - 0.5) * 40 in
  let position := mkVec3 x y z in
  (* Add a glowing halo *)
  let '(r, g) := Math_random g in
  let haloRadius := 1.5 + r * 0.5 in
  (* Add roaming properties *)
  let '(r, g) := Math_random g in
  let roamRadius := 15 + r * 10 in
  let '(r, g) := Math_random g in
  let speed := 0.0005 + r * 0.0015 in
  let '(r, g) := Math_random g in
  let offsetX := r * PI * 2 in
  let '(r, g) := Math_random g in
  let offsetY := r * PI * 2 in
  let '(r, g) := Math_random g in
  let offsetZ := r * PI * 2 in
  let '(r, g) := Math_random g in
  let verticalSpeed := 0.001 + r * 0.002 in
  (mkFirefly (mkObject3D true position (mkVec3 0 0 0) (mkVec3 1 1 1))
     radius hue opacity haloRadius
     (Some (mkUserData position roamRadius speed offsetX offsetY offsetZ verticalSpeed)),
   g).

Definition numberOfFireflies : nat := 6.

(** [createFallbackFireflies], pushing onto the list [fireflies]. *)
Definition createFallbackFireflies (st : list Firefly * Random) : list Firefly * Random :=
  for_count numberOfFireflies
    (fun i st =>
       let '(fireflies, g) := st in
       let '(f, g) := createSingleFirefly i g in
       (fireflies ++ [f], g))
    st.

(** [list.forEach((x, index) => ...)] with a callback that draws random
    numbers: the elements are visited in order, from index [i] on. *)
Fixpoint forEach_from {A : Type} (i : nat) (body : nat -> A -> Random -> A * Random)
    (l : list A) (g : Random) : list A * Random :=
  match l with
  | [] => ([], g)
  | x :: l =>
      let '(x, g) := body i x g in
      let '(l, g) := forEach_from (S i) body l g in
      (x :: l, g)
  end.

Record Scene : Type := mkScene {
  moon_rotation : Vec3;
  fireflies : list Firefly;
  camera : Animations.Camera
}.

(** The scroll handler; [t] is the top of the body's bounding rectangle. *)
Definition moveCamera_firefly (t : R) (index : nat) (firefly : Firefly) : Firefly :=
  let m := mesh firefly in
  (* Gentle rotation *)
  let r := rotation m in
  let r := mkVec3 (vx r) (vy r + (0.01 + INR index * 0.002)) (vz r) in
  let r := mkVec3 (vx r) (vy r) (vz r + (0.005 + INR index * 0.001)) in
  (* Scroll-based gentle drift *)
  let scrollInfluence := t * -0.001 in
  let p := position m in
  let p := mkVec3 (vx p + scrollInfluence) (vy p) (vz p) in
  set_mesh (mkObject3D (visible m) p r (scale m)) firefly.

Definition moveCamera (t : R) (sc : Scene) : Scene :=
  let mr := moon_rotation sc in
  let mr := mkVec3 (vx mr + 0.05) (vy mr + 0.075) (vz mr + 0.05) in
  let ffs := imap (moveCamera_firefly t) (fireflies sc) in
  let c := camera sc in
  let cp := Animations.cam_position c in
  let cp := mkVec3 (vx cp) (vy cp) (t * -0.01) in
  let cp := mkVec3 (t * -0.0002) (vy cp) (vz cp) in
  let cr := Animations.cam_rotation c in
  let cr := mkVec3 (vx cr) (t * -0.0002) (vz cr) in
  mkScene mr ffs (Animations.mkCamera cp cr).

(** The callback of [forEach] in [animate]; [time] is [Date.now()]. *)
Definition animate_firefly (time : R) (index : nat) (firefly : Firefly) (g : Random)
    : Firefly * Random :=
  match userData firefly with
  | Some u =>
      (* Create smooth roaming motion using sine waves *)
      let timeOffset := time * speed u in
      let roamX := sin (timeOffset + offsetX u) * roamRadius u in
      let roamZ := cos (timeOffset + offsetZ u) * roamRadius u in
      let roamY := sin (timeOffset * 2 + offsetY u) * 3 in
      let b := basePosition u in
      let p := mkVec3 (vx b + roamX) (vy b + roamY) (vz b + roamZ) in
      (* Gentle rotation while roaming *)
      let r := rotation (mesh firefly) in
      let r := mkVec3 (vx r) (sin (timeOffset * 0.5) * 0.3) (vz r) in
      let r := mkVec3 (sin (timeOffset * 0.3) * 0.2) (vy r) (vz r) in
      let m := mkObject3D (visible (mesh firefly)) p r (scale (mesh firefly)) in
      (* Occasionally change direction *)
      let '(c, g) := Math_random g in
      if num_lt c 0.001 then
        let '(r1, g) := Math_random g in
        let b := mkVec3 (vx b + (r1 - 0.5) * 2) (vy b) (vz b) in
        let '(r2, g) := Math_random g in
        let b := mkVec3 (vx b) (vy b) (vz b + (r2 - 0.5) * 2) in
        (* Keep within bounds *)
        let b := mkVec3 (Math_max (-30) (Math_min 30 (vx b))) (vy b) (vz b) in
        let b := mkVec3 (vx b) (vy b) (Math_max (-30) (Math_min 30 (vz b))) in
        let u := mkUserData b (roamRadius u) (speed u) (offsetX u) (offsetY u)
                   (offsetZ u) (verticalSpeed u) in
        (mkFirefly m (radius firefly) (hue firefly) (opacity firefly)
           (haloRadius firefly) (Some u), g)
      else (set_mesh m firefly, g)
  | None => (firefly, g)
  end.

(** One frame of the animation loop. *)
Definition animate (time : R) (st : Scene * Random) : Scene * Random :=
  let '(sc, g) := st in
  let mr := moon_rotation sc in
  let mr := mkVec3 (vx mr + 0.005) (vy mr) (vz mr) in
  let '(ffs, g) := forEach_from 0 (animate_firefly time) (fireflies sc) g in
  (mkScene mr ffs (camera sc), g).

(** What happens to the scene after it is built: frames and scrolls. *)
Inductive Event : Type :=
| Frame (time : R)
| Scroll (t : R).

Definition step (st : Scene * Random) (e : Event) : Scene * Random :=
  match e with
  | Frame time => animate time st
  | Scroll t => (moveCamera t (fst st), snd st)
  end.

Definition run (es : list Event) (st : Scene * Random) : Scene * Random :=
  fold_left step es st.

(** A firefly that roams: its base lies within 30 of the origin along x
    and z and between 2 and 10 high, and its radius is below 25. *)
Definition roams (f : Firefly) : Prop :=
  exists u, userData f = Some u /\
    -30 <= vx (basePosition u) <= 30 /\ -30 <= vz (basePosition u) <= 30 /\
    2 <= vy (basePosition u) < 10 /\ 0 <= roamRadius u < 25.

(** Where a frame leaves a roaming firefly. *)
Definition in_range (f : Firefly) : Prop :=
  let p := position (mesh f) in
  let r := rotation (mesh f) in
  -55 < vx p < 55 /\ -1 <= vy p < 13 /\ -55 < vz p < 55 /\
  Rabs (vx r) <= 0.2 /\ Rabs (vy r) <= 0.3.

(** Two fireflies with the same roaming properties, set. *)
Definition same_roaming (f f' : Firefly) : Prop :=
  userData f = userData f' /\ userData f <> None.

(** Two fireflies at the same place, with the same base and the same
    rotation about x and y. *)
Definition same_place (f f' : Firefly) : Prop :=
  position (mesh f) = position (mesh f') /\ userData f = userData f' /\
  vx (rotation (mesh f)) = vx (rotation (mesh f')) /\
  vy (rotation (mesh f)) = vy (rotation (mesh f')).

End Roaming.

(** * Properties *)

(** ** Arrays and counted loops *)

Section Arrays.

Lemma for_count_S {St} n (body : nat -> St -> St) s :
  for_count (S n) body s = body n (for_count n body s).
Proof. unfold for_count. by rewrite seq_S, fold_left_app. Qed.

(** The loop-invariant rule of [for_count]. *)
Lemma for_count_ind {St} (body : nat -> St -> St) (Inv : nat -> St -> Prop) n s :
  Inv 0%nat s ->
  (forall i acc, (i < n)%nat -> Inv i acc -> Inv (S i) (body i acc)) ->
  Inv n (for_count n body s).
Proof.
  intros H0 Hstep. induction n as [|n IH]; [exact H0|].
  rewrite for_count_S. apply Hstep; [lia|]. apply IH. intros; apply Hstep; [lia|done].
Qed.

Lemma aget_insert_eq (l : list R) i v :
  (i < length l)%nat -> aget (<[i:=v]> l) i = v.
Proof. intros H. unfold aget. by rewrite list_lookup_insert_eq. Qed.

Lemma aget_insert_ne (l : list R) i j v :
  i <> j -> aget (<[i:=v]> l) j = aget l j.
Proof. intros H. unfold aget. by rewrite list_lookup_insert_ne. Qed.

(** A guarded store is a store of a guarded value. *)
Lemma if_insert (b : bool) (l : list R) i v :
  (if b then <[i:=v]> l else l) = <[i := if b then v else aget l i]> l.
Proof.
  destruct b; [done|]. unfold aget. destruct (l !! i) eqn:E; simpl.
  - by rewrite list_insert_id.
  - rewrite list_insert_ge; [done|]. by apply lookup_ge_None.
Qed.

Lemma num_ge_true a b : num_ge a b = true <-> a >= b.
Proof. unfold num_ge. destruct (Rge_dec a b); split; intros; done. Qed.

Lemma num_lt_true a b : num_lt a b = true <-> a < b.
Proof. unfold num_lt. destruct (Rlt_dec a b); split; intros; done. Qed.

Lemma num_gt_true a b : num_gt a b = true <-> a > b.
Proof. unfold num_gt. destruct (Rgt_dec a b); split; intros; done. Qed.

Lemma num_lt_false a b : num_lt a b = false <-> b <= a.
Proof. unfold num_lt. destruct (Rlt_dec a b); split; intros; try done; lra. Qed.

Lemma num_gt_false a b : num_gt a b = false <-> a <= b.
Proof. unfold num_gt. destruct (Rgt_dec a b); split; intros; try done; lra. Qed.

End Arrays.

(** Reads of nested stores: the index is either the one stored at or
    another one. *)
Ltac aget_norm :=
  repeat first
    [ rewrite aget_insert_eq by (rewrite ?length_insert; lia)
    | rewrite aget_insert_ne by lia ].

(** Case analysis on every comparison of the goal. *)
Ltac num_cases :=
  unfold num_lt, num_gt, num_ge in *;
  repeat match goal with
    | |- context [Rlt_dec ?a ?b] => destruct (Rlt_dec a b)
    | |- context [Rgt_dec ?a ?b] => destruct (Rgt_dec a b)
    | |- context [Rge_dec ?a ?b] => destruct (Rge_dec a b)
    end.

(** ** The loop of [FireflySystem.update] (src/fireflies.js) *)

Section FireflySwarm.
Import Fireflies.

Lemma integrate_length phases t i pos vel :
  length (integrate phases t i pos vel) = length pos.
Proof. unfold integrate. cbv zeta. by rewrite !length_insert. Qed.

Lemma integrate_at phases t i pos vel :
  (i * 3 + 2 < length pos)%nat ->
  let phase := aget phases i + t * 0.5 in
  let pos' := integrate phases t i pos vel in
  aget pos' (i * 3) = aget pos (i * 3) + aget vel (i * 3) + cos (phase * 0.7) * 0.002 /\
  aget pos' (i * 3 + 1)
    = aget pos (i * 3 + 1) + aget vel (i * 3 + 1) + sin phase * 0.003 /\
  aget pos' (i * 3 + 2)
    = aget pos (i * 3 + 2) + aget vel (i * 3 + 2) + sin (phase * 0.3) * 0.002.
Proof. intros Hlen. unfold integrate. cbv zeta. aget_norm. done. Qed.

Lemma integrate_other phases t i pos vel j :
  (j < i * 3 \/ i * 3 + 3 <= j)%nat ->
  aget (integrate phases t i pos vel) j = aget pos j.
Proof. intros Hj. unfold integrate. cbv zeta. by aget_norm. Qed.

Lemma wrap_length i pos : length (wrap i pos) = length pos.
Proof. unfold wrap. rewrite !if_insert. cbv zeta. by rewrite !length_insert. Qed.

Lemma wrap_at i pos :
  (i * 3 + 2 < length pos)%nat ->
  aget (wrap i pos) (i * 3) = wrap_horizontal (aget pos (i * 3)) /\
  aget (wrap i pos) (i * 3 + 1) = wrap_vertical (aget pos (i * 3 + 1)) /\
  aget (wrap i pos) (i * 3 + 2) = wrap_horizontal (aget pos (i * 3 + 2)).
Proof.
  intros Hlen. unfold wrap. rewrite !if_insert. cbv zeta. aget_norm.
  unfold wrap_horizontal, wrap_vertical. done.
Qed.

Lemma wrap_other i pos j :
  (j < i * 3 \/ i * 3 + 3 <= j)%nat -> aget (wrap i pos) j = aget pos j.
Proof. intros Hj. unfold wrap. rewrite !if_insert. cbv zeta. by aget_norm. Qed.

Lemma resample_length i vel g : length (fst (resample i vel g)) = length vel.
Proof.
  unfold resample, Math_random. destruct (num_lt _ _); cbn; by rewrite ?length_insert.
Qed.

Lemma resample_other i vel g j :
  (j < i * 3 \/ i * 3 + 3 <= j)%nat -> aget (fst (resample i vel g)) j = aget vel j.
Proof.
  intros Hj. unfold resample, Math_random. destruct (num_lt _ _); cbn; by aget_norm.
Qed.

Lemma firefly_update_body_stages phases t i pos vel g :
  update_body phases t i (pos, vel, g) =
    (wrap i (integrate phases t i pos vel),
     fst (resample i vel g), snd (resample i vel g)).
Proof. unfold update_body. by destruct (resample i vel g). Qed.

Lemma firefly_update_loop phases t pos0 vel0 g n :
  (n * 3 <= length pos0)%nat ->
  update_inv phases t pos0 vel0 n
    (for_count n (update_body phases t) (pos0, vel0, g)).
Proof.
  intros Hn. apply for_count_ind; [by repeat split; intros; lia|].
  intros i [[pos vel] g'] Hi (Lp & Lv & Hdone & Hrest).
  rewrite firefly_update_body_stages. unfold update_inv.
  assert (Hlen : (i * 3 + 2 < length pos)%nat) by lia.
  destruct (integrate_at phases t i pos vel Hlen) as (Ix & Iy & Iz).
  pose proof (integrate_length phases t i pos vel) as Li.
  destruct (wrap_at i (integrate phases t i pos vel)) as (Wx & Wy & Wz); [lia|].
  rewrite wrap_length, Li, resample_length. split; [done|]. split; [done|]. split.
  - intros k Hk. destruct (decide (k = i)) as [->|Hne].
    + rewrite Wx, Wy, Wz, Ix, Iy, Iz. unfold moved. cbn [vx vy vz].
      destruct (Hrest (i * 3)%nat) as [-> ->]; [lia|].
      destruct (Hrest (i * 3 + 1)%nat) as [-> ->]; [lia|].
      destruct (Hrest (i * 3 + 2)%nat) as [-> ->]; [lia|]. done.
    + rewrite !wrap_other, !integrate_other by lia. apply Hdone. lia.
  - intros j Hj. rewrite wrap_other, integrate_other, resample_other by lia.
    apply Hrest. lia.
Qed.

(** Every particle of a well-formed swarm is moved once by [update]; the
    frame delta is not an input, and the velocity enters unscaled. *)
Lemma firefly_update_moves g s i :
  wf s -> (i < count s)%nat ->
  let s' := fst (update g s) in
  aget (positions s') (i * 3)
    = vx (moved (phases s) (time s + 0.016) (positions s) (velocities s) i) /\
  aget (positions s') (i * 3 + 1)
    = vy (moved (phases s) (time s + 0.016) (positions s) (velocities s) i) /\
  aget (positions s') (i * 3 + 2)
    = vz (moved (phases s) (time s + 0.016) (positions s) (velocities s) i).
Proof.
  intros (Lp & Lv & Lph) Hi. unfold update.
  pose proof (firefly_update_loop (phases s) (time s + 0.016) (positions s) (velocities s) g
                (count s)) as L.
  destruct (for_count _ _ _) as [[pos vel] g']. cbn.
  destruct L as (_ & _ & Hdone & _); [lia|]. by apply Hdone.
Qed.

Lemma firefly_update_wf g s : wf s -> wf (fst (update g s)).
Proof.
  intros (Lp & Lv & Lph). unfold update.
  pose proof (firefly_update_loop (phases s) (time s + 0.016) (positions s) (velocities s) g
                (count s)) as L.
  destruct (for_count _ _ _) as [[pos vel] g']. cbn.
  destruct L as (Lp' & Lv' & _); [lia|]. unfold wf. cbn. repeat split; congruence.
Qed.

Lemma wrap_horizontal_range v : -10 <= wrap_horizontal v <= 10.
Proof. unfold wrap_horizontal. cbv zeta. num_cases; lra. Qed.

Lemma wrap_vertical_range v : 1 <= wrap_vertical v <= 9.
Proof. unfold wrap_vertical. cbv zeta. num_cases; lra. Qed.

(** The 50-particle swarm stays in its box: after every [update], for
    every oracle, x and z lie in [-10,10] and y in [1,9]. *)
Lemma firefly_update_in_bounds g s i :
  wf s -> (i < count s)%nat ->
  let s' := fst (update g s) in
  -10 <= aget (positions s') (i * 3) <= 10 /\
  1 <= aget (positions s') (i * 3 + 1) <= 9 /\
  -10 <= aget (positions s') (i * 3 + 2) <= 10.
Proof.
  intros Hwf Hi. destruct (firefly_update_moves g s i Hwf Hi) as (Ex & Ey & Ez).
  cbv zeta. rewrite Ex, Ey, Ez. unfold moved. cbn [vx vy vz].
  auto using wrap_horizontal_range, wrap_vertical_range.
Qed.

End FireflySwarm.

(** ** Attraction and the choice of force model (src/fireflies.js) *)

Section Attraction.
Import Fireflies.

Lemma attract_body_length pos x y z k i vel :
  length (attract_body pos x y z k i vel) = length vel.
Proof. unfold attract_body. cbv zeta. by rewrite !length_insert. Qed.

Lemma attract_body_at pos x y z k i vel :
  (i * 3 + 2 < length vel)%nat ->
  let vel' := attract_body pos x y z k i vel in
  aget vel' (i * 3)
    = limit_velocity (aget vel (i * 3) + (x - aget pos (i * 3)) * k) /\
  aget vel' (i * 3 + 1)
    = limit_velocity (aget vel (i * 3 + 1) + (y - aget pos (i * 3 + 1)) * k) /\
  aget vel' (i * 3 + 2)
    = limit_velocity (aget vel (i * 3 + 2) + (z - aget pos (i * 3 + 2)) * k).
Proof.
  intros Hlen. unfold attract_body, limit_velocity. cbv zeta. aget_norm. done.
Qed.

Lemma attract_body_other pos x y z k i vel j :
  (j < i * 3 \/ i * 3 + 3 <= j)%nat ->
  aget (attract_body pos x y z k i vel) j = aget vel j.
Proof. intros Hj. unfold attract_body. cbv zeta. by aget_norm. Qed.

Lemma attract_loop pos x y z k vel0 n :
  (n * 3 <= length vel0)%nat ->
  attract_inv pos x y z k vel0 n (for_count n (attract_body pos x y z k) vel0).
Proof.
  intros Hn. apply for_count_ind; [by repeat split; intros; lia|].
  intros i vel Hi (Lv & Hdone & Hrest). unfold attract_inv.
  destruct (attract_body_at pos x y z k i vel) as (Ax & Ay & Az); [lia|].
  rewrite attract_body_length. split; [done|]. split.
  - intros j Hj. destruct (decide (j = i)) as [->|Hne].
    + rewrite Ax, Ay, Az, !Hrest by lia. done.
    + rewrite !attract_body_other by lia. apply Hdone. lia.
  - intros j Hj. rewrite attract_body_other by lia. apply Hrest. lia.
Qed.

(** The velocity of every particle after [attractToPoint]. *)
Lemma attractToPoint_at x y z k s i :
  wf s -> (i < count s)%nat ->
  let s' := attractToPoint x y z k s in
  aget (velocities s') (i * 3)
    = limit_velocity (aget (velocities s) (i * 3)
                      + (x - aget (positions s) (i * 3)) * k) /\
  aget (velocities s') (i * 3 + 1)
    = limit_velocity (aget (velocities s) (i * 3 + 1)
                      + (y - aget (positions s) (i * 3 + 1)) * k) /\
  aget (velocities s') (i * 3 + 2)
    = limit_velocity (aget (velocities s) (i * 3 + 2)
                      + (z - aget (positions s) (i * 3 + 2)) * k).
Proof.
  intros (Lp & Lv & Lph) Hi. cbn.
  destruct (attract_loop (positions s) x y z k (velocities s) (count s))
    as (_ & Hdone & _); [lia|]. by apply Hdone.
Qed.

Lemma attractToPoint_wf x y z k s : wf s -> wf (attractToPoint x y z k s).
Proof.
  intros (Lp & Lv & Lph). unfold wf. cbn.
  destruct (attract_loop (positions s) x y z k (velocities s) (count s))
    as (L & _ & _); [lia|]. repeat split; congruence.
Qed.

Lemma limit_velocity_range v : -0.05 <= limit_velocity v <= 0.05.
Proof.
  unfold limit_velocity, Math_max, Math_min, Rmax, Rmin. cbv zeta.
  repeat destruct (Rle_dec _ _); lra.
Qed.

Lemma small_swarm_wf : wf small_swarm.
Proof. by repeat split. Qed.

Lemma setScrollProgress_orange p s :
  0.3 <= p < 0.6 ->
  setScrollProgress p s = set_material 1.0 0.9 (attractToPoint 2 0 (-3) 0.001 s).
Proof.
  intros [Hlo Hhi]. unfold setScrollProgress.
  apply num_lt_false in Hlo. apply num_lt_true in Hhi. by rewrite Hlo, Hhi.
Qed.

Lemma setScrollProgress_free p s :
  p < 0.3 \/ 0.6 <= p ->
  exists sz op, setScrollProgress p s = set_material sz op s.
Proof.
  intros [Hlo|Hhi]; unfold setScrollProgress.
  - apply num_lt_true in Hlo. rewrite Hlo. eauto.
  - assert (H3 : 0.3 <= p) by lra.
    apply num_lt_false in H3, Hhi. rewrite H3, Hhi. eauto.
Qed.

Lemma set_material_wf sz op s : wf s -> wf (set_material sz op s).
Proof. intros H. exact H. Qed.

Lemma velocities_set_material sz op s :
  velocities (set_material sz op s) = velocities s.
Proof. reflexivity. Qed.

(** Two attraction steps in a row pull and clamp twice. *)
Lemma attract_again x y z k sz op s i :
  wf s -> (i < count s)%nat ->
  let s1 := set_material sz op (attractToPoint x y z k s) in
  let pull := (x - aget (positions s) (i * 3)) * k in
  aget (velocities s1) (i * 3) = limit_velocity (aget (velocities s) (i * 3) + pull) /\
  aget (velocities (attractToPoint x y z k s1)) (i * 3)
    = limit_velocity (limit_velocity (aget (velocities s) (i * 3) + pull) + pull).
Proof.
  intros Hwf Hi s1 pull.
  destruct (attractToPoint_at x y z k s i Hwf Hi) as (X1 & _).
  assert (Hwf1 : wf s1)
    by exact (set_material_wf sz op _ (attractToPoint_wf x y z k s Hwf)).
  destruct (attractToPoint_at x y z k s1 i Hwf1 Hi) as (X2 & _).
  split; [exact X1|]. rewrite X2. unfold pull. f_equal. f_equal. exact X1.
Qed.

Lemma limit_velocity_id v : -0.05 <= v <= 0.05 -> limit_velocity v = v.
Proof.
  intros H. unfold limit_velocity, Math_max, Math_min, Rmax, Rmin. cbv zeta.
  repeat destruct (Rle_dec _ _); lra.
Qed.

(** C6. The force model follows the phase of the progress: for
    [0.3 <= p < 0.6] the handler runs the attraction towards (2, 0, -3)
    with strength 0.001 on every particle, and for any other [p] it leaves
    every velocity as it was. *)
Theorem setScrollProgress_force_model p s :
  (0.3 <= p < 0.6 ->
     velocities (setScrollProgress p s)
       = velocities (attractToPoint 2 0 (-3) 0.001 s) /\
     forall i, wf s -> (i < count s)%nat ->
       aget (velocities (setScrollProgress p s)) (i * 3)
         = limit_velocity (aget (velocities s) (i * 3)
                           + (2 - aget (positions s) (i * 3)) * 0.001) /\
       aget (velocities (setScrollProgress p s)) (i * 3 + 1)
         = limit_velocity (aget (velocities s) (i * 3 + 1)
                           + (0 - aget (positions s) (i * 3 + 1)) * 0.001) /\
       aget (velocities (setScrollProgress p s)) (i * 3 + 2)
         = limit_velocity (aget (velocities s) (i * 3 + 2)
                           + (-3 - aget (positions s) (i * 3 + 2)) * 0.001)) /\
  (p < 0.3 \/ 0.6 <= p -> velocities (setScrollProgress p s) = velocities s).
Proof.
  split.
  - intros Hp. rewrite (setScrollProgress_orange p s Hp).
    split; [reflexivity|]. intros i Hwf Hi.
    apply (attractToPoint_at 2 0 (-3) 0.001 s i Hwf Hi).
  - intros Hp. destruct (setScrollProgress_free p s Hp) as (sz & op & ->).
    reflexivity.
Qed.

Lemma setScrollProgress_force_model_witness :
  velocities (setScrollProgress 0.45 small_swarm)
    = velocities (attractToPoint 2 0 (-3) 0.001 small_swarm) /\
  velocities (setScrollProgress 0.7 small_swarm) = velocities small_swarm.
Proof.
  split.
  - apply (setScrollProgress_force_model 0.45 small_swarm). lra.
  - apply (setScrollProgress_force_model 0.7 small_swarm). lra.
Defined.

End Attraction.

(** ** The 200-particle swarm (src/professional/FirefliesSystem.js) *)

Section Swarm200.
Import FirefliesSystem.

Lemma create_loop g n :
  (n <= 200)%nat ->
  create_inv (draws g) (cursor g) n
    (for_count n create_body
       (replicate 600 0, replicate 200 0, replicate 200 0, replicate 600 0, g)).
Proof.
  intros Hn. apply for_count_ind.
  { unfold create_inv. rewrite !length_replicate.
    repeat split; try done; try lia. all: intros; lia. }
  intros i [[[[pos sc] ph] vel] g'] Hi (Lp & Ls & Lph & Lv & Ed & Ec & Hdone).
  unfold create_body, Math_random, create_inv. cbn [draws cursor].
  rewrite !length_insert. repeat (split; [first [done | lia]|]).
  intros k Hk. destruct (decide (k = i)) as [->|Hne].
  - aget_norm. rewrite Ed, Ec. unfold created_position, created_velocity, draw.
    cbn [vx vy vz].
    replace (cursor g + 8 * i + 0)%nat with (cursor g + 8 * i)%nat by lia.
    replace (cursor g + 8 * i + 1)%nat with (S (cursor g + 8 * i)) by lia.
    replace (cursor g + 8 * i + 2)%nat with (S (S (cursor g + 8 * i))) by lia.
    replace (cursor g + 8 * i + 4)%nat
      with (S (S (S (S (cursor g + 8 * i))))) by lia.
    replace (cursor g + 8 * i + 5)%nat
      with (S (S (S (S (S (cursor g + 8 * i)))))) by lia.
    replace (cursor g + 8 * i + 6)%nat
      with (S (S (S (S (S (S (cursor g + 8 * i))))))) by lia.
    replace (cursor g + 8 * i + 7)%nat
      with (S (S (S (S (S (S (S (cursor g + 8 * i)))))))) by lia.
    done.
  - aget_norm. apply Hdone. lia.
Qed.

Lemma create_wf g : wf (fst (create g)).
Proof.
  unfold create. pose proof (create_loop g 200 ltac:(lia)) as L.
  change (200 * 3)%nat with 600%nat.
  destruct (for_count _ _ _) as [[[[pos sc] ph] vel] g'].
  destruct L as (Lp & _ & Lph & Lv & _). by repeat split.
Qed.

Lemma create_at g i :
  (i < 200)%nat ->
  let s := fst (create g) in
  aget (attr_position s) (i * 3) = vx (created_position (draws g) (cursor g) i) /\
  aget (attr_position s) (i * 3 + 1) = vy (created_position (draws g) (cursor g) i) /\
  aget (attr_position s) (i * 3 + 2) = vz (created_position (draws g) (cursor g) i) /\
  aget (attr_phase s) i = draw (draws g) (cursor g) i 4 * PI * 2 /\
  aget (attr_velocity s) (i * 3) = vx (created_velocity (draws g) (cursor g) i) /\
  aget (attr_velocity s) (i * 3 + 1) = vy (created_velocity (draws g) (cursor g) i) /\
  aget (attr_velocity s) (i * 3 + 2) = vz (created_velocity (draws g) (cursor g) i).
Proof.
  intros Hi. unfold create. pose proof (create_loop g 200 ltac:(lia)) as L.
  change (200 * 3)%nat with 600%nat.
  destruct (for_count _ _ _) as [[[[pos sc] ph] vel] g'].
  destruct L as (_ & _ & _ & _ & _ & _ & Hdone). by apply Hdone.
Qed.

Lemma fireflies_update_body_length phases t i pos vel :
  length (fst (update_body phases t i (pos, vel))) = length pos /\
  length (snd (update_body phases t i (pos, vel))) = length vel.
Proof.
  unfold update_body. rewrite !if_insert. cbv zeta. cbn [fst snd].
  by rewrite !length_insert.
Qed.

Lemma fireflies_update_body_at phases t i pos vel :
  (i * 3 + 2 < length pos)%nat -> (i * 3 + 2 < length vel)%nat ->
  let st := update_body phases t i (pos, vel) in
  (aget (fst st) (i * 3) = vx (floated phases t pos vel i) /\
   aget (fst st) (i * 3 + 1) = vy (floated phases t pos vel i) /\
   aget (fst st) (i * 3 + 2) = vz (floated phases t pos vel i)) /\
  (aget (snd st) (i * 3) = vx (reflected phases t pos vel i) /\
   aget (snd st) (i * 3 + 1) = vy (reflected phases t pos vel i) /\
   aget (snd st) (i * 3 + 2) = vz (reflected phases t pos vel i)).
Proof.
  intros Lp Lv. unfold update_body. rewrite !if_insert. cbv zeta. cbn [fst snd].
  aget_norm. unfold reflected, floated. cbn [vx vy vz]. done.
Qed.

Lemma fireflies_update_body_other phases t i pos vel j :
  (j < i * 3 \/ i * 3 + 3 <= j)%nat ->
  aget (fst (update_body phases t i (pos, vel))) j = aget pos j /\
  aget (snd (update_body phases t i (pos, vel))) j = aget vel j.
Proof.
  intros Hj. unfold update_body. rewrite !if_insert. cbv zeta. cbn [fst snd].
  by aget_norm.
Qed.

Lemma fireflies_update_loop phases t pos0 vel0 n :
  (n * 3 <= length pos0)%nat -> (n * 3 <= length vel0)%nat ->
  update_inv phases t pos0 vel0 n (for_count n (update_body phases t) (pos0, vel0)).
Proof.
  intros Hp Hv. apply for_count_ind; [by repeat split; intros; lia|].
  intros i [pos vel] Hi (Lp & Lv & Hdone & Hrest). cbn [fst snd] in *.
  destruct (fireflies_update_body_length phases t i pos vel) as (Lp' & Lv').
  destruct (fireflies_update_body_at phases t i pos vel) as (Hpos & Hvel); [lia|lia|].
  unfold update_inv. rewrite Lp', Lv'. split; [done|]. split; [done|]. split.
  - intros k Hk. destruct (decide (k = i)) as [->|Hne].
    + cbv zeta in Hpos, Hvel.
      destruct Hpos as (-> & -> & ->), Hvel as (-> & -> & ->).
      unfold reflected, floated. cbn [vx vy vz].
      destruct (Hrest (i * 3)%nat) as [-> ->]; [lia|].
      destruct (Hrest (i * 3 + 1)%nat) as [-> ->]; [lia|].
      destruct (Hrest (i * 3 + 2)%nat) as [-> ->]; [lia|].
      done.
    + destruct (fireflies_update_body_other phases t i pos vel (k * 3)) as [-> ->]; [lia|].
      destruct (fireflies_update_body_other phases t i pos vel (k * 3 + 1)) as [-> ->]; [lia|].
      destruct (fireflies_update_body_other phases t i pos vel (k * 3 + 2)) as [-> ->]; [lia|].
      apply Hdone. lia.
  - intros j Hj.
    destruct (fireflies_update_body_other phases t i pos vel j) as [-> ->]; [lia|].
    apply Hrest. lia.
Qed.

Lemma fireflies_update_at dt s i :
  wf s -> (i < fireflyCount s)%nat ->
  let s' := update dt s in
  let t := time s + dt * speed s in
  (aget (attr_position s') (i * 3)
     = vx (floated (attr_phase s) t (attr_position s) (attr_velocity s) i) /\
   aget (attr_position s') (i * 3 + 1)
     = vy (floated (attr_phase s) t (attr_position s) (attr_velocity s) i) /\
   aget (attr_position s') (i * 3 + 2)
     = vz (floated (attr_phase s) t (attr_position s) (attr_velocity s) i)) /\
  (aget (attr_velocity s') (i * 3)
     = vx (reflected (attr_phase s) t (attr_position s) (attr_velocity s) i) /\
   aget (attr_velocity s') (i * 3 + 1)
     = vy (reflected (attr_phase s) t (attr_position s) (attr_velocity s) i) /\
   aget (attr_velocity s') (i * 3 + 2)
     = vz (reflected (attr_phase s) t (attr_position s) (attr_velocity s) i)).
Proof.
  intros (Lp & Lv & Lph) Hi. unfold update.
  pose proof (fireflies_update_loop (attr_phase s) (time s + dt * speed s) (attr_position s)
                (attr_velocity s) (fireflyCount s)) as L.
  destruct (for_count _ _ _) as [pos vel]. cbn.
  destruct L as (_ & _ & Hdone & _); [lia|lia|]. by apply Hdone.
Qed.

Lemma fireflies_update_wf dt s :
  wf s -> wf (update dt s) /\ fireflyCount (update dt s) = fireflyCount s.
Proof.
  intros (Lp & Lv & Lph). unfold update.
  pose proof (fireflies_update_loop (attr_phase s) (time s + dt * speed s) (attr_position s)
                (attr_velocity s) (fireflyCount s)) as L.
  destruct (for_count _ _ _) as [pos vel]. cbn.
  destruct L as (Lp' & Lv' & _); [lia|lia|]. unfold wf. cbn in *.
  repeat split; congruence.
Qed.

Lemma Rabs_le_iff a b : Rabs a <= b <-> - b <= a <= b.
Proof. unfold Rabs. destruct (Rcase_abs a); lra. Qed.

(** A frame moves the height of a particle down by at most 0.01 as long as
    its vertical speed is at most 0.005, and the speed keeps its size. *)
Lemma fireflies_update_height dt s i :
  wf s -> (i < fireflyCount s)%nat ->
  Rabs (aget (attr_velocity s) (i * 3 + 1)) <= 0.005 ->
  aget (attr_position s) (i * 3 + 1) - 0.01
    <= aget (attr_position (update dt s)) (i * 3 + 1) /\
  Rabs (aget (attr_velocity (update dt s)) (i * 3 + 1)) <= 0.005.
Proof.
  intros Hwf Hi Hv.
  destruct (fireflies_update_at dt s i Hwf Hi) as ((_ & -> & _) & (_ & -> & _)).
  unfold reflected, floated. cbn [vx vy vz].
  pose proof (COS_bound (((time s + dt * speed s) * 0.7) + aget (attr_phase s) i)) as C.
  apply Rabs_le_iff in Hv. split; [lra|].
  destruct (_ || _); apply Rabs_le_iff; lra.
Qed.

Lemma fireflies_run_height dts : forall s i,
  wf s -> (i < fireflyCount s)%nat ->
  Rabs (aget (attr_velocity s) (i * 3 + 1)) <= 0.005 ->
  aget (attr_position s) (i * 3 + 1) - 0.01 * INR (length dts)
    <= aget (attr_position (run dts s)) (i * 3 + 1).
Proof.
  induction dts as [|dt dts IH]; intros s i Hwf Hi Hv.
  - cbn. lra.
  - destruct (fireflies_update_height dt s i Hwf Hi Hv) as (Hy & Hv').
    destruct (fireflies_update_wf dt s Hwf) as (Hwf' & Hc).
    specialize (IH (update dt s) i Hwf' ltac:(lia) Hv').
    change (run (dt :: dts) s) with (run dts (update dt s)).
    rewrite length_cons, S_INR. lra.
Qed.

(** C2. The bounds are not an invariant of the 200-particle swarm.  The
    constructor draws a height in [2,17), the loop of [update] only
    negates the velocity of a particle that is outside [1,16] and never
    moves it back, so a particle whose height draw is 0.96 or more starts
    above 16 and is still above 16 after each of the next 30 frames,
    whatever the frame deltas are. *)
Theorem fireflies_particle_stays_out_of_bounds g i dts :
  (forall k, 0 <= draws g k < 1) ->
  (i < 200)%nat ->
  0.96 <= draws g (cursor g + 8 * i + 1) ->
  (length dts <= 30)%nat ->
  16 < aget (attr_position (run dts (fst (create g)))) (i * 3 + 1).
Proof.
  intros Hd Hi Hy Hn.
  destruct (create_at g i Hi) as (_ & Ey & _ & _ & _ & Ev & _).
  unfold created_position, created_velocity, draw in Ey, Ev. cbn [vx vy vz] in Ey, Ev.
  pose proof (create_wf g) as Hwf.
  assert (Hc : fireflyCount (fst (create g)) = 200%nat).
  { unfold create. by destruct (for_count _ _ _) as [[[[? ?] ?] ?] ?]. }
  pose proof (fireflies_run_height dts (fst (create g)) i Hwf ltac:(lia)) as H.
  rewrite Ey, Ev in H.
  pose proof (Hd (cursor g + 8 * i + 6)%nat) as H6.
  assert (Hlen : INR (length dts) <= 30).
  { apply le_INR in Hn. rewrite (INR_IZR_INZ 30) in Hn. exact Hn. }
  specialize (H ltac:(apply Rabs_le_iff; lra)). lra.
Qed.

Lemma fireflies_particle_stays_out_of_bounds_witness :
  16 < aget (attr_position
               (run [0.016; 0.016] (fst (create (constant_source 0.97))))) (0 * 3 + 1).
Proof.
  apply (fireflies_particle_stays_out_of_bounds (constant_source 0.97) 0
           [0.016; 0.016]).
  - intros k. cbn. lra.
  - lia.
  - cbn. lra.
  - cbn. lia.
Defined.

(** C4, as stated, fails: with a frame delta of 0 the rule "velocity times
    dt" would leave only the wandering offset, but the particle still
    advances by its whole velocity. *)
Lemma fireflies_velocity_not_scaled_by_dt :
  ~ integrates_velocity_times_dt 0 (fst (create (constant_source 0.75))) 0.
Proof.
  unfold integrates_velocity_times_dt. cbv zeta.
  pose proof (create_wf (constant_source 0.75)) as Hwf.
  assert (Hc : (0 < fireflyCount (fst (create (constant_source 0.75))))%nat).
  { unfold create. destruct (for_count _ _ _) as [[[[? ?] ?] ?] ?]. cbn. lia. }
  destruct (fireflies_update_at 0 _ 0 Hwf Hc) as ((Ex & _) & _). cbv zeta in Ex.
  rewrite Ex. unfold floated. cbn [vx].
  destruct (create_at (constant_source 0.75) 0 ltac:(lia)) as (_ & _ & _ & _ & Ev & _).
  rewrite Ev. unfold created_velocity, draw. cbn [vx constant_source draws].
  replace (time (update 0 (fst (create (constant_source 0.75)))))
    with (time (fst (create (constant_source 0.75)))
          + 0 * speed (fst (create (constant_source 0.75)))).
  - lra.
  - unfold update. by destruct (for_count _ _ _).
Qed.

(** C9. The glow intensity set from the scroll progress is
    [max(0.2, 1 - 0.8 * progress)] (stored in the uniform and in the
    material opacity); on [0,1] it lies in [0.2, 1], and it never grows
    when the progress grows. *)
Theorem updateIntensity_dims p s :
  uniform_glowIntensity (updateIntensity p s) = Rmax 0.2 (1 - 0.8 * p) /\
  material_opacity (updateIntensity p s) = Rmax 0.2 (1 - 0.8 * p) /\
  (0 <= p <= 1 -> 0.2 <= uniform_glowIntensity (updateIntensity p s) <= 1) /\
  (forall q, p <= q ->
     uniform_glowIntensity (updateIntensity q s)
       <= uniform_glowIntensity (updateIntensity p s)).
Proof.
  cbn. unfold Math_max. rewrite (Rmult_comm p). repeat split.
  - unfold Rmax. destruct (Rle_dec _ _); lra.
  - unfold Rmax. destruct (Rle_dec _ _); lra.
  - intros q Hq. rewrite (Rmult_comm q). unfold Rmax.
    repeat destruct (Rle_dec _ _); lra.
Qed.

Lemma updateIntensity_dims_witness :
  0.2 <= uniform_glowIntensity
           (updateIntensity 0.5 (fst (create (constant_source 0.5)))) <= 1 /\
  uniform_glowIntensity (updateIntensity 0.75 (fst (create (constant_source 0.5))))
    <= uniform_glowIntensity (updateIntensity 0.5 (fst (create (constant_source 0.5)))).
Proof.
  pose proof (updateIntensity_dims 0.5 (fst (create (constant_source 0.5))))
    as (_ & _ & Hrange & Hmono).
  split; [apply Hrange; lra | apply Hmono; lra].
Defined.

End Swarm200.

(** ** The video trigger of [ScrollAnimations] *)

Section VideoTrigger.
Import ScrollAnimations.

Lemma pending_app ts t w' :
  timers w' = ts ++ [t] ->
  pendingRedirects w' =
    (length (filter (fun t => is_redirect t = true) ts)
     + (if is_redirect t then 1 else 0))%nat.
Proof.
  intros E. unfold pendingRedirects. rewrite E, filter_app, length_app.
  f_equal. rewrite filter_cons. destruct (is_redirect t); case_decide; done.
Qed.

Lemma pending_delete (ts : list (R * Callback)) k t :
  ts !! k = Some t ->
  (length (filter (fun t => is_redirect t = true) (delete k ts))
   + (if is_redirect t then 1 else 0))%nat
  = length (filter (fun t => is_redirect t = true) ts).
Proof.
  revert k. induction ts as [|a ts IH]; intros [|k] E; simplify_eq/=.
  - rewrite filter_cons. destruct (is_redirect t); case_decide; simpl; try done; lia.
  - rewrite !filter_cons. case_decide; simpl; rewrite <- (IH k E); lia.
Qed.

Lemma updateScene_flag p s : videoTriggered (updateScene p s) = videoTriggered s.
Proof. reflexivity. Qed.

Lemma redirect_counts w :
  redirects (redirectToVideoPage w) = S (redirects w) /\
  pendingRedirects (redirectToVideoPage w) = pendingRedirects w /\
  videoTriggered (self (redirectToVideoPage w)) = videoTriggered (self w).
Proof.
  repeat split; try reflexivity.
  rewrite (pending_app (timers w) (500, CallPlayVideo)) by reflexivity.
  unfold pendingRedirects. simpl. lia.
Qed.

(** [onUpdate] first refreshes the scene and the debug log, none of
    which touches the timers, the redirect count or the flag, and then
    runs the guarded trigger. *)
Lemma onUpdate_shape p w :
  exists w1,
    timers w1 = timers w /\ redirects w1 = redirects w /\
    videoTriggered (self w1) = videoTriggered (self w) /\
    onUpdate p w =
      if num_ge p 0.95 && negb (videoTriggered (self w1)) then
        setTimeout CallRedirectToVideoPage 100
          (log LogReached95 (set_self (set_videoTriggered true (self w1)) w1))
      else w1.
Proof.
  unfold onUpdate.
  match goal with |- context [Z.eqb ?a ?b] => destruct (Z.eqb a b) end;
    cbn [negb]; eexists; (split; [|split; [|split; [|reflexivity]]]); reflexivity.
Qed.

Lemma onUpdate_guarded p w : guarded w -> guarded (onUpdate p w).
Proof.
  unfold guarded, redirectsEmitted. intros G.
  destruct (onUpdate_shape p w) as (w1 & Et & Er & Ev & ->).
  assert (G1 : (redirects w1 + pendingRedirects w1)%nat
               = (if videoTriggered (self w1) then 1 else 0)%nat).
  { unfold pendingRedirects in *. by rewrite Et, Er, Ev. }
  destruct (num_ge p 0.95); cbn [andb]; [|exact G1].
  destruct (videoTriggered (self w1)) eqn:E1; cbn [negb andb]; [by rewrite E1|].
  rewrite (pending_app (timers w1) (100, CallRedirectToVideoPage)) by reflexivity.
  unfold pendingRedirects in G1. cbn. lia.
Qed.

Lemma onComplete_guarded w : guarded w -> guarded (onComplete w).
Proof.
  unfold guarded, redirectsEmitted, onComplete. intros G.
  destruct (videoTriggered (self w)) eqn:Ev; cbn [negb]; [by rewrite Ev|].
  destruct (redirect_counts (set_self (set_videoTriggered true (self w)) w))
    as (-> & -> & ->).
  cbn. unfold pendingRedirects in *. cbn in *. lia.
Qed.

Lemma fire_guarded k w : guarded w -> guarded (fire k w).
Proof.
  unfold guarded, redirectsEmitted, fire. intros G.
  destruct (timers w !! k) as [[d cb]|] eqn:E; [|exact G].
  pose proof (pending_delete _ _ _ E) as D.
  unfold pendingRedirects in G. destruct cb.
  - match goal with |- context [redirectToVideoPage ?v] =>
      destruct (redirect_counts v) as (-> & -> & ->) end.
    unfold pendingRedirects. cbn in *. lia.
  - unfold pendingRedirects. cbn in *. lia.
Qed.

Lemma step_guarded w e : guarded w -> guarded (step w e).
Proof.
  destruct e; simpl; auto using onUpdate_guarded, onComplete_guarded, fire_guarded.
Qed.

Lemma run_guarded es w : guarded w -> guarded (run es w).
Proof.
  revert w. induction es as [|e es IH]; intros w G; [exact G|].
  apply IH, step_guarded, G.
Qed.

Lemma init_guarded ff am fog canvas : guarded (init ff am fog canvas).
Proof. reflexivity. Qed.

(** Once set, the flag stays set: nothing in the class clears it. *)
Lemma step_flag_stable w e :
  videoTriggered (self w) = true -> videoTriggered (self (step w e)) = true.
Proof.
  intros Ev. destruct e as [p| |k]; simpl.
  - destruct (onUpdate_shape p w) as (w1 & _ & _ & E1 & ->).
    rewrite E1, Ev, andb_false_r. congruence.
  - unfold onComplete. rewrite Ev. exact Ev.
  - unfold fire. destruct (timers w !! k) as [[d cb]|]; [|exact Ev].
    destruct cb; exact Ev.
Qed.

Lemma run_flag_stable es w :
  videoTriggered (self w) = true -> videoTriggered (self (run es w)) = true.
Proof.
  revert w. induction es as [|e es IH]; intros w Ev; [exact Ev|].
  apply IH, step_flag_stable, Ev.
Qed.

Lemma onUpdate_sets_flag p w :
  p >= 0.95 -> videoTriggered (self (onUpdate p w)) = true.
Proof.
  intros Hp. destruct (onUpdate_shape p w) as (w1 & _ & _ & _ & ->).
  apply num_ge_true in Hp. rewrite Hp.
  destruct (videoTriggered (self w1)) eqn:E1; cbn; done.
Qed.

Lemma onComplete_sets_flag w : videoTriggered (self (onComplete w)) = true.
Proof.
  unfold onComplete. destruct (videoTriggered (self w)) eqn:Ev; cbn; done.
Qed.

Lemma run_reaches_flag es w :
  (exists p, In (ScrollUpdate p) es /\ p >= 0.95) ->
  videoTriggered (self (run es w)) = true.
Proof.
  revert w. induction es as [|e es IH]; intros w (p & Hin & Hp); [destruct Hin|].
  destruct Hin as [->|Hin].
  - apply (run_flag_stable es). simpl. by apply onUpdate_sets_flag.
  - apply IH. eauto.
Qed.

Lemma init_redirects ff am fog canvas es :
  redirectsEmitted (run es (init ff am fog canvas))
    = (if videoTriggered (self (run es (init ff am fog canvas))) then 1 else 0)%nat.
Proof. apply run_guarded, init_guarded. Qed.

(** Without any assumption on the scroll: the redirect is never asked
    for twice. *)
Lemma video_trigger_at_most_once ff am fog canvas es :
  (redirectsEmitted (run es (init ff am fog canvas)) <= 1)%nat.
Proof. rewrite init_redirects. destruct (videoTriggered _); lia. Qed.

End VideoTrigger.

(** ** What one frame adds to a position *)

Section Integration.

Lemma firefly_update_time g s :
  Fireflies.time (fst (Fireflies.update g s)) = Fireflies.time s + 0.016.
Proof. unfold Fireflies.update. by destruct (for_count _ _ _) as [[? ?] ?]. Qed.

Lemma fireflies_update_time dt s :
  FirefliesSystem.time (FirefliesSystem.update dt s)
    = FirefliesSystem.time s + dt * FirefliesSystem.speed s.
Proof. unfold FirefliesSystem.update. by destruct (for_count _ _ _). Qed.

(** C4, amended. One call of the swarm update adds to every coordinate the
    velocity itself, not scaled by the frame delta, and a wandering offset
    built from sin/cos of the accumulated time and the particle's phase.
    The 50-particle swarm has no frame-delta input, advances its time by
    0.016 per call and then applies its boundary tests; the 200-particle
    swarm advances its time by [deltaTime * speed], which is the only use
    of the frame delta. *)
Theorem swarm_update_adds_unscaled_velocity g s1 i dt s2 j :
  Fireflies.wf s1 -> (i < Fireflies.count s1)%nat ->
  FirefliesSystem.wf s2 -> (j < FirefliesSystem.fireflyCount s2)%nat ->
  (let s' := fst (Fireflies.update g s1) in
   let pos := Fireflies.positions s1 in
   let vel := Fireflies.velocities s1 in
   let phase := aget (Fireflies.phases s1) i + Fireflies.time s' * 0.5 in
   Fireflies.time s' = Fireflies.time s1 + 0.016 /\
   aget (Fireflies.positions s') (i * 3)
     = Fireflies.wrap_horizontal
         (aget pos (i * 3) + aget vel (i * 3) + cos (phase * 0.7) * 0.002) /\
   aget (Fireflies.positions s') (i * 3 + 1)
     = Fireflies.wrap_vertical
         (aget pos (i * 3 + 1) + aget vel (i * 3 + 1) + sin phase * 0.003) /\
   aget (Fireflies.positions s') (i * 3 + 2)
     = Fireflies.wrap_horizontal
         (aget pos (i * 3 + 2) + aget vel (i * 3 + 2) + sin (phase * 0.3) * 0.002)) /\
  (let s' := FirefliesSystem.update dt s2 in
   let pos := FirefliesSystem.attr_position s2 in
   let vel := FirefliesSystem.attr_velocity s2 in
   let phase := aget (FirefliesSystem.attr_phase s2) j in
   let t := FirefliesSystem.time s' in
   t = FirefliesSystem.time s2 + dt * FirefliesSystem.speed s2 /\
   aget (FirefliesSystem.attr_position s') (j * 3)
     = aget pos (j * 3) + (aget vel (j * 3) + sin (t + phase) * 0.01) /\
   aget (FirefliesSystem.attr_position s') (j * 3 + 1)
     = aget pos (j * 3 + 1) + (aget vel (j * 3 + 1) + cos (t * 0.7 + phase) * 0.005) /\
   aget (FirefliesSystem.attr_position s') (j * 3 + 2)
     = aget pos (j * 3 + 2) + (aget vel (j * 3 + 2) + sin (t * 0.8 + phase) * 0.01)).
Proof.
  intros Hwf1 Hi Hwf2 Hj. split; cbv zeta.
  - rewrite firefly_update_time. split; [done|].
    apply (firefly_update_moves g s1 i Hwf1 Hi).
  - rewrite fireflies_update_time. split; [done|].
    apply (fireflies_update_at dt s2 j Hwf2 Hj).
Qed.

Lemma swarm_update_adds_unscaled_velocity_witness :
  Fireflies.time (fst (Fireflies.update (FirefliesSystem.constant_source 0.5)
                         Fireflies.small_swarm))
    = Fireflies.time Fireflies.small_swarm + 0.016 /\
  FirefliesSystem.time
    (FirefliesSystem.update 0.016
       (fst (FirefliesSystem.create (FirefliesSystem.constant_source 0.75))))
    = FirefliesSystem.time
        (fst (FirefliesSystem.create (FirefliesSystem.constant_source 0.75)))
      + 0.016 * FirefliesSystem.speed
                  (fst (FirefliesSystem.create (FirefliesSystem.constant_source 0.75))).
Proof.
  destruct (swarm_update_adds_unscaled_velocity
              (FirefliesSystem.constant_source 0.5) Fireflies.small_swarm 1
              0.016 (fst (FirefliesSystem.create (FirefliesSystem.constant_source 0.75)))
              0) as ((T1 & _) & (T2 & _)).
  - exact small_swarm_wf.
  - cbn. lia.
  - apply create_wf.
  - unfold FirefliesSystem.create. destruct (for_count _ _ _) as [[[[? ?] ?] ?] ?].
    cbn. lia.
  - split; [exact T1 | exact T2].
Defined.

End Integration.

(** ** Progress outside [0,1] *)

Section OutOfRange.
Import ScrollAnimations.

Lemma clamp01_above p : 1 < p -> clamp01 p = 1.
Proof.
  intros H. unfold clamp01, Math_max, Math_min, Rmax, Rmin.
  repeat destruct (Rle_dec _ _); lra.
Qed.

Lemma clamp01_below p : p < 0 -> clamp01 p = 0.
Proof.
  intros H. unfold clamp01, Math_max, Math_min, Rmax, Rmin.
  repeat destruct (Rle_dec _ _); lra.
Qed.

(** C7, as stated, fails: a progress of 2 sets the fog to near = -10,
    far = 100, the clamped progress 1 sets it to near = 20, far = 150. *)
Lemma updateScene_does_not_clamp :
  updateScene 2 (self fresh_world) <> updateScene (clamp01 2) (self fresh_world).
Proof.
  rewrite clamp01_above by lra. intros E.
  apply (f_equal scene_fog) in E. cbn in E. injection E as E1 E2. lra.
Qed.

(** C7, amended. No handler clamps its progress, and none can fail.  For
    a progress below 0 or above 1 the swarm's scroll handler chooses its
    branch by comparisons only and so leaves the state it leaves for the
    clamped value; the scene update computes the fog from the raw value,
    near = 50 - 30 p and far = 200 - 50 p, and the glow as
    max(0.2, 1 - 0.8 p), which equals the clamped result above 1 and
    exceeds it below 0. *)
Theorem out_of_range_progress_is_not_clamped p :
  p < 0 \/ 1 < p ->
  (forall s, Fireflies.setScrollProgress p s
             = Fireflies.setScrollProgress (clamp01 p) s) /\
  (forall s f, scene_fog s = Some f ->
     scene_fog (updateScene p s) = Some (mkFog (50 - p * 30) (200 - p * 50))) /\
  (forall s, scene_fog s = None -> scene_fog (updateScene p s) = None) /\
  (forall s, FirefliesSystem.uniform_glowIntensity (firefliesSystem (updateScene p s))
             = Rmax 0.2 (1 - p * 0.8)) /\
  (forall s, assetManager (updateScene p s)
             = assetManager (updateScene (clamp01 p) s)) /\
  (1 < p -> forall s, firefliesSystem (updateScene p s)
                      = firefliesSystem (updateScene (clamp01 p) s)) /\
  (p < 0 -> forall s,
     FirefliesSystem.uniform_glowIntensity (firefliesSystem (updateScene p s))
     > FirefliesSystem.uniform_glowIntensity
         (firefliesSystem (updateScene (clamp01 p) s))).
Proof.
  intros Hp. repeat split.
  - intros s. unfold Fireflies.setScrollProgress. destruct Hp as [Hp|Hp].
    + rewrite clamp01_below by done.
      assert (H1 : num_lt p 0.3 = true) by (apply num_lt_true; lra).
      assert (H2 : num_lt 0 0.3 = true) by (apply num_lt_true; lra).
      by rewrite H1, H2.
    + rewrite clamp01_above by done.
      assert (H1 : num_lt p 0.3 = false) by (apply num_lt_false; lra).
      assert (H2 : num_lt p 0.6 = false) by (apply num_lt_false; lra).
      assert (H3 : num_lt 1 0.3 = false) by (apply num_lt_false; lra).
      assert (H4 : num_lt 1 0.6 = false) by (apply num_lt_false; lra).
      by rewrite H1, H2, H3, H4.
  - intros s f E. unfold updateScene. cbn. by rewrite E.
  - intros s E. unfold updateScene. cbn. by rewrite E.
  - intros H1 s. rewrite clamp01_above by done. cbn.
    unfold FirefliesSystem.updateIntensity, Math_max, Rmax.
    repeat destruct (Rle_dec _ _); try lra; f_equal; lra.
  - intros H0 s. rewrite clamp01_below by done. cbn.
    unfold Math_max, Rmax. repeat destruct (Rle_dec _ _); lra.
Qed.

Lemma out_of_range_progress_is_not_clamped_witness :
  scene_fog (updateScene 2 (self fresh_world)) = Some (mkFog (50 - 2 * 30) (200 - 2 * 50))
  /\ firefliesSystem (updateScene 2 (self fresh_world))
      = firefliesSystem (updateScene (clamp01 2) (self fresh_world)).
Proof.
  destruct (out_of_range_progress_is_not_clamped 2) as (_ & F & _ & _ & _ & G & _).
  - right. lra.
  - split; [by apply (F _ (mkFog 20 80)) | apply G; lra].
Defined.

End OutOfRange.

(** ** Repeating the scroll handler of src/animations.js *)

Section Repetition.
Import Animations.

(** C3, as stated, fails: in the orange section a second call with the
    same progress turns the orange by another 0.01 and pulls the swarm a
    second time. *)
Lemma handleScrollProgress_accumulates :
  let w1 := handleScrollProgress 0 0.45 orange_scene in
  let w2 := handleScrollProgress 0 0.45 w1 in
  orangeModel (anim w2) <> orangeModel (anim w1) /\
  (Fireflies.velocities <$> fireflies w2) <> (Fireflies.velocities <$> fireflies w1).
Proof.
  cbv zeta. split.
  - unfold handleScrollProgress, updateModelVisibility, adjustLighting, orange_scene.
    cbn [anim orangeModel logoModel forestModel visible rotation set_rotation
         set_visible vx vy vz camera currentProgress isAnimating].
    intros E. injection E as E. lra.
  - cbn [handleScrollProgress fireflies orange_scene fmap option_fmap option_map].
    rewrite !setScrollProgress_orange by lra.
    intros E.
    apply (f_equal (fun o => match o with Some l => aget l (0 * 3) | None => 0 end))
      in E.
    cbv beta iota in E.
    destruct (attract_again 2 0 (-3) 0.001 1.0 0.9 Fireflies.small_swarm 0
                small_swarm_wf ltac:(apply Nat.lt_0_succ)) as (E1 & E2).
    rewrite velocities_set_material in E.
    rewrite E2, E1 in E. revert E.
    change (aget (Fireflies.positions Fireflies.small_swarm) (0 * 3)) with 1.
    change (aget (Fireflies.velocities Fireflies.small_swarm) (0 * 3)) with 0.01.
    rewrite (limit_velocity_id (0.01 + (2 - 1) * 0.001)) by lra.
    rewrite limit_velocity_id by lra. lra.
Qed.

Lemma setScrollProgress_free_twice p s :
  p < 0.3 \/ 0.6 <= p ->
  Fireflies.setScrollProgress p (Fireflies.setScrollProgress p s)
    = Fireflies.setScrollProgress p s.
Proof.
  intros [Hlo|Hhi]; unfold Fireflies.setScrollProgress.
  - apply num_lt_true in Hlo. by rewrite Hlo.
  - assert (H3 : 0.3 <= p) by lra.
    apply num_lt_false in H3, Hhi. by rewrite H3, Hhi.
Qed.

(** C3, amended. A second call of the scroll handler with the same
    progress leaves the camera as it was (the handler never writes the
    camera) and the visibility of the forest as the first call set it,
    and, for a progress outside 0.3 <= p < 0.6, the swarm as the first
    call left it.  It does not leave the rotations: each call adds 0.01 to
    the y rotation of a visible orange and 0.02 to that of a visible logo,
    whose x rotation follows the clock.  Inside 0.3 <= p < 0.6 each call
    runs one more attraction step on the velocities. *)
Theorem handleScrollProgress_repeated now1 now2 p w :
  let w1 := handleScrollProgress now1 p w in
  let w2 := handleScrollProgress now2 p w1 in
  (camera (anim w2) = camera (anim w1) /\ camera (anim w1) = camera (anim w)) /\
  (visible <$> forestModel (anim w2)) = (visible <$> forestModel (anim w1)) /\
  (forall m1, orangeModel (anim w1) = Some m1 -> visible m1 = true ->
     exists m2, orangeModel (anim w2) = Some m2 /\
                vy (rotation m2) = vy (rotation m1) + 0.01) /\
  (forall m1, logoModel (anim w1) = Some m1 -> visible m1 = true ->
     exists m2, logoModel (anim w2) = Some m2 /\
                vy (rotation m2) = vy (rotation m1) + 0.02 /\
                vx (rotation m2) = sin (now2 * 0.001) * 0.1) /\
  (p < 0.3 \/ 0.6 <= p -> fireflies w2 = fireflies w1) /\
  (0.3 <= p < 0.6 -> forall f1, fireflies w1 = Some f1 ->
     exists f2, fireflies w2 = Some f2 /\
                Fireflies.velocities f2
                  = Fireflies.velocities (Fireflies.attractToPoint 2 0 (-3) 0.001 f1)).
Proof.
  cbv zeta. split; [split; reflexivity|]. split.
  { unfold handleScrollProgress, updateModelVisibility, adjustLighting.
    cbn [anim forestModel]. by destruct (forestModel (anim w)). }
  split.
  { intros m1 E V. unfold handleScrollProgress at 1.
    unfold updateModelVisibility, adjustLighting. cbn [anim orangeModel].
    rewrite E, V. eexists. split; [reflexivity|]. reflexivity. }
  split.
  { intros m1 E V. unfold handleScrollProgress at 1.
    unfold updateModelVisibility, adjustLighting. cbn [anim logoModel].
    rewrite E, V. eexists. split; [reflexivity|]. split; reflexivity. }
  split.
  { intros Hp. cbn [handleScrollProgress fireflies].
    destruct (fireflies w) as [f|]; [|reflexivity].
    by rewrite setScrollProgress_free_twice. }
  intros Hp f1 E. cbn [handleScrollProgress fireflies] in *.
  destruct (fireflies w) as [f|]; [|discriminate]. injection E as <-.
  eexists. split; [reflexivity|].
  by rewrite (setScrollProgress_orange p _ Hp).
Qed.

Lemma handleScrollProgress_repeated_witness :
  exists m2,
    orangeModel (anim (handleScrollProgress 1000 0.45
                         (handleScrollProgress 0 0.45 orange_scene))) = Some m2 /\
    vy (rotation m2) = 0 + 0.01 + 0.01.
Proof.
  destruct (handleScrollProgress_repeated 0 1000 0.45 orange_scene)
    as (_ & _ & O & _).
  destruct (O (mkObject3D true (mkVec3 2 0 0) (mkVec3 0 (0 + 0.01) 0) (mkVec3 1 1 1))
              eq_refl eq_refl) as (m2 & E & R).
  exists m2. split; [exact E | exact R].
Defined.

End Repetition.

(** ** The pulsing opacity of the 50-particle swarm *)

Section Pulse.
Import Fireflies.

Lemma PI_bounds : 3 < PI <= 52 / 15.
Proof.
  split; [pose proof PI2_3_2; lra|].
  pose proof (PI_ineq 1) as [_ H]. unfold tg_alt, PI_tg in H. simpl in H. lra.
Qed.

Lemma sqrt3_lower : 3 / 2 < sqrt 3.
Proof.
  rewrite <- (sqrt_square (3 / 2)) by lra.
  apply sqrt_lt_1_alt. lra.
Qed.

(** Near 3 PI / 2 the sine is below -3/4. *)
Lemma sin_near_trough x :
  Rabs (x - 3 * (PI / 2)) <= 1 / 2 -> sin x < - (3 / 4).
Proof.
  intros Hx. pose proof PI_bounds as [Hlo Hhi].
  replace x with (3 * (PI / 2) + (x - 3 * (PI / 2))) by lra.
  rewrite sin_plus, sin_3PI2, cos_3PI2.
  set (z := x - 3 * (PI / 2)) in *.
  assert (Hc : cos (PI / 6) <= cos (Rabs z)).
  { pose proof (Rabs_pos z). apply cos_decr_1; lra. }
  assert (Hz : cos (Rabs z) = cos z).
  { unfold Rabs. destruct (Rcase_abs z); [apply cos_neg | reflexivity]. }
  rewrite cos_PI6 in Hc. pose proof sqrt3_lower. lra.
Qed.

Lemma sin_4_704 : sin (2.352 * 2) < - (3 / 4).
Proof.
  apply sin_near_trough. pose proof PI_bounds as [Hlo Hhi].
  unfold Rabs. destruct (Rcase_abs _); lra.
Qed.

Lemma firefly_update_opacity g s :
  material_opacity (fst (update g s)) = 0.3 + 0.4 * sin ((time s + 0.016) * 2).
Proof. unfold update. by destruct (for_count _ _ _) as [[? ?] ?]. Qed.

Lemma update_n_S n g s :
  fst (update_n (S n) g s)
    = fst (update (snd (update_n n g s)) (fst (update_n n g s))).
Proof. simpl. by destruct (update_n n g s). Qed.

Lemma update_n_time n g s :
  time (fst (update_n n g s)) = time s + INR n * 0.016.
Proof.
  induction n as [|n IH].
  - simpl. lra.
  - rewrite update_n_S, firefly_update_time, IH, S_INR. lra.
Qed.

Lemma setScrollProgress_time p s : time (setScrollProgress p s) = time s.
Proof.
  unfold setScrollProgress.
  destruct (num_lt p 0.3); [|destruct (num_lt p 0.6)]; reflexivity.
Qed.

(** C10. Every swarm update assigns the material opacity
    0.3 + 0.4 * sin(2 * time), with the time already advanced by that
    update.  The value ranges over [-0.1, 0.7] and reaches both ends, so
    it is negative for some times: for one, on the 147th frame of a swarm
    started at time 0.  The assignment does not depend on the opacity the
    scroll handler wrote before the update. *)
Theorem update_pulse_opacity :
  (forall g s,
     material_opacity (fst (update g s)) = 0.3 + 0.4 * sin (2 * (time s + 0.016))) /\
  (forall g s, -0.1 <= material_opacity (fst (update g s)) <= 0.7) /\
  (exists t, 0.3 + 0.4 * sin (2 * t) = -0.1) /\
  (exists t, 0.3 + 0.4 * sin (2 * t) = 0.7) /\
  (forall g s, time s = 0 -> material_opacity (fst (update_n 147 g s)) < 0) /\
  (forall p g s,
     material_opacity (fst (update g (setScrollProgress p s)))
       = 0.3 + 0.4 * sin (2 * (time s + 0.016))).
Proof.
  split; [|split; [|split; [|split; [|split]]]].
  - intros g s. rewrite firefly_update_opacity.
    by rewrite (Rmult_comm (time s + 0.016) 2).
  - intros g s. rewrite firefly_update_opacity.
    pose proof (SIN_bound ((time s + 0.016) * 2)). lra.
  - exists (3 * (PI / 4)).
    replace (2 * (3 * (PI / 4))) with (3 * (PI / 2)) by lra.
    rewrite sin_3PI2. lra.
  - exists (PI / 4). replace (2 * (PI / 4)) with (PI / 2) by lra.
    rewrite sin_PI2. lra.
  - intros g s Ht. rewrite update_n_S, firefly_update_opacity, update_n_time, Ht.
    rewrite INR_IZR_INZ. change (Z.of_nat 146) with 146%Z.
    replace ((0 + 146 * 0.016 + 0.016) * 2) with (2.352 * 2) by lra.
    pose proof sin_4_704. lra.
  - intros p g s. rewrite firefly_update_opacity, setScrollProgress_time.
    by rewrite (Rmult_comm (time s + 0.016) 2).
Qed.

Lemma update_pulse_opacity_witness :
  material_opacity
    (fst (update_n 147 (FirefliesSystem.constant_source 0.5) small_swarm)) < 0.
Proof.
  destruct update_pulse_opacity as (_ & _ & _ & _ & N & _).
  apply N. reflexivity.
Defined.

End Pulse.

(** * Further properties of the code *)

(** ** Narrowing to float32 *)

Section Float32Facts.
Import Float32.

Lemma Int_part_mono a b : a <= b -> (Int_part a <= Int_part b)%Z.
Proof.
  intros H. destruct (base_Int_part a) as [A1 A2], (base_Int_part b) as [B1 B2].
  apply Z.lt_succ_r, lt_IZR. rewrite succ_IZR. lra.
Qed.

Lemma Int_part_IZR z : Int_part (IZR z) = z.
Proof. symmetry. apply Int_part_spec. lra. Qed.

Lemma nearest_even_cases t :
  let f := Int_part t in nearest_even t = f \/ nearest_even t = (f + 1)%Z.
Proof.
  cbv zeta. unfold nearest_even.
  destruct (Rlt_dec _ _); [by left|]. destruct (Rlt_dec _ _); [by right|].
  destruct (Z.even _); [by left | by right].
Qed.

Lemma nearest_even_IZR z : nearest_even (IZR z) = z.
Proof.
  unfold nearest_even. rewrite Int_part_IZR.
  destruct (Rlt_dec _ _) as [|H]; [done|]. lra.
Qed.

Lemma nearest_even_mono a b : a <= b -> (nearest_even a <= nearest_even b)%Z.
Proof.
  intros H. pose proof (Int_part_mono a b H) as Hf.
  destruct (base_Int_part a) as [A1 A2], (base_Int_part b) as [B1 B2].
  destruct (Z.eq_dec (Int_part a) (Int_part b)) as [E|Hne].
  - unfold nearest_even. rewrite <- E.
    repeat match goal with
           | |- context [Rlt_dec ?u ?v] => destruct (Rlt_dec u v)
           end; try lia; try lra; destruct (Z.even _); lia.
  - destruct (nearest_even_cases a) as [-> | ->], (nearest_even_cases b) as [-> | ->];
      lia.
Qed.

Ltac pow2_norm :=
  repeat match goal with
         | |- context [powerRZ 2 ?z] =>
             let z' := eval vm_compute in z in
             progress change (powerRZ 2 z) with (powerRZ 2 z')
         end;
  cbn [powerRZ];
  repeat match goal with
         | |- context [Pos.to_nat ?p] =>
             let n := eval vm_compute in (Pos.to_nat p) in
             change (Pos.to_nat p) with n
         end;
  simpl pow.

Lemma pow2_pos k : 0 < powerRZ 2 k.
Proof. apply powerRZ_lt. lra. Qed.

Lemma ln2_pos : 0 < ln 2.
Proof. pose proof ln_lt_2. lra. Qed.

Lemma ln_pow2 k : ln (powerRZ 2 k) = IZR k * ln 2.
Proof. rewrite powerRZ_Rpower by lra. unfold Rpower. by rewrite ln_exp. Qed.

Lemma pow2_mono j k : (j <= k)%Z -> powerRZ 2 j <= powerRZ 2 k.
Proof.
  intros H. replace k with (j + (k - j))%Z by lia.
  rewrite powerRZ_add by lra. pose proof (pow2_pos j).
  assert (1 <= powerRZ 2 (k - j)).
  { destruct (k - j)%Z eqn:E; try lia; [cbn; lra|]. cbn. apply pow_R1_Rle. lra. }
  nra.
Qed.

Lemma ln_le x y : 0 < x -> x <= y -> ln x <= ln y.
Proof.
  intros Hx [H| ->]; [|lra]. left. by apply ln_increasing.
Qed.

Lemma ln_le_inv x y : 0 < x -> 0 < y -> ln x <= ln y -> x <= y.
Proof.
  intros Hx Hy [H|H]; [left; by apply ln_lt_inv | right; by apply ln_inv].
Qed.

(** The binade of a positive number. *)
Lemma log2_bounds x :
  0 < x ->
  let k := Int_part (ln x / ln 2) in
  powerRZ 2 k <= x < powerRZ 2 (k + 1).
Proof.
  intros Hx k. destruct (base_Int_part (ln x / ln 2)) as [B1 B2]. fold k in B1, B2.
  pose proof ln2_pos as L2.
  assert (E : ln x = ln x / ln 2 * ln 2) by (field; lra).
  split.
  - apply ln_le_inv; [apply pow2_pos | done |]. rewrite ln_pow2. nra.
  - apply ln_lt_inv; [done | apply pow2_pos |]. rewrite ln_pow2, plus_IZR. nra.
Qed.

Lemma log2_unique x k :
  0 < x -> powerRZ 2 k <= x < powerRZ 2 (k + 1) -> Int_part (ln x / ln 2) = k.
Proof.
  intros Hx [H1 H2]. symmetry. apply Int_part_spec. pose proof ln2_pos as L2.
  apply ln_le in H1; [|apply pow2_pos]. apply ln_increasing in H2; [|done].
  rewrite ln_pow2 in H1, H2. rewrite plus_IZR in H2.
  assert (E : ln x = ln x / ln 2 * ln 2) by (field; lra).
  split; nra.
Qed.

Lemma exponent_ge x : (-126 <= exponent x)%Z.
Proof. unfold exponent. lia. Qed.

Lemma exponent_upper x : 0 < x -> x < powerRZ 2 (exponent x + 1).
Proof.
  intros Hx. destruct (log2_bounds x Hx) as [_ H]. unfold exponent.
  eapply Rlt_le_trans; [exact H|]. apply pow2_mono. lia.
Qed.

Lemma exponent_lower x : 0 < x -> (-126 < exponent x)%Z -> powerRZ 2 (exponent x) <= x.
Proof.
  intros Hx He. destruct (log2_bounds x Hx) as [H _]. unfold exponent in *.
  by rewrite Z.max_r by lia.
Qed.

Lemma exponent_mono x y : 0 < x -> x <= y -> (exponent x <= exponent y)%Z.
Proof.
  intros Hx Hxy. unfold exponent. apply Z.max_le_compat_l, Int_part_mono.
  pose proof ln2_pos. pose proof (ln_le x y Hx Hxy).
  apply Rmult_le_compat_r; [left; by apply Rinv_0_lt_compat | done].
Qed.

Lemma exponent_eq x k :
  (-126 <= k)%Z -> powerRZ 2 k <= x < powerRZ 2 (k + 1) -> exponent x = k.
Proof.
  intros Hk H. unfold exponent. rewrite (log2_unique x k); [lia| |done].
  pose proof (pow2_pos k). lra.
Qed.

Lemma ulp_pos x : 0 < ulp x.
Proof. apply pow2_pos. Qed.

Lemma pow2_split e : powerRZ 2 (e + 1) = 16777216 * powerRZ 2 (e - 23).
Proof.
  replace (e + 1)%Z with (24 + (e - 23))%Z by lia. rewrite powerRZ_add by lra.
  f_equal. pow2_norm. lra.
Qed.

Lemma pow2_split' e : powerRZ 2 e = 8388608 * powerRZ 2 (e - 23).
Proof.
  replace e with (23 + (e - 23))%Z at 1 by lia. rewrite powerRZ_add by lra.
  f_equal. pow2_norm. lra.
Qed.

(** A positive number rounds into the closure of its binade. *)
Lemma fround_pos_upper x : 0 < x -> fround_pos x <= powerRZ 2 (exponent x + 1).
Proof.
  intros Hx. unfold fround_pos. pose proof (ulp_pos x) as U.
  pose proof (exponent_upper x Hx) as B. rewrite pow2_split in *. fold (ulp x) in *.
  assert (T : x / ulp x <= IZR 16777216).
  { apply Rmult_le_reg_r with (ulp x); [done|]. field_simplify; lra. }
  apply nearest_even_mono in T. rewrite nearest_even_IZR in T. apply IZR_le in T.
  nra.
Qed.

Lemma fround_pos_lower x :
  0 < x -> (-126 < exponent x)%Z -> powerRZ 2 (exponent x) <= fround_pos x.
Proof.
  intros Hx He. unfold fround_pos. pose proof (ulp_pos x) as U.
  pose proof (exponent_lower x Hx He) as B. rewrite pow2_split' in *. fold (ulp x) in *.
  assert (T : IZR 8388608 <= x / ulp x).
  { apply Rmult_le_reg_r with (ulp x); [done|]. field_simplify; lra. }
  apply nearest_even_mono in T. rewrite nearest_even_IZR in T. apply IZR_le in T.
  nra.
Qed.

Lemma fround_pos_nonneg x : 0 < x -> 0 <= fround_pos x.
Proof.
  intros Hx. unfold fround_pos. pose proof (ulp_pos x) as U.
  assert (T : IZR 0 <= x / ulp x).
  { apply Rmult_le_reg_r with (ulp x); [done|]. field_simplify; lra. }
  apply nearest_even_mono in T. rewrite nearest_even_IZR in T. apply IZR_le in T.
  nra.
Qed.

Lemma fround_pos_mono x y : 0 < x -> x <= y -> fround_pos x <= fround_pos y.
Proof.
  intros Hx Hxy. assert (Hy : 0 < y) by lra.
  pose proof (exponent_mono x y Hx Hxy) as He.
  destruct (Z.eq_dec (exponent x) (exponent y)) as [E|Hne].
  - unfold fround_pos, ulp. rewrite E. fold (ulp y). pose proof (ulp_pos y) as U.
    assert (T : x / ulp y <= y / ulp y).
    { apply Rmult_le_compat_r; [left; by apply Rinv_0_lt_compat | done]. }
    apply nearest_even_mono, IZR_le in T. nra.
  - pose proof (fround_pos_upper x Hx). pose proof (exponent_ge x).
    pose proof (fround_pos_lower y Hy ltac:(lia)).
    pose proof (pow2_mono (exponent x + 1) (exponent y) ltac:(lia)). lra.
Qed.

(** Narrowing never reorders two numbers. *)
Lemma fround_mono x y : x <= y -> fround x <= fround y.
Proof.
  intros H. unfold fround.
  destruct (Rlt_dec 0 x), (Rlt_dec 0 y); try lra.
  - by apply fround_pos_mono.
  - destruct (Rlt_dec x 0).
    + pose proof (fround_pos_nonneg (- x)). pose proof (fround_pos_nonneg y). lra.
    + by apply fround_pos_nonneg.
  - destruct (Rlt_dec x 0), (Rlt_dec y 0); try lra.
    + pose proof (fround_pos_mono (- y) (- x)). lra.
    + pose proof (fround_pos_nonneg (- x)). lra.
Qed.

Lemma fround_opp x : fround (- x) = - fround x.
Proof.
  unfold fround.
  destruct (Rlt_dec 0 x), (Rlt_dec 0 (- x)), (Rlt_dec x 0), (Rlt_dec (- x) 0);
    try lra. by rewrite Ropp_involutive.
Qed.

(** The clamp constant as the array holds it: 0.05 is not a float32
    number, and its neighbour above is the nearer one. *)
Lemma fround_maxVel : fround 0.05 = maxVel32.
Proof.
  unfold fround. destruct (Rlt_dec 0 0.05) as [_|]; [|lra].
  assert (E : exponent 0.05 = (-5)%Z).
  { apply exponent_eq; [lia|]. pow2_norm. lra. }
  unfold fround_pos, ulp. rewrite E.
  assert (P : powerRZ 2 (-5 - 23) = / 268435456) by (pow2_norm; lra). rewrite P.
  assert (N : nearest_even (0.05 / / 268435456) = 13421773%Z).
  { unfold nearest_even.
    assert (F : Int_part (0.05 / / 268435456) = 13421772%Z).
    { symmetry. apply Int_part_spec. lra. }
    rewrite F. destruct (Rlt_dec _ _); [lra|]. destruct (Rlt_dec _ _); [done|lra]. }
  rewrite N. unfold maxVel32. lra.
Qed.

Lemma maxVel32_above : 0.05 < maxVel32.
Proof. unfold maxVel32. lra. Qed.

End Float32Facts.

(** ** [attractToPoint] as the typed array stores it *)

Section TypedAttraction.
Import Fireflies Float32 TypedFireflies.

Lemma typed_attract_body_length pos x y z k i vel :
  length (attract_body pos x y z k i vel) = length vel.
Proof. unfold attract_body. cbv zeta. by rewrite !length_insert. Qed.

Lemma typed_attract_body_at pos x y z k i vel :
  (i * 3 + 2 < length vel)%nat ->
  let vel' := attract_body pos x y z k i vel in
  aget vel' (i * 3) = stored (aget vel (i * 3) + (x - aget pos (i * 3)) * k) /\
  aget vel' (i * 3 + 1) = stored (aget vel (i * 3 + 1) + (y - aget pos (i * 3 + 1)) * k) /\
  aget vel' (i * 3 + 2) = stored (aget vel (i * 3 + 2) + (z - aget pos (i * 3 + 2)) * k).
Proof.
  intros Hlen. unfold attract_body, stored, limit_velocity. cbv zeta. aget_norm. done.
Qed.

Lemma typed_attract_body_other pos x y z k i vel j :
  (j < i * 3 \/ i * 3 + 3 <= j)%nat ->
  aget (attract_body pos x y z k i vel) j = aget vel j.
Proof. intros Hj. unfold attract_body. cbv zeta. by aget_norm. Qed.

Lemma typed_attract_loop pos x y z k vel0 n :
  (n * 3 <= length vel0)%nat ->
  attract_inv pos x y z k vel0 n (for_count n (attract_body pos x y z k) vel0).
Proof.
  intros Hn. apply (for_count_ind (attract_body pos x y z k) (attract_inv pos x y z k vel0)).
  { by repeat split; intros; lia. }
  intros i vel Hi (Lv & Hdone & Hrest). unfold attract_inv.
  destruct (typed_attract_body_at pos x y z k i vel) as (Ax & Ay & Az); [lia|].
  rewrite typed_attract_body_length. split; [done|]. split.
  - intros j Hj. destruct (decide (j = i)) as [->|Hne].
    + rewrite Ax, Ay, Az, !Hrest by lia. done.
    + rewrite !typed_attract_body_other by lia. apply Hdone. lia.
  - intros j Hj. rewrite typed_attract_body_other by lia. apply Hrest. lia.
Qed.

(** The velocity of every particle after [attractToPoint]. *)
Lemma typed_attractToPoint_at x y z k s i :
  wf s -> (i < count s)%nat ->
  let s' := attractToPoint x y z k s in
  aget (velocities s') (i * 3)
    = stored (aget (velocities s) (i * 3) + (x - aget (positions s) (i * 3)) * k) /\
  aget (velocities s') (i * 3 + 1)
    = stored (aget (velocities s) (i * 3 + 1)
              + (y - aget (positions s) (i * 3 + 1)) * k) /\
  aget (velocities s') (i * 3 + 2)
    = stored (aget (velocities s) (i * 3 + 2)
              + (z - aget (positions s) (i * 3 + 2)) * k).
Proof.
  intros (Lp & Lv & Lph) Hi. cbn.
  destruct (typed_attract_loop (positions s) x y z k (velocities s) (count s))
    as (_ & Hdone & _); [lia|]. by apply Hdone.
Qed.

Lemma typed_attractToPoint_wf x y z k s : wf s -> wf (attractToPoint x y z k s).
Proof.
  intros (Lp & Lv & Lph). unfold wf. cbn.
  destruct (typed_attract_loop (positions s) x y z k (velocities s) (count s))
    as (L & _ & _); [lia|]. repeat split; congruence.
Qed.

Lemma fround_minus_maxVel : fround (-0.05) = - maxVel32.
Proof.
  replace (-0.05) with (Ropp 0.05) by lra. by rewrite fround_opp, fround_maxVel.
Qed.

(** A stored component never leaves the narrowed clamp. *)
Lemma stored_range v : - maxVel32 <= stored v <= maxVel32.
Proof.
  unfold stored. destruct (limit_velocity_range (fround v)) as [L U].
  apply fround_mono in L, U. rewrite fround_minus_maxVel in L.
  rewrite fround_maxVel in U. lra.
Qed.

(** A sum of 0.05 or more is stored as the narrowed clamp, above 0.05. *)
Lemma stored_saturates v : 0.05 <= v -> stored v = maxVel32.
Proof.
  intros H. unfold stored. apply fround_mono in H. rewrite fround_maxVel in H.
  pose proof maxVel32_above as A.
  assert (E : limit_velocity (fround v) = 0.05).
  { unfold limit_velocity, Math_max, Math_min, Rmax, Rmin. cbv zeta.
    repeat destruct (Rle_dec _ _); lra. }
  rewrite E. apply fround_maxVel.
Qed.

Lemma stored_saturates_below v : v <= -0.05 -> stored v = - maxVel32.
Proof.
  intros H. unfold stored. apply fround_mono in H. rewrite fround_minus_maxVel in H.
  pose proof maxVel32_above as A.
  assert (E : limit_velocity (fround v) = -0.05).
  { unfold limit_velocity, Math_max, Math_min, Rmax, Rmin. cbv zeta.
    repeat destruct (Rle_dec _ _); lra. }
  rewrite E. apply fround_minus_maxVel.
Qed.

Lemma fast_particle_wf : wf fast_particle.
Proof. by repeat split. Qed.

(** C5, as stated, fails: the velocities live in a [Float32Array], and
    0.05 is not a float32 number.  A component that the clamp cuts to
    0.05 is stored as the float32 number next to it, 13421773 / 2^28,
    which lies above 0.05: here the x velocity 1 of a particle pulled
    towards (2, 0, -3). *)
Lemma attractToPoint_stores_above_clamp :
  let s' := attractToPoint 2 0 (-3) 0.001 fast_particle in
  aget (velocities s') (0 * 3) = maxVel32 /\
  ~ (-0.05 <= aget (velocities s') (0 * 3) <= 0.05).
Proof.
  cbv zeta.
  destruct (typed_attractToPoint_at 2 0 (-3) 0.001 fast_particle 0 fast_particle_wf
              ltac:(cbn; lia)) as (Ex & _ & _).
  cbv zeta in Ex. rewrite Ex.
  change (aget (velocities fast_particle) (0 * 3)) with 1.
  change (aget (positions fast_particle) (0 * 3)) with 0.
  rewrite stored_saturates by lra.
  split; [reflexivity|]. pose proof maxVel32_above. lra.
Qed.

(** C5, amended. [attractToPoint(x, y, z, strength)] adds
    [strength * (target - position)] to each velocity component of each
    particle, narrowing the sum to float32 on the way into the array, then
    clamps the component to [-0.05, 0.05] and narrows again.  Afterwards
    every component lies within the float32 image of the clamp, that is
    within 13421773 / 2^28 = 0.0500000007... of zero, whatever the
    velocity was before; the bound is reached, on either side, as soon as
    the sum leaves [-0.05, 0.05], and it lies above 0.05.  The positions
    are not written. *)
Theorem attractToPoint_adds_then_clamps x y z strength s i :
  wf s -> (i < count s)%nat ->
  let s' := attractToPoint x y z strength s in
  let after (j : nat) (target : R) :=
    fround (Math_max (-0.05)
              (Math_min 0.05
                 (fround (aget (velocities s) j
                          + strength * (target - aget (positions s) j))))) in
  let sum (j : nat) (target : R) :=
    aget (velocities s) j + strength * (target - aget (positions s) j) in
  let clamped (j : nat) (target : R) :=
    aget (velocities s') j = after j target /\
    - maxVel32 <= aget (velocities s') j <= maxVel32 /\
    (0.05 <= sum j target -> aget (velocities s') j = maxVel32) /\
    (sum j target <= -0.05 -> aget (velocities s') j = - maxVel32) in
  clamped (i * 3)%nat x /\ clamped (i * 3 + 1)%nat y /\ clamped (i * 3 + 2)%nat z /\
  0.05 < maxVel32 /\
  positions s' = positions s.
Proof.
  intros Hwf Hi. cbv zeta.
  destruct (typed_attractToPoint_at x y z strength s i Hwf Hi) as (Ex & Ey & Ez).
  cbv zeta in Ex, Ey, Ez. rewrite Ex, Ey, Ez. rewrite !(Rmult_comm strength).
  assert (C : forall v,
            stored v = fround (Math_max (-0.05) (Math_min 0.05 (fround v))) /\
            - maxVel32 <= stored v <= maxVel32 /\
            (0.05 <= v -> stored v = maxVel32) /\
            (v <= -0.05 -> stored v = - maxVel32)).
  { intros v. split.
    - unfold stored, limit_velocity. cbv zeta.
      replace (Ropp 0.05) with (-0.05) by lra. reflexivity.
    - split; [apply stored_range|].
      split; [apply stored_saturates | apply stored_saturates_below]. }
  split; [apply C|]. split; [apply C|]. split; [apply C|].
  split; [apply maxVel32_above | reflexivity].
Qed.

Lemma attractToPoint_adds_then_clamps_witness :
  aget (velocities (attractToPoint 2 0 (-3) 0.001 fast_particle)) (0 * 3 + 2)
  = - maxVel32.
Proof.
  destruct (attractToPoint_adds_then_clamps 2 0 (-3) 0.001 fast_particle 0
              fast_particle_wf ltac:(cbn; lia)) as (_ & _ & (_ & _ & _ & L) & _).
  apply L.
  change (aget (velocities fast_particle) (0 * 3 + 2)) with (-1).
  change (aget (positions fast_particle) (0 * 3 + 2)) with 0. lra.
Defined.

End TypedAttraction.

(** ** The life of the 50-particle swarm (src/fireflies.js) *)

Section FireflyLifeFacts.
Import Fireflies FireflyLife.

Lemma aget_insert_cases (l : list R) k v j :
  aget (<[k:=v]> l) j = aget l j \/ aget (<[k:=v]> l) j = v.
Proof.
  destruct (decide (k = j)) as [->|Hne]; [|left; by apply aget_insert_ne].
  destruct (decide (j < length l)%nat) as [Hlt|Hge].
  - right. by apply aget_insert_eq.
  - left. rewrite list_insert_ge; [done|lia].
Qed.

Lemma bounded_insert b (l : list R) k v :
  bounded b l -> Rabs v <= b -> bounded b (<[k:=v]> l).
Proof.
  intros Hl Hv j. destruct (aget_insert_cases l k v j) as [-> | ->]; [apply Hl|done].
Qed.

Lemma bounded_weaken b b' (l : list R) : b <= b' -> bounded b l -> bounded b' l.
Proof. intros Hb Hl j. specialize (Hl j). lra. Qed.

Lemma bounded_replicate n b : 0 <= b -> bounded b (replicate n 0).
Proof.
  intros Hb j. unfold aget. destruct (replicate n 0 !! j) as [x|] eqn:E; simpl.
  - apply lookup_replicate in E as [-> _]. rewrite Rabs_R0. done.
  - rewrite Rabs_R0. done.
Qed.

Lemma draws_Math_random g : draws (snd (Math_random g)) = draws g.
Proof. reflexivity. Qed.

(** *** The redraw of a velocity *)

Lemma resample_draws i vel g : draws (snd (resample i vel g)) = draws g.
Proof. unfold resample, Math_random. by destruct (num_lt _ _). Qed.

Lemma resample_bounded b i vel g :
  unit_draws g -> 0.01 <= b -> bounded b vel -> bounded b (fst (resample i vel g)).
Proof.
  intros Hd Hb Hv. unfold resample, Math_random. cbn [draws cursor].
  destruct (num_lt _ _); cbn [fst]; [|done].
  repeat apply bounded_insert; try done.
  - pose proof (Hd (S (cursor g))). apply Rabs_le_iff. lra.
  - pose proof (Hd (S (S (cursor g)))). apply Rabs_le_iff. lra.
  - pose proof (Hd (S (S (S (cursor g))))). apply Rabs_le_iff. lra.
Qed.

Lemma update_body_bounded b phases t i pos vel g :
  unit_draws g -> 0.01 <= b -> bounded b vel ->
  let st := update_body phases t i (pos, vel, g) in
  bounded b (snd (fst st)) /\ draws (snd st) = draws g.
Proof.
  intros Hd Hb Hv. rewrite firefly_update_body_stages. cbn [fst snd].
  split; [by apply resample_bounded | apply resample_draws].
Qed.

Lemma unit_draws_ext g g' : draws g' = draws g -> unit_draws g -> unit_draws g'.
Proof. intros E H k. rewrite E. apply H. Qed.

(** An update keeps every bound of at least 0.01 on the velocities: a
    velocity is either kept or redrawn within 0.01. *)
Lemma update_bounded b g s :
  unit_draws g -> 0.01 <= b -> bounded b (velocities s) ->
  bounded b (velocities (fst (update g s))) /\ unit_draws (snd (update g s)).
Proof.
  intros Hd Hb Hv. unfold update.
  pose proof (for_count_ind (update_body (phases s) (time s + 0.016))
                (fun _ st => bounded b (snd (fst st)) /\ draws (snd st) = draws g)
                (count s) (positions s, velocities s, g)) as L.
  destruct (for_count _ _ _) as [[pos vel] g']. cbn [fst snd velocities].
  destruct L as (Hv' & Hd'); [by split| |split; [done|by apply (unit_draws_ext g)]].
  intros i [[p v] g1] _ (Hv1 & Hd1). cbn [fst snd] in *.
  destruct (update_body_bounded b (phases s) (time s + 0.016) i p v g1)
    as (H1 & H2); [by apply (unit_draws_ext g)|done|done|].
  split; [exact H1 | congruence].
Qed.

(** *** The constructor *)

Lemma in_box_insert_other (pos : list R) k v i :
  (k < i * 3 \/ i * 3 + 3 <= k)%nat -> in_box pos i -> in_box (<[k:=v]> pos) i.
Proof. intros Hk H. unfold in_box in *. by aget_norm. Qed.

Lemma geometry_body_spec i pos g :
  unit_draws g -> (i * 3 + 2 < length pos)%nat ->
  let st := geometry_body i (pos, g) in
  length (fst st) = length pos /\ draws (snd st) = draws g /\
  cursor (snd st) = (cursor g + 3)%nat /\
  in_box (fst st) i /\
  (forall k, k <> i -> in_box pos k -> in_box (fst st) k).
Proof.
  intros Hd Hlen. unfold geometry_body, Math_random. cbn [fst snd draws cursor].
  rewrite !length_insert. split; [done|]. split; [done|]. split; [lia|]. split.
  - unfold in_box. aget_norm.
    pose proof (Hd (cursor g)). pose proof (Hd (S (cursor g))).
    pose proof (Hd (S (S (cursor g)))). lra.
  - intros k Hk H. repeat apply in_box_insert_other; try done; lia.
Qed.

Lemma geometry_loop count g :
  unit_draws g ->
  let st := for_count count geometry_body (replicate (count * 3) 0, g) in
  length (fst st) = (count * 3)%nat /\ draws (snd st) = draws g /\
  cursor (snd st) = (cursor g + 3 * count)%nat /\
  forall i, (i < count)%nat -> in_box (fst st) i.
Proof.
  intros Hd. cbv zeta.
  pose proof (for_count_ind geometry_body
                (fun n st => length (fst st) = (count * 3)%nat /\
                             draws (snd st) = draws g /\
                             cursor (snd st) = (cursor g + 3 * n)%nat /\
                             forall i, (i < n)%nat -> in_box (fst st) i)
                count (replicate (count * 3) 0, g)) as L.
  apply L; clear L.
  - cbn [fst snd]. rewrite length_replicate. repeat split; try done; try lia.
    all: intros; lia.
  - intros i [pos g1] Hi (Lp & Ed & Ec & Hdone). cbn [fst snd] in *.
    destruct (geometry_body_spec i pos g1) as (L1 & D1 & C1 & B1 & O1);
      [by apply (unit_draws_ext g)|lia|].
    split; [congruence|]. split; [congruence|]. split; [lia|].
    intros k Hk. destruct (decide (k = i)) as [->|Hne]; [done|].
    apply O1; [done|]. apply Hdone. lia.
Qed.

Lemma particle_loop count g :
  unit_draws g ->
  particle_inv count g count
    (for_count count particle_body
       (replicate (count * 3) 0, replicate count 0, replicate count 0,
        replicate count 0, g)).
Proof.
  intros Hd. apply (for_count_ind particle_body (particle_inv count g)).
  { unfold particle_inv. rewrite !length_replicate.
    repeat (split; [first [done | lia]|]).
    split; [apply bounded_replicate; lra | intros; lia]. }
  intros i [[[[vel ph] sz] op] g1] Hi (Lv & Lp & Ls & Lo & Ed & Ec & Hb & Hdone).
  assert (Hd1 : unit_draws g1) by (by apply (unit_draws_ext g)).
  unfold particle_body, Math_random, particle_inv. cbn [draws cursor].
  rewrite !length_insert.
  pose proof (Hd1 (cursor g1)) as D0. pose proof (Hd1 (S (cursor g1))) as D1.
  pose proof (Hd1 (S (S (cursor g1)))) as D2.
  pose proof (Hd1 (S (S (S (cursor g1))))) as D3.
  pose proof (Hd1 (S (S (S (S (cursor g1)))))) as D4.
  pose proof (Hd1 (S (S (S (S (S (cursor g1))))))) as D5.
  pose proof PI_RGT_0 as Hpi.
  repeat (split; [first [done | lia]|]). split.
  { repeat apply bounded_insert; try done; apply Rabs_le_iff; lra. }
  intros k Hk. unfold particle_ranges. destruct (decide (k = i)) as [->|Hne].
  - aget_norm. repeat split; try (apply Rabs_le_iff; lra); try lra; try nra.
  - aget_norm. apply Hdone. lia.
Qed.

Lemma create_count count g : Fireflies.count (fst (create count g)) = count.
Proof.
  unfold create. destruct (for_count _ _ _) as [pos g1].
  by destruct (for_count _ _ _) as [[[[? ?] ?] ?] ?].
Qed.



(** *** [reset] *)

Lemma reset_loop b g s :
  unit_draws g -> wf s -> 0.01 <= b ->
  reset_inv (count s) g b (velocities s) (count s)
    (for_count (count s) reset_body (positions s, velocities s, g)).
Proof.
  intros Hd (Lp & Lv & _) Hb.
  apply (for_count_ind reset_body (reset_inv (count s) g b (velocities s))).
  { unfold reset_inv. repeat (split; [first [done | lia]|]). intros; lia. }
  intros i [[pos vel] g1] Hi (Lp1 & Lv1 & Ed & Ec & Hb1 & Hdone).
  assert (Hd1 : unit_draws g1) by (by apply (unit_draws_ext g)).
  unfold reset_body, Math_random, reset_inv. cbn [draws cursor].
  rewrite !length_insert.
  pose proof (Hd1 (cursor g1)) as D0. pose proof (Hd1 (S (cursor g1))) as D1.
  pose proof (Hd1 (S (S (cursor g1)))) as D2.
  pose proof (Hd1 (S (S (S (cursor g1))))) as D3.
  pose proof (Hd1 (S (S (S (S (cursor g1)))))) as D4.
  pose proof (Hd1 (S (S (S (S (S (cursor g1))))))) as D5.
  repeat (split; [first [done | lia]|]). split.
  { intros Hv0. repeat apply bounded_insert; try (by apply Hb1);
      apply Rabs_le_iff; lra. }
  intros k Hk. unfold in_box. destruct (decide (k = i)) as [->|Hne].
  - aget_norm. repeat split; try (apply Rabs_le_iff; lra); lra.
  - aget_norm. apply Hdone. lia.
Qed.

(** X2. [reset] puts every particle back into the box with a fresh
    velocity of at most 0.01 (0.005 along y), whatever the swarm looked
    like before; it keeps the phases, the time and the material, marks the
    positions for upload and consumes six draws per particle. *)
Theorem firefly_reset_restores g s i :
  unit_draws g -> wf s -> (i < count s)%nat ->
  let s' := fst (reset g s) in
  wf s' /\ count s' = count s /\
  in_box (positions s') i /\
  (Rabs (aget (velocities s') (i * 3)) <= 0.01 /\
   Rabs (aget (velocities s') (i * 3 + 1)) <= 0.005 /\
   Rabs (aget (velocities s') (i * 3 + 2)) <= 0.01) /\
  (phases s' = phases s /\ time s' = time s /\
   material_opacity s' = material_opacity s /\ needsUpdate s' = true) /\
  cursor (snd (reset g s)) = (cursor g + 6 * count s)%nat.
Proof.
  intros Hd Hwf Hi. cbv zeta. unfold reset.
  pose proof (reset_loop 0.01 g s Hd Hwf ltac:(lra)) as L.
  destruct Hwf as (Lp & Lv & Lph).
  destruct (for_count _ _ _) as [[pos vel] g1].
  destruct L as (Lp1 & Lv1 & _ & Ec & _ & Hdone).
  destruct (Hdone i Hi) as (Hbox & Hvel).
  cbn [fst snd]. unfold wf.
  cbn [positions velocities phases count time material_opacity needsUpdate].
  split; [by repeat split|]. split; [done|]. split; [exact Hbox|].
  split; [exact Hvel|]. split; [by repeat split | exact Ec].
Qed.

Lemma firefly_reset_restores_witness :
  in_box (positions (fst (reset (FirefliesSystem.constant_source 0.5) small_swarm))) 1.
Proof.
  apply (firefly_reset_restores (FirefliesSystem.constant_source 0.5) small_swarm 1).
  - intros k. cbn. lra.
  - exact small_swarm_wf.
  - apply Nat.lt_succ_diag_r.
Defined.

(** *** The invariant of a swarm's life *)

Lemma firefly_update_count g s : count (fst (update g s)) = count s.
Proof. unfold update. by destruct (for_count _ _ _) as [[? ?] ?]. Qed.

Lemma aget_beyond (l : list R) j : (length l <= j)%nat -> aget l j = 0.
Proof. intros H. unfold aget. by rewrite lookup_ge_None_2. Qed.

Lemma maxVel32_ge : 0.01 <= Float32.maxVel32.
Proof. unfold Float32.maxVel32. lra. Qed.

Lemma attractToPoint_bounded x y z k s :
  wf s -> bounded Float32.maxVel32 (velocities (TypedFireflies.attractToPoint x y z k s)).
Proof.
  intros Hwf j. destruct (decide (j < count s * 3)%nat) as [Hlt|Hge].
  - assert (Hi : (j / 3 < count s)%nat) by (apply Nat.Div0.div_lt_upper_bound; lia).
    destruct (typed_attractToPoint_at x y z k s (j / 3) Hwf Hi) as (Ex & Ey & Ez).
    pose proof (Nat.div_mod_eq j 3) as Hj.
    pose proof (Nat.mod_upper_bound j 3 ltac:(lia)) as Hm.
    apply Rabs_le_iff.
    destruct (j mod 3)%nat as [|[|[|?]]] eqn:Em; [| | |lia].
    + replace j with (j / 3 * 3)%nat by lia. rewrite Ex. apply stored_range.
    + replace j with (j / 3 * 3 + 1)%nat by lia. rewrite Ey. apply stored_range.
    + replace j with (j / 3 * 3 + 2)%nat by lia. rewrite Ez. apply stored_range.
  - destruct (typed_attractToPoint_wf x y z k s Hwf) as (_ & Lv & _).
    rewrite aget_beyond; [rewrite Rabs_R0; pose proof maxVel32_ge; lra|].
    rewrite Lv. change (count (TypedFireflies.attractToPoint x y z k s)) with (count s).
    lia.
Qed.

Lemma create_healthy n g : unit_draws g -> healthy n (fst (create n g)).
Proof.
  intros Hd. unfold healthy, create.
  pose proof (geometry_loop n g Hd) as G. cbv zeta in G.
  destruct (for_count n geometry_body _) as [pos g1]. cbn [fst snd] in G.
  destruct G as (Lp & Ed & _ & Hbox).
  pose proof (particle_loop n g1 (unit_draws_ext g g1 Ed Hd)) as P.
  destruct (for_count n particle_body _) as [[[[vel ph] sz] op] g2].
  destruct P as (Lv & Lph & _ & _ & _ & _ & Hb & _).
  cbn [fst velocities positions count].
  split; [by repeat split|]. split; [done|]. split; [exact Hbox|].
  apply (bounded_weaken 0.01); [apply maxVel32_ge | done].
Qed.

Lemma update_healthy n g s :
  unit_draws g -> healthy n s ->
  healthy n (fst (update g s)) /\ unit_draws (snd (update g s)).
Proof.
  intros Hd (Hwf & Hc & Hbox & Hb).
  destruct (update_bounded Float32.maxVel32 g s Hd maxVel32_ge Hb) as (Hb' & Hd').
  split; [|done]. split; [by apply firefly_update_wf|].
  split; [by rewrite firefly_update_count|]. split; [|done].
  intros i Hi. apply (firefly_update_in_bounds g s i Hwf). lia.
Qed.

Lemma set_material_healthy n sz op s : healthy n s -> healthy n (set_material sz op s).
Proof. intros H. exact H. Qed.

Lemma attractToPoint_healthy n x y z k s :
  healthy n s -> healthy n (TypedFireflies.attractToPoint x y z k s).
Proof.
  intros (Hwf & Hc & Hbox & Hb).
  split; [by apply typed_attractToPoint_wf|].
  split; [exact Hc|]. split; [exact Hbox|]. by apply attractToPoint_bounded.
Qed.

Lemma setScrollProgress_healthy n p s :
  healthy n s -> healthy n (TypedFireflies.setScrollProgress p s).
Proof.
  intros Hs. unfold TypedFireflies.setScrollProgress.
  destruct (num_lt p 0.3); [by apply set_material_healthy|].
  destruct (num_lt p 0.6); apply set_material_healthy; [|done].
  by apply attractToPoint_healthy.
Qed.

Lemma reset_healthy n g s :
  unit_draws g -> healthy n s ->
  healthy n (fst (reset g s)) /\ unit_draws (snd (reset g s)).
Proof.
  intros Hd (Hwf & Hc & Hbox & Hb). unfold reset.
  pose proof (reset_loop Float32.maxVel32 g s Hd Hwf maxVel32_ge) as L.
  destruct Hwf as (Lp & Lv & Lph).
  destruct (for_count _ _ _) as [[pos vel] g1].
  destruct L as (Lp1 & Lv1 & Ed & _ & Hb1 & Hdone). cbn [fst snd].
  split; [|by apply (unit_draws_ext g)].
  split; [by repeat split|]. split; [done|]. split; [|by apply Hb1].
  intros i Hi. apply Hdone. cbn [count] in *. lia.
Qed.

Lemma apply_healthy n o s g :
  unit_draws g -> healthy n s ->
  healthy n (fst (apply (s, g) o)) /\ unit_draws (snd (apply (s, g) o)).
Proof.
  intros Hd Hs. destruct o as [|p|x y z k|]; cbn [apply fst snd].
  - by apply update_healthy.
  - split; [by apply setScrollProgress_healthy | done].
  - split; [by apply attractToPoint_healthy | done].
  - by apply reset_healthy.
Qed.

(** X3. From the constructor on, through any sequence of frame updates,
    scroll-handler calls, attractions and resets, the swarm keeps its
    array lengths and its particle count, every particle stays inside the
    box (x and z in [-10,10], y in [1,9]) and no velocity component
    exceeds, in size, the clamp as the typed array stores it: the float32
    number 13421773 / 2^28 next to 0.05. *)
Theorem firefly_life_healthy n g ops :
  unit_draws g ->
  let s := fst (life ops (create n g)) in
  wf s /\ count s = n /\
  (forall i, (i < n)%nat -> in_box (positions s) i) /\
  (forall j, Rabs (aget (velocities s) j) <= Float32.maxVel32).
Proof.
  intros Hd.
  assert (H : forall st, unit_draws (snd st) -> healthy n (fst st) ->
                         healthy n (fst (life ops st))).
  { induction ops as [|o ops IH]; intros [s g1] Hd1 Hs; [done|].
    cbn [fst snd] in *. change (life (o :: ops) (s, g1)) with (life ops (apply (s, g1) o)).
    destruct (apply_healthy n o s g1 Hd1 Hs) as (Hs' & Hd'). by apply IH. }
  apply H.
  - unfold create. destruct (for_count n geometry_body _) as [pos g1] eqn:E1.
    pose proof (geometry_loop n g Hd) as G. cbv zeta in G. rewrite E1 in G.
    destruct G as (_ & Ed & _ & _). cbn [snd] in Ed.
    pose proof (particle_loop n g1 (unit_draws_ext g g1 Ed Hd)) as P.
    destruct (for_count n particle_body _) as [[[[vel ph] sz] op] g2].
    destruct P as (_ & _ & _ & _ & Ed2 & _). cbn [snd].
    apply (unit_draws_ext g); [congruence|done].
  - by apply create_healthy.
Qed.

Lemma firefly_life_healthy_witness :
  Rabs (aget (velocities
                (fst (life [Update; SetScrollProgress 0.45; Update; Reset;
                            AttractToPoint 0 0 0 0.01; Update]
                        (create 50 (FirefliesSystem.constant_source 0.001))))) 7)
  <= Float32.maxVel32.
Proof.
  assert (Hd : unit_draws (FirefliesSystem.constant_source 0.001))
    by (intros k; cbn; lra).
  destruct (firefly_life_healthy 50 (FirefliesSystem.constant_source 0.001)
              [Update; SetScrollProgress 0.45; Update; Reset;
               AttractToPoint 0 0 0 0.01; Update] Hd) as (_ & _ & _ & V).
  exact (V 7%nat).
Defined.

(** *** What an update does to the velocities *)

Lemma resample_quiet i vel g :
  0.005 <= draws g (cursor g) ->
  resample i vel g = (vel, mkRandom (draws g) (S (cursor g))).
Proof.
  intros H. unfold resample, Math_random.
  apply num_lt_false in H. by rewrite H.
Qed.

(** X4. The redraw is the only way [update] changes a velocity: when no
    draw of the source is below 0.005, an update leaves the velocity array
    exactly as it was and consumes exactly one draw per particle. *)
Theorem firefly_update_keeps_velocities g s :
  (forall k, 0.005 <= draws g k) ->
  velocities (fst (update g s)) = velocities s /\
  cursor (snd (update g s)) = (cursor g + count s)%nat /\
  draws (snd (update g s)) = draws g.
Proof.
  intros Hd. unfold update.
  pose proof (for_count_ind (update_body (phases s) (time s + 0.016))
                (fun n st => snd (fst st) = velocities s /\
                             cursor (snd st) = (cursor g + n)%nat /\
                             draws (snd st) = draws g)
                (count s) (positions s, velocities s, g)) as L.
  destruct (for_count _ _ _) as [[pos vel] g1]. cbn [fst snd velocities] in *.
  apply L; [repeat split; lia|].
  intros i [[p v] g2] _ (Ev & Ec & Ed). cbn [fst snd] in *.
  rewrite firefly_update_body_stages, resample_quiet by (rewrite Ed; apply Hd).
  cbn [fst snd cursor draws]. repeat split; [done|lia|done].
Qed.

Lemma firefly_update_keeps_velocities_witness :
  velocities (fst (update (FirefliesSystem.constant_source 0.5) small_swarm))
    = velocities small_swarm.
Proof.
  apply (firefly_update_keeps_velocities (FirefliesSystem.constant_source 0.5)
           small_swarm).
  intros k. cbn. lra.
Defined.

(** X5. Whatever the progress and the time, the scroll handler leaves a
    material opacity in [0.6, 1] and a point size in [0.6, 1.5], and it
    never touches the positions, the phases or the time of the swarm. *)
Theorem firefly_setScrollProgress_material p s :
  let s' := setScrollProgress p s in
  0.6 <= material_opacity s' <= 1 /\
  0.6 <= material_size s' <= 1.5 /\
  positions s' = positions s /\ phases s' = phases s /\ time s' = time s /\
  count s' = count s.
Proof.
  cbv zeta. unfold setScrollProgress.
  pose proof (SIN_bound (time s * 2)). pose proof (SIN_bound (time s * 3)).
  pose proof (SIN_bound (time s * 4)).
  destruct (num_lt p 0.3); [|destruct (num_lt p 0.6)];
    cbn [set_material material_opacity material_size positions phases time count
         attractToPoint set_velocities];
    repeat split; try done; lra.
Qed.

Lemma limit_velocity_up v d :
  -0.05 <= v <= 0.05 -> 0 <= d -> v <= limit_velocity (v + d).
Proof.
  intros Hv Hd. unfold limit_velocity, Math_max, Math_min, Rmax, Rmin. cbv zeta.
  repeat destruct (Rle_dec _ _); lra.
Qed.

Lemma limit_velocity_down v d :
  -0.05 <= v <= 0.05 -> d <= 0 -> limit_velocity (v + d) <= v.
Proof.
  intros Hv Hd. unfold limit_velocity, Math_max, Math_min, Rmax, Rmin. cbv zeta.
  repeat destruct (Rle_dec _ _); lra.
Qed.

(** X6. With a non-negative strength the attraction never pushes a
    particle away from the target: along each axis, a velocity component
    that was inside the clamp does not decrease when the target lies at or
    beyond the particle, does not increase when it lies at or before it,
    and is unchanged when the particle sits on the target. *)
Theorem firefly_attraction_points_to_target x y z k s i :
  wf s -> (i < count s)%nat -> 0 <= k ->
  let s' := attractToPoint x y z k s in
  let toward (target : R) (j : nat) :=
    -0.05 <= aget (velocities s) j <= 0.05 ->
    (aget (positions s) j <= target ->
       aget (velocities s) j <= aget (velocities s') j) /\
    (target <= aget (positions s) j ->
       aget (velocities s') j <= aget (velocities s) j) in
  toward x (i * 3)%nat /\ toward y (i * 3 + 1)%nat /\ toward z (i * 3 + 2)%nat.
Proof.
  intros Hwf Hi Hk. cbv zeta.
  destruct (attractToPoint_at x y z k s i Hwf Hi) as (Ex & Ey & Ez).
  cbv zeta in Ex, Ey, Ez. rewrite Ex, Ey, Ez.
  repeat split; intros Hp;
    first [apply limit_velocity_up | apply limit_velocity_down]; try done; nra.
Qed.

Lemma firefly_attraction_points_to_target_witness :
  aget (velocities small_swarm) (0 * 3)
    <= aget (velocities (attractToPoint 2 0 (-3) 0.001 small_swarm)) (0 * 3).
Proof.
  destruct (firefly_attraction_points_to_target 2 0 (-3) 0.001 small_swarm 0
              small_swarm_wf ltac:(apply Nat.lt_0_succ) ltac:(lra)) as (Tx & _).
  apply Tx.
  - change (aget (velocities small_swarm) (0 * 3)) with 0.01. lra.
  - change (aget (positions small_swarm) (0 * 3)) with 1. lra.
Defined.

End FireflyLifeFacts.

(** ** More on the 200-particle swarm (src/professional/FirefliesSystem.js) *)

Section Swarm200Facts.
Import FirefliesSystem FirefliesSpawn.
Import FireflyLife (unit_draws).

Lemma fireflies_create_count g : fireflyCount (fst (create g)) = 200%nat.
Proof. unfold create. by destruct (for_count _ _ _) as [[[[? ?] ?] ?] ?]. Qed.






Lemma fireflies_update_count dt s : fireflyCount (update dt s) = fireflyCount s.
Proof. unfold update. by destruct (for_count _ _ _). Qed.

Lemma fireflies_update_lengths dt s :
  wf s ->
  length (attr_velocity (update dt s)) = length (attr_velocity s) /\
  length (attr_position (update dt s)) = length (attr_position s).
Proof.
  intros Hwf. destruct (fireflies_update_wf dt s Hwf) as ((Lp & Lv & _) & Hc).
  destruct Hwf as (Lp0 & Lv0 & _). rewrite Lp, Lv, Lp0, Lv0, Hc. done.
Qed.

(** Every index under [3 * n] is one of the three slots of a particle. *)
Lemma slot_cases n j :
  (j < n * 3)%nat ->
  exists i, (i < n)%nat /\ (j = i * 3 \/ j = i * 3 + 1 \/ j = i * 3 + 2)%nat.
Proof.
  intros Hj. exists (j / 3)%nat.
  pose proof (Nat.div_mod_eq j 3). pose proof (Nat.mod_upper_bound j 3 ltac:(lia)).
  split; [apply Nat.Div0.div_lt_upper_bound; lia | lia].
Qed.

Lemma flip_keeps_size (b : bool) v : Rabs (if b then v * -1 else v) = Rabs v.
Proof. destruct b; [|done]. replace (v * -1) with (- v) by lra. apply Rabs_Ropp. Qed.

Lemma fireflies_update_speed dt s j :
  wf s -> Rabs (aget (attr_velocity (update dt s)) j) = Rabs (aget (attr_velocity s) j).
Proof.
  intros Hwf. destruct (decide (j < fireflyCount s * 3)%nat) as [Hlt|Hge].
  - destruct (slot_cases _ _ Hlt) as (i & Hi & Hj).
    destruct (fireflies_update_at dt s i Hwf Hi) as (_ & Ex & Ey & Ez).
    cbv zeta in Ex, Ey, Ez. unfold reflected in Ex, Ey, Ez. cbn [vx vy vz] in Ex, Ey, Ez.
    destruct Hj as [-> | [-> | ->]]; [rewrite Ex | rewrite Ey | rewrite Ez];
      apply flip_keeps_size.
  - destruct (fireflies_update_lengths dt s Hwf) as (Lv & _).
    destruct Hwf as (_ & Lv0 & _).
    rewrite !aget_beyond by lia. done.
Qed.

(** X8. The frame update of the 200-particle swarm never changes the
    size of a velocity component, only its sign: after any number of
    frames, with any frame deltas, every component has the absolute value
    it started with. *)
Theorem fireflies_run_keeps_speed dts s j :
  wf s ->
  Rabs (aget (attr_velocity (run dts s)) j) = Rabs (aget (attr_velocity s) j).
Proof.
  revert s. induction dts as [|dt dts IH]; intros s Hwf; [done|].
  change (run (dt :: dts) s) with (run dts (update dt s)).
  rewrite IH by apply (fireflies_update_wf dt s Hwf).
  by apply fireflies_update_speed.
Qed.

Lemma fireflies_run_keeps_speed_witness :
  Rabs (aget (attr_velocity (run [0.016; 0.02; 0.016] (fst (create (constant_source 0.9)))))
          7)
  = Rabs (aget (attr_velocity (fst (create (constant_source 0.9)))) 7).
Proof. apply fireflies_run_keeps_speed, create_wf. Defined.






(** X10. How the 200-particle swarm reflects along the height axis: a
    frame negates the vertical velocity of a particle exactly when the
    height it has just reached is below 1 or above 16, and keeps it
    otherwise; the height itself is never corrected.  Hence a particle
    that is outside after two frames in a row has its original vertical
    velocity back. *)
Theorem fireflies_reflection dt1 dt2 s i :
  wf s -> (i < fireflyCount s)%nat ->
  let s1 := update dt1 s in
  let s2 := update dt2 s1 in
  let outside (p : list R) := aget p (i * 3 + 1) < 1 \/ aget p (i * 3 + 1) > 16 in
  let vy (v : list R) := aget v (i * 3 + 1) in
  (outside (attr_position s1) -> vy (attr_velocity s1) = - vy (attr_velocity s)) /\
  (~ outside (attr_position s1) -> vy (attr_velocity s1) = vy (attr_velocity s)) /\
  (outside (attr_position s1) -> outside (attr_position s2) ->
     vy (attr_velocity s2) = vy (attr_velocity s)).
Proof.
  intros Hwf Hi. cbv zeta.
  assert (Rule : forall dt s, wf s -> (i < fireflyCount s)%nat ->
            (aget (attr_position (update dt s)) (i * 3 + 1) < 1 \/
             aget (attr_position (update dt s)) (i * 3 + 1) > 16 ->
             aget (attr_velocity (update dt s)) (i * 3 + 1)
               = - aget (attr_velocity s) (i * 3 + 1)) /\
            (~ (aget (attr_position (update dt s)) (i * 3 + 1) < 1 \/
                aget (attr_position (update dt s)) (i * 3 + 1) > 16) ->
             aget (attr_velocity (update dt s)) (i * 3 + 1)
               = aget (attr_velocity s) (i * 3 + 1))).
  { clear. intros dt s Hwf Hi.
    destruct (fireflies_update_at dt s i Hwf Hi) as ((_ & Ey & _) & (_ & Ev & _)).
    cbv zeta in Ey, Ev. rewrite Ev, Ey. unfold reflected. cbn [JS.vy].
    destruct (num_lt _ 1) eqn:E1; [|destruct (num_gt _ 16) eqn:E2]; cbn [orb].
    - apply num_lt_true in E1. split; intros H; [lra | tauto].
    - apply num_gt_true in E2. split; intros H; [lra | tauto].
    - apply num_lt_false in E1. apply num_gt_false in E2.
      split; intros H; [lra | done]. }
  destruct (Rule dt1 s Hwf Hi) as (Out1 & In1).
  destruct (fireflies_update_wf dt1 s Hwf) as (Hwf1 & Hc1).
  destruct (Rule dt2 (update dt1 s) Hwf1 ltac:(lia)) as (Out2 & _).
  split; [exact Out1|]. split; [exact In1|].
  intros H1 H2. rewrite (Out2 H2), (Out1 H1). lra.
Qed.

Lemma fireflies_two_frames_high dt1 dt2 s i :
  wf s -> (i < fireflyCount s)%nat ->
  Rabs (aget (attr_velocity s) (i * 3 + 1)) <= 0.005 ->
  16.02 < aget (attr_position s) (i * 3 + 1) ->
  aget (attr_position (update dt1 s)) (i * 3 + 1) > 16 /\
  aget (attr_position (update dt2 (update dt1 s))) (i * 3 + 1) > 16.
Proof.
  intros Hwf Hi Hv Hy.
  destruct (fireflies_update_height dt1 s i Hwf Hi Hv) as (Y1 & V1).
  destruct (fireflies_update_wf dt1 s Hwf) as (Hwf1 & Hc1).
  destruct (fireflies_update_height dt2 (update dt1 s) i Hwf1 ltac:(lia) V1) as (Y2 & _).
  lra.
Qed.

Lemma fireflies_reflection_witness :
  aget (attr_velocity (update 0.016 (update 0.016 (fst (create (constant_source 0.97))))))
       (0 * 3 + 1)
    = aget (attr_velocity (fst (create (constant_source 0.97)))) (0 * 3 + 1).
Proof.
  pose proof (create_wf (constant_source 0.97)) as Hwf.
  pose proof (fireflies_create_count (constant_source 0.97)) as Hc.
  assert (Hi : (0 < fireflyCount (fst (create (constant_source 0.97))))%nat)
    by (rewrite Hc; apply Nat.lt_0_succ).
  destruct (create_at (constant_source 0.97) 0 ltac:(apply Nat.lt_0_succ))
    as (_ & Ey & _ & _ & _ & Ev & _).
  unfold created_position, created_velocity, draw in Ey, Ev.
  cbn [vx vy vz constant_source draws] in Ey, Ev.
  destruct (fireflies_two_frames_high 0.016 0.016 _ 0 Hwf Hi) as (H1 & H2).
  { rewrite Ev. apply Rabs_le_iff. lra. }
  { rewrite Ey. lra. }
  destruct (fireflies_reflection 0.016 0.016 _ 0 Hwf Hi) as (_ & _ & H).
  apply H; right; [exact H1 | exact H2].
Defined.

(** X12. The scroll handler of the 200-particle swarm and its frame
    update act on different fields, so their order within a frame does
    not matter. *)
Theorem fireflies_update_updateIntensity_commute dt p s :
  update dt (updateIntensity p s) = updateIntensity p (update dt s).
Proof.
  unfold update, updateIntensity.
  cbn [fireflyCount time speed amplitude glowIntensity attr_position attr_scale
       attr_phase attr_velocity needsUpdate uniform_time uniform_glowIntensity
       material_opacity].
  by destruct (for_count _ _ _).
Qed.

(** *** [spawnFirefliesAt] *)






End Swarm200Facts.

(** ** The page after the video trigger (src/professional/ScrollAnimations.js) *)

Section VideoPageFacts.
Import ScrollAnimations VideoPage.

Lemma plays_app ts t w' :
  timers w' = ts ++ [t] ->
  pendingPlays w' =
    (length (filter (fun t => is_redirect t = false) ts)
     + (if is_redirect t then 0 else 1))%nat.
Proof.
  intros E. unfold pendingPlays. rewrite E, filter_app, length_app.
  f_equal. rewrite filter_cons. destruct (is_redirect t); case_decide; done.
Qed.

Lemma plays_delete (ts : list (R * Callback)) k t :
  ts !! k = Some t ->
  (length (filter (fun t => is_redirect t = false) (delete k ts))
   + (if is_redirect t then 0 else 1))%nat
  = length (filter (fun t => is_redirect t = false) ts).
Proof.
  revert k. induction ts as [|a ts IH]; intros [|k] E; simplify_eq/=.
  - rewrite filter_cons. destruct (is_redirect t); case_decide; simpl; try done; lia.
  - rewrite !filter_cons. case_decide; simpl; rewrite <- (IH k E); lia.
Qed.

Lemma timers_split (ts : list (R * Callback)) :
  length ts = (length (filter (fun t => is_redirect t = true) ts)
               + length (filter (fun t => is_redirect t = false) ts))%nat.
Proof.
  induction ts as [|a ts IH]; [done|].
  rewrite !filter_cons. destruct (is_redirect a); repeat case_decide; simpl; try done; lia.
Qed.

Lemma faded_faded c : faded (faded c) = faded c.
Proof. by destruct c. Qed.

Lemma redirect_settled c w : settled c w -> settled c (redirectToVideoPage w).
Proof.
  intros (Hp & Hc). unfold settled.
  rewrite (plays_app (timers w) (500, CallPlayVideo) (redirectToVideoPage w))
    by reflexivity.
  unfold pendingPlays in Hp. cbn [redirectToVideoPage setTimeout log videoPlays
    redirects canvasOpacity is_redirect snd]. split; [lia|].
  change (canvasOpacity w) with (canvasOpacity w). rewrite Hc.
  destruct (redirects w =? 0)%nat; cbn [Nat.eqb]; [done | apply faded_faded].
Qed.

Lemma onUpdate_settled c p w : settled c w -> settled c (onUpdate p w).
Proof.
  intros (Hp & Hc).
  assert (E : exists w1, timers w1 = timers w /\ redirects w1 = redirects w /\
                         videoPlays w1 = videoPlays w /\
                         canvasOpacity w1 = canvasOpacity w /\
                         onUpdate p w =
                           if num_ge p 0.95 && negb (videoTriggered (self w1)) then
                             setTimeout CallRedirectToVideoPage 100
                               (log LogReached95
                                  (set_self (set_videoTriggered true (self w1)) w1))
                           else w1).
  { unfold onUpdate.
    match goal with |- context [Z.eqb ?a ?b] => destruct (Z.eqb a b) end;
      cbn [negb]; eexists;
      (split; [|split; [|split; [|split; [|reflexivity]]]]); reflexivity. }
  destruct E as (w1 & Et & Er & Ev & Eo & ->).
  assert (S1 : settled c w1).
  { unfold settled, pendingPlays in *. by rewrite Et, Er, Ev, Eo. }
  destruct (_ && _); [|exact S1].
  destruct S1 as (Hp1 & Hc1). unfold settled.
  rewrite (plays_app (timers w1) (100, CallRedirectToVideoPage)) by reflexivity.
  unfold pendingPlays in Hp1. cbn. split; [lia | exact Hc1].
Qed.

Lemma onComplete_settled c w : settled c w -> settled c (onComplete w).
Proof.
  intros Hs. unfold onComplete. destruct (negb _); [|exact Hs].
  apply redirect_settled. exact Hs.
Qed.

Lemma fire_settled c k w : settled c w -> settled c (fire k w).
Proof.
  intros (Hp & Hc). unfold fire.
  destruct (timers w !! k) as [[d cb]|] eqn:E; [|by split].
  pose proof (plays_delete _ _ _ E) as D. unfold pendingPlays in Hp.
  destruct cb; cbn [is_redirect snd] in D.
  - apply redirect_settled. unfold settled, pendingPlays. cbn. split; [lia | exact Hc].
  - unfold settled, pendingPlays, playVideo. cbn. split; [lia | exact Hc].
Qed.

Lemma run_settled c es w : settled c w -> settled c (run es w).
Proof.
  revert w. induction es as [|e es IH]; intros w Hs; [exact Hs|].
  apply IH. destruct e; cbn [step];
    auto using onUpdate_settled, onComplete_settled, fire_settled.
Qed.

Lemma init_settled ff am fog canvas : settled canvas (init ff am fog canvas).
Proof. by split. Qed.

(** What firing the oldest timer does to the backlog. *)
Lemma fire_oldest w :
  (timers w = [] /\ fire 0 w = w) \/
  (timers w <> [] /\ S (backlog (fire 0 w)) = backlog w).
Proof.
  unfold fire. destruct (timers w) as [|[d cb] ts] eqn:E; [by left|right].
  split; [done|]. cbn [lookup list_lookup delete list_delete].
  unfold backlog, pendingRedirects, pendingPlays. rewrite E.
  destruct cb;
    cbn [redirectToVideoPage playVideo setTimeout log timers];
    rewrite ?filter_app, ?length_app, !filter_cons, ?filter_nil;
    cbn [is_redirect snd]; repeat case_decide; try done; cbn [length]; lia.
Qed.

Lemma backlog_nil w : backlog w = 0%nat -> timers w = [].
Proof.
  unfold backlog, pendingRedirects, pendingPlays. intros H.
  apply length_zero_iff_nil. rewrite timers_split. lia.
Qed.

Lemma run_completes_flag es w :
  In ScrollComplete es -> videoTriggered (self (run es w)) = true.
Proof.
  revert w. induction es as [|e es IH]; intros w Hin; [destruct Hin|].
  destruct Hin as [->|Hin].
  - apply (run_flag_stable es). apply onComplete_sets_flag.
  - by apply IH.
Qed.

(** Once the flag is set, the oldest timer is the redirect if one is
    pending: after it has expired the redirect has run. *)
Lemma fire_oldest_redirects c w :
  guarded w -> settled c w -> videoTriggered (self w) = true ->
  redirects (fire 0 w) = 1%nat /\ pendingRedirects (fire 0 w) = 0%nat.
Proof.
  intros G S F.
  pose proof (fire_guarded 0 w G) as G1. pose proof (fire_settled c 0 w S) as S1.
  pose proof (run_flag_stable [TimerFires 0] w F) as F1.
  change (run [TimerFires 0] w) with (fire 0 w) in F1.
  assert (B : (backlog w <= 2)%nat).
  { destruct S as (Hp & _). unfold guarded, redirectsEmitted in G.
    rewrite F in G. unfold backlog. lia. }
  unfold guarded, redirectsEmitted in G, G1. rewrite F in G. rewrite F1 in G1.
  destruct (fire_oldest w) as [(T & E)|(_ & D)].
  - rewrite E. unfold pendingRedirects in *. rewrite T in *. cbn in G |- *. lia.
  - destruct S1 as (Hp1 & _). unfold backlog in D, B. lia.
Qed.

(** With the flag set and no redirect pending, no event brings one back. *)
Lemma step_no_pending w e :
  videoTriggered (self w) = true -> pendingRedirects w = 0%nat ->
  pendingRedirects (step w e) = 0%nat.
Proof.
  intros F P. destruct e as [p| |k]; cbn [step].
  - destruct (onUpdate_shape p w) as (w1 & Et & _ & Ev & ->).
    rewrite Ev, F, andb_false_r. unfold pendingRedirects in *. by rewrite Et.
  - unfold onComplete. by rewrite F.
  - unfold fire. destruct (timers w !! k) as [[d cb]|] eqn:E; [|exact P].
    pose proof (pending_delete _ _ _ E) as D. unfold pendingRedirects in P.
    rewrite P in D. destruct cb; cbn [is_redirect snd] in D; [lia|].
    unfold pendingRedirects, playVideo. cbn [timers]. lia.
Qed.

Lemma run_no_pending es w :
  videoTriggered (self w) = true -> pendingRedirects w = 0%nat ->
  pendingRedirects (run es w) = 0%nat.
Proof.
  revert w. induction es as [|e es IH]; intros w F P; [exact P|].
  apply IH; [by apply step_flag_stable | by apply step_no_pending].
Qed.

(** C1. During the life of a scene, whatever the order of scroll updates,
    scroll completions and timer expiries, if some update reports a
    progress of 0.95 or more, or the scroll completes, then the redirect
    to the video is requested exactly once (one request has run or is
    pending on its timer, never two, although both paths test for it and
    progress may cross the threshold many times), and the request is
    carried out: once the oldest pending timer has expired the redirect
    has run exactly once, no request is pending, and this stays so
    whatever events follow. *)
Theorem video_trigger_exactly_once ff am fog canvas es es' :
  (exists p, In (ScrollUpdate p) es /\ p >= 0.95) \/ In ScrollComplete es ->
  let w := run es (init ff am fog canvas) in
  let w' := run (TimerFires 0 :: es') w in
  redirectsEmitted w = 1%nat /\
  (redirects w <= 1)%nat /\
  (pendingRedirects w = 0%nat -> redirects w = 1%nat) /\
  redirects w' = 1%nat /\ pendingRedirects w' = 0%nat.
Proof.
  intros Htrig. cbv zeta. set (w := run es (init ff am fog canvas)).
  pose proof (run_guarded es _ (init_guarded ff am fog canvas)) as G.
  pose proof (run_settled canvas es _ (init_settled ff am fog canvas)) as S.
  fold w in G, S.
  assert (F : videoTriggered (self w) = true).
  { destruct Htrig; [by apply run_reaches_flag | by apply run_completes_flag]. }
  assert (E : redirectsEmitted w = 1%nat).
  { unfold guarded in G. by rewrite F in G. }
  split; [exact E|]. unfold redirectsEmitted in E. split; [lia|]. split; [lia|].
  change (run (TimerFires 0 :: es') w) with (run es' (fire 0 w)).
  destruct (fire_oldest_redirects canvas w G S F) as (R1 & P1).
  assert (F1 : videoTriggered (self (fire 0 w)) = true).
  { apply (run_flag_stable [TimerFires 0] w F). }
  pose proof (run_no_pending es' _ F1 P1) as P2.
  pose proof (run_guarded es' _ (fire_guarded 0 w G)) as G2.
  pose proof (run_flag_stable es' _ F1) as F2.
  unfold guarded, redirectsEmitted in G2. rewrite F2, P2 in G2.
  split; [lia | exact P2].
Qed.

Lemma video_trigger_exactly_once_witness :
  redirects
    (run (TimerFires 0 :: [ScrollComplete; ScrollUpdate 1; TimerFires 0])
       (run [ScrollUpdate 0.5; ScrollUpdate 0.96; ScrollUpdate 0.94; ScrollUpdate 0.97]
          fresh_world)) = 1%nat.
Proof.
  destruct (video_trigger_exactly_once
              (fst (FirefliesSystem.create (FirefliesSystem.constant_source 0.5)))
              AssetManager.with_flower (Some (mkFog 20 80)) (Some 1)
              [ScrollUpdate 0.5; ScrollUpdate 0.96; ScrollUpdate 0.94; ScrollUpdate 0.97]
              [ScrollComplete; ScrollUpdate 1; TimerFires 0])
    as (_ & _ & _ & R & _).
  - left. exists 0.96. split; [cbn; tauto | lra].
  - exact R.
Defined.

(** X13. The video starts at most once in the life of a scene, whatever
    the events; and once the scroll has reached 0.95 or completed, letting
    the (at most two) pending timers expire leaves no timer, exactly one
    run of the redirect, exactly one start of the video, and the canvas
    faded out if it exists. *)
Theorem video_plays_exactly_once ff am fog canvas es :
  let w0 := run es (init ff am fog canvas) in
  (videoPlays w0 <= 1)%nat /\
  ((exists p, In (ScrollUpdate p) es /\ p >= 0.95) \/ In ScrollComplete es ->
   let w := run [TimerFires 0; TimerFires 0] w0 in
   timers w = [] /\ redirects w = 1%nat /\ videoPlays w = 1%nat /\
   canvasOpacity w = faded canvas).
Proof.
  cbv zeta. set (w0 := run es (init ff am fog canvas)).
  pose proof (run_guarded es _ (init_guarded ff am fog canvas)) as G0.
  pose proof (run_settled canvas es _ (init_settled ff am fog canvas)) as S0.
  fold w0 in G0, S0. split.
  { destruct S0 as (Hp & _). unfold guarded, redirectsEmitted in G0.
    destruct (videoTriggered (self w0)); lia. }
  intros Htrig.
  assert (F0 : videoTriggered (self w0) = true).
  { destruct Htrig; [by apply run_reaches_flag | by apply run_completes_flag]. }
  set (w1 := fire 0 w0). set (w2 := fire 0 w1).
  change (run [TimerFires 0; TimerFires 0] w0) with w2.
  assert (G2 : guarded w2) by (do 2 apply fire_guarded; exact G0).
  assert (S2 : settled canvas w2) by (do 2 apply fire_settled; exact S0).
  assert (F2 : videoTriggered (self w2) = true).
  { apply (run_flag_stable [TimerFires 0; TimerFires 0] w0 F0). }
  assert (B0 : (backlog w0 <= 2)%nat).
  { destruct S0 as (Hp & _). unfold guarded, redirectsEmitted in G0.
    rewrite F0 in G0. unfold backlog. lia. }
  assert (T2 : timers w2 = []).
  { destruct (fire_oldest w0) as [(T0 & E0)|(_ & D0)].
    - unfold w2, w1. by rewrite E0, E0.
    - fold w1 in D0. destruct (fire_oldest w1) as [(T1 & E1)|(_ & D1)].
      + unfold w2. by rewrite E1.
      + fold w2 in D1. apply backlog_nil. lia. }
  destruct S2 as (Hp & Hc). unfold guarded, redirectsEmitted in G2.
  rewrite F2 in G2. unfold pendingRedirects, pendingPlays in *. rewrite T2 in *.
  cbn [filter length] in *.
  assert (R2 : redirects w2 = 1%nat) by (rewrite filter_nil in G2; cbn in G2; lia).
  rewrite R2 in Hc, Hp. rewrite filter_nil in Hp. cbn in Hp, Hc.
  repeat split; try done; lia.
Qed.

Lemma video_plays_exactly_once_witness :
  videoPlays (run [TimerFires 0; TimerFires 0] (run hovering_scroll fresh_world)) = 1%nat.
Proof.
  destruct (video_plays_exactly_once
              (fst (FirefliesSystem.create (FirefliesSystem.constant_source 0.5)))
              AssetManager.with_flower (Some (mkFog 20 80)) (Some 1) hovering_scroll)
    as (_ & H).
  apply H. right. cbn. tauto.
Defined.

(** X14. The debug log keeps track of tenths: from the constructor on,
    after any events, the last logged progress lies in the same tenth of
    the scroll range as the current progress. *)
Theorem logged_progress_same_tenth ff am fog canvas es :
  let s := self (run es (init ff am fog canvas)) in
  Math_floor (lastLoggedProgress s * 10) = Math_floor (scrollProgress s * 10).
Proof.
  cbv zeta.
  assert (H : forall w,
            Math_floor (lastLoggedProgress (self w) * 10)
              = Math_floor (scrollProgress (self w) * 10) ->
            Math_floor (lastLoggedProgress (self (run es w)) * 10)
              = Math_floor (scrollProgress (self (run es w)) * 10)).
  { induction es as [|e es IH]; intros w Hw; [exact Hw|].
    apply IH. destruct e as [p| |k]; cbn [step].
    - unfold onUpdate. cbn [self set_self updateScene lastLoggedProgress].
      destruct (Z.eqb_spec (Math_floor (p * 10))
                  (Math_floor (lastLoggedProgress (self w) * 10))) as [E|E];
        cbn [negb]; destruct (_ && _); cbn; congruence.
    - unfold onComplete. destruct (negb _); [|exact Hw]. exact Hw.
    - unfold fire. destruct (timers w !! k) as [[d cb]|]; [|exact Hw].
      destruct cb; exact Hw. }
  apply H. reflexivity.
Qed.

Lemma run_keeps_progress es w :
  forallb (fun e => negb (is_update e)) es = true ->
  scrollProgress (self (run es w)) = scrollProgress (self w).
Proof.
  revert w. induction es as [|e es IH]; intros w Hes; [done|].
  cbn [forallb] in Hes. apply andb_prop in Hes as [He Hes].
  change (run (e :: es) w) with (run es (step w e)). rewrite (IH _ Hes).
  destruct e as [p| |k]; [cbn in He; discriminate| |]; cbn [step].
  - unfold onComplete. destruct (videoTriggered (self w)); reflexivity.
  - unfold fire. destruct (timers w !! k) as [[d cb]|]; [|done]. destruct cb; reflexivity.
Qed.

Lemma onUpdate_progress p w : scrollProgress (self (onUpdate p w)) = p.
Proof.
  unfold onUpdate.
  match goal with |- context [Z.eqb ?a ?b] => destruct (Z.eqb a b) end;
    destruct (num_ge p 0.95); destruct (videoTriggered (self w)); reflexivity.
Qed.

(** X15. [getScrollProgress] reports the progress of the most recent
    scroll update, whatever completions and timer expiries came after it,
    and the camera's look-at target computed from it is (0, 1, -8 p). *)
Theorem scroll_progress_is_last_update es p es' w :
  forallb (fun e => negb (is_update e)) es' = true ->
  let s := self (run (es ++ ScrollUpdate p :: es') w) in
  scrollProgress s = p /\ lookAtTarget s = mkVec3 0 1 (-8 * p).
Proof.
  intros Hes'. cbv zeta. unfold run. rewrite fold_left_app. cbn [fold_left step].
  fold (run es w). fold (run es' (onUpdate p (run es w))).
  assert (E : scrollProgress (self (run es' (onUpdate p (run es w)))) = p).
  { rewrite (run_keeps_progress _ _ Hes'). apply onUpdate_progress. }
  split; [exact E|]. unfold lookAtTarget. rewrite E. cbn [vx vy vz].
  f_equal; lra.
Qed.

Lemma scroll_progress_is_last_update_witness :
  scrollProgress
    (self (run ([ScrollUpdate 0.2; ScrollUpdate 0.96]
                ++ ScrollUpdate 0.4 :: [TimerFires 0; ScrollComplete]) fresh_world))
  = 0.4.
Proof.
  apply (scroll_progress_is_last_update [ScrollUpdate 0.2; ScrollUpdate 0.96] 0.4
           [TimerFires 0; ScrollComplete] fresh_world).
  reflexivity.
Defined.

Lemma updateVisibility_again p q am :
  AssetManager.updateVisibility q (AssetManager.updateVisibility p am)
  = AssetManager.updateVisibility p am.
Proof.
  unfold AssetManager.updateVisibility, AssetManager.getAsset.
  destruct (AssetManager.loadedAssets am !! "blueFlower") as [a|] eqn:E.
  - cbn [AssetManager.loadedAssets]. rewrite lookup_insert_eq.
    cbn [AssetManager.model]. by rewrite insert_insert_eq.
  - by rewrite E.
Qed.

Lemma updateIntensity_again p q ff :
  FirefliesSystem.updateIntensity q (FirefliesSystem.updateIntensity p ff)
  = FirefliesSystem.updateIntensity q ff.
Proof. reflexivity. Qed.

(** X16. [updateScene] keeps no memory of earlier progress values: after
    two calls the fireflies' intensity, the assets and the fog are what
    the second call alone would have produced, so the scene is a function
    of the latest progress. *)
Theorem updateScene_last_wins p q s :
  updateScene q (updateScene p s) = updateScene q s.
Proof.
  unfold updateScene.
  cbn [firefliesSystem assetManager scene_fog scrollProgress lastLoggedProgress
       isVideoPhase videoTriggered].
  rewrite updateIntensity_again, updateVisibility_again.
  change (AssetManager.updateVisibility p (assetManager s))
    with (AssetManager.updateVisibility q (assetManager s)).
  by destruct (scene_fog s).
Qed.

(** X17. For a progress between 0 and 1, [updateScene] puts the near
    plane of an existing fog between 20 and 50 and its far plane between
    150 and 200, near below far; a scene without fog stays without. *)
Theorem updateScene_fog_range p s :
  0 <= p <= 1 ->
  match scene_fog s, scene_fog (updateScene p s) with
  | Some _, Some f => 20 <= near f <= 50 /\ 150 <= far f <= 200 /\ near f < far f
  | None, None => True
  | _, _ => False
  end.
Proof.
  intros Hp. unfold updateScene. cbn [scene_fog].
  destruct (scene_fog s); [|exact I]. cbn [near far]. lra.
Qed.

Lemma updateScene_fog_range_witness :
  match scene_fog (updateScene 0.5 (self fresh_world)) with
  | Some f => 20 <= near f <= 50 /\ 150 <= far f <= 200 /\ near f < far f
  | None => False
  end.
Proof.
  apply (updateScene_fog_range 0.5 (self fresh_world)). lra.
Defined.

(** X18. [updateVisibility] touches the asset named blueFlower and no
    other: that asset, if loaded, becomes visible with scale 2.5 and keeps
    its position and rotation; every other name, and a missing flower, read
    back as before.  The progress plays no part, and a second call changes
    nothing. *)
Theorem updateVisibility_only_flower p q am name :
  AssetManager.getAsset name (AssetManager.updateVisibility p am)
  = (if decide (name = "blueFlower") then
       (fun a => AssetManager.mkAsset
                   (mkObject3D true (position (AssetManager.model a))
                      (rotation (AssetManager.model a)) (mkVec3 2.5 2.5 2.5)))
         <$> AssetManager.getAsset name am
     else AssetManager.getAsset name am) /\
  AssetManager.updateVisibility q (AssetManager.updateVisibility p am)
  = AssetManager.updateVisibility p am.
Proof.
  split; [|apply updateVisibility_again].
  unfold AssetManager.updateVisibility, AssetManager.getAsset.
  destruct (AssetManager.loadedAssets am !! "blueFlower") as [a|] eqn:E;
    case_decide as Hn; subst; cbn [AssetManager.loadedAssets].
  - by rewrite lookup_insert_eq, E.
  - by rewrite lookup_insert_ne.
  - by rewrite E.
  - done.
Qed.

End VideoPageFacts.

(** ** The scroll handler of src/animations.js over many calls *)

Section AnimationsLifeFacts.
Import Animations AnimationsLife.

Lemma handle_all_snoc calls c w :
  handle_all (calls ++ [c]) w = handleScrollProgress (fst c) (snd c) (handle_all calls w).
Proof. unfold handle_all. by rewrite fold_left_app. Qed.

Lemma turned_turned d e m : turned e (turned d m) = turned (d + e) m.
Proof.
  unfold turned, set_rotation. cbn [rotation visible position scale vx vy vz].
  do 2 f_equal. lra.
Qed.

Lemma turned_zero m : turned 0 m = m.
Proof.
  destruct m as [v p [x y z] s]. unfold turned, set_rotation.
  cbn [rotation visible position scale vx vy vz]. do 2 f_equal. lra.
Qed.

(** X19. However often the scroll handler runs, it never moves the camera
    and never writes the stored progress; a visible orange has been turned
    by 0.01 per call about its y axis and is otherwise as it was; a hidden
    or missing orange or logo is left alone; a visible logo has turned by
    0.02 per call, and after at least one call its x rotation lies within
    0.1 of zero. *)
Theorem handleScrollProgress_many_calls calls w :
  let w' := handle_all calls w in
  let n := INR (length calls) in
  camera (anim w') = camera (anim w) /\
  currentProgress (anim w') = currentProgress (anim w) /\
  orangeModel (anim w')
  = (fun m => if visible m then turned (0.01 * n) m else m) <$> orangeModel (anim w) /\
  match logoModel (anim w), logoModel (anim w') with
  | Some m, Some m' =>
      if visible m then
        visible m' = true /\ position m' = position m /\ scale m' = scale m /\
        vy (rotation m') = vy (rotation m) + 0.02 * n /\
        vz (rotation m') = vz (rotation m) /\
        (calls <> [] -> Rabs (vx (rotation m')) <= 0.1)
      else m' = m
  | None, None => True
  | _, _ => False
  end.
Proof.
  cbv zeta. induction calls as [|c calls IH] using rev_ind.
  - cbn [handle_all fold_left length INR]. repeat split.
    + destruct (orangeModel (anim w)) as [m|]; [|done]. cbn.
      destruct (visible m); [|done]. by rewrite Rmult_0_r, turned_zero.
    + destruct (logoModel (anim w)) as [m|]; [|done].
      destruct (visible m); [|done]. repeat split; try lra. by intros [].
  - destruct IH as (Hc & Hp & Ho & Hl).
    rewrite handle_all_snoc, length_app, Nat.add_1_r, S_INR.
    set (w1 := handle_all calls w) in *. set (n := INR (length calls)) in *.
    unfold handleScrollProgress, updateModelVisibility, adjustLighting.
    cbn [anim camera currentProgress orangeModel logoModel].
    split; [exact Hc|]. split; [exact Hp|]. split.
    + rewrite Ho. destruct (orangeModel (anim w)) as [m|]; [|done].
      cbn [fmap option_fmap option_map]. destruct (visible m) eqn:V.
      * assert (V1 : visible (turned (0.01 * n) m) = true) by exact V.
        rewrite V1. f_equal.
        change (set_rotation _ (turned (0.01 * n) m))
          with (turned 0.01 (turned (0.01 * n) m)).
        rewrite turned_turned. f_equal. lra.
      * by rewrite V.
    + destruct (logoModel (anim w)) as [m|], (logoModel (anim w1)) as [m1|];
        try done.
      destruct (visible m) eqn:V.
      * destruct Hl as (V1 & P1 & S1 & Y1 & Z1 & _). rewrite V1.
        cbn [set_rotation visible position scale rotation vx vy vz].
        repeat split; try done; try lra.
        intros _. pose proof (SIN_bound (fst c * 0.001)) as B.
        apply Rabs_le. lra.
      * subst m1. by rewrite V.
Qed.

Lemma handleScrollProgress_many_calls_witness :
  orangeModel (anim (handle_all [(0, 0.1); (16, 0.2); (32, 0.45)] orange_scene))
  = Some (turned (0.01 * INR 3)
            (mkObject3D true (mkVec3 2 0 0) (mkVec3 0 0 0) (mkVec3 1 1 1))).
Proof.
  destruct (handleScrollProgress_many_calls [(0, 0.1); (16, 0.2); (32, 0.45)]
              orange_scene) as (_ & _ & O & _).
  exact O.
Defined.

Lemma reset_writes_again st : reset_writes (reset_writes st) = reset_writes st.
Proof.
  unfold reset_writes.
  cbn [world anim fireflies initialCameraPosition initialCameraRotation
       forestModel orangeModel logoModel isAnimating].
  by destruct (forestModel _), (orangeModel _), (logoModel _).
Qed.

(** X20. [reset] hands to its closing [ScrollTrigger.refresh()] an object
    whose camera is back where the constructor found it, whose forest is
    shown, whose orange and logo are hidden at scale 1 and whose progress
    is 0, but whose models keep the rotation the handler has accumulated;
    a scroll callback on that object finds the orange and the logo hidden
    and leaves them, and the camera, as they are.  The result of [reset]
    is whatever [refresh] makes of that object: when [refresh] leaves it
    alone, the camera and the progress are restored in the result and
    [reset] is idempotent. *)
Theorem reset_restores_camera_not_rotation refresh st now p :
  let s0 := anim (world st) in
  let handed := reset_writes st in
  let s1 := anim (world handed) in
  let s2 := anim (handleScrollProgress now p (world handed)) in
  reset refresh st = refresh handed /\
  camera s1 = mkCamera (initialCameraPosition st) (initialCameraRotation st) /\
  currentProgress s1 = 0 /\
  (visible <$> forestModel s1) = ((fun _ => true) <$> forestModel s0) /\
  (forall m, In (Some m) [orangeModel s1; logoModel s1] ->
     visible m = false /\ scale m = mkVec3 1 1 1) /\
  (rotation <$> orangeModel s1) = (rotation <$> orangeModel s0) /\
  (rotation <$> logoModel s1) = (rotation <$> logoModel s0) /\
  (camera s2 = camera s1 /\ orangeModel s2 = orangeModel s1 /\
   logoModel s2 = logoModel s1) /\
  ((forall s, refresh s = s) ->
   let r := reset refresh st in
   camera (anim (world r))
   = mkCamera (initialCameraPosition st) (initialCameraRotation st) /\
   currentProgress (anim (world r)) = 0 /\
   reset refresh r = r).
Proof.
  cbv zeta. split; [reflexivity|].
  assert (H : forall r, r = reset_writes st ->
            camera (anim (world r))
            = mkCamera (initialCameraPosition st) (initialCameraRotation st) /\
            currentProgress (anim (world r)) = 0).
  { intros r ->. by split. }
  split; [apply (H _ eq_refl)|]. split; [apply (H _ eq_refl)|].
  unfold handleScrollProgress, updateModelVisibility, adjustLighting, reset_writes.
  cbn [world anim camera currentProgress forestModel orangeModel logoModel fireflies].
  split; [by destruct (forestModel _)|].
  split.
  { intros m [E|[E|[]]];
      [destruct (orangeModel _) | destruct (logoModel _)]; try discriminate;
      injection E as <-; by split. }
  split; [by destruct (orangeModel _)|]. split; [by destruct (logoModel _)|].
  split.
  { split; [done|]. split; [by destruct (orangeModel _) | by destruct (logoModel _)]. }
  intros Hid. unfold reset. rewrite !Hid.
  split; [reflexivity|]. split; [reflexivity|].
  apply (reset_writes_again st).
Qed.

Lemma reset_restores_camera_not_rotation_witness :
  reset (fun s => s)
    (reset (fun s => s)
       (mkStored (handle_all [(0, 0.45); (16, 0.45)] orange_scene)
          (mkVec3 0 2 8) (mkVec3 0 0 0)))
  = reset (fun s => s)
      (mkStored (handle_all [(0, 0.45); (16, 0.45)] orange_scene)
         (mkVec3 0 2 8) (mkVec3 0 0 0)).
Proof.
  destruct (reset_restores_camera_not_rotation (fun s => s)
              (mkStored (handle_all [(0, 0.45); (16, 0.45)] orange_scene)
                 (mkVec3 0 2 8) (mkVec3 0 0 0)) 0 0.45)
    as (_ & _ & _ & _ & _ & _ & _ & _ & I).
  apply I. reflexivity.
Defined.

End AnimationsLifeFacts.

(** ** The point lights of the scene manager *)

Section SceneManagerFacts.
Import SceneManager.
Import FireflyLife (unit_draws).

(** X21. [setupLights] creates exactly three point lights, of intensity
    0.3 and range 25, with the three forest greens in order, and, the
    random source drawing from [0, 1), places each at a height from 5 up
    to 8 and within 15 of the origin along x and z; it consumes nine
    draws. *)
Theorem setupLights_in_ranges g :
  unit_draws g ->
  let pls := fst (setupLights g) in
  length pls = 3%nat /\ color <$> pls = pointLightColors /\
  cursor (snd (setupLights g)) = (cursor g + 9)%nat /\
  forall i l, pls !! i = Some l ->
    intensity l = 0.3 /\ distance l = 25 /\
    -15 <= vx (light_position l) < 15 /\
    5 <= vy (light_position l) < 8 /\
    -15 <= vz (light_position l) < 15.
Proof.
  intros Hd. cbv zeta. unfold setupLights, for_count.
  cbn [seq fold_left]. unfold setupLights_body, Math_random.
  cbn [draws cursor fst snd app nth pointLightColors length fmap list_fmap].
  split; [done|]. split; [done|]. split; [lia|].
  intros i l Hl.
  pose proof (Hd (cursor g)). pose proof (Hd (S (cursor g))).
  pose proof (Hd (S (S (cursor g)))). pose proof (Hd (S (S (S (cursor g))))).
  pose proof (Hd (S (S (S (S (cursor g)))))).
  pose proof (Hd (S (S (S (S (S (cursor g))))))).
  pose proof (Hd (S (S (S (S (S (S (cursor g)))))))).
  pose proof (Hd (S (S (S (S (S (S (S (cursor g))))))))).
  pose proof (Hd (S (S (S (S (S (S (S (S (cursor g)))))))))).
  destruct i as [|[|[|i]]]; cbn in Hl; try discriminate;
    injection Hl as <-; cbn [intensity distance light_position vx vy vz];
    repeat split; lra.
Qed.

Lemma setupLights_in_ranges_witness :
  length (fst (setupLights (mkRandom (fun _ => 0.5) 0))) = 3%nat.
Proof.
  apply (setupLights_in_ranges (mkRandom (fun _ => 0.5) 0)).
  intros k. cbn [draws]. lra.
Defined.

Lemma animate_lookup now dt pls i :
  animate now dt pls !! i = animate_light (now i) i <$> pls !! i.
Proof. unfold animate. by rewrite list_lookup_imap. Qed.

Lemma frames_snoc fs f pls :
  frames (fs ++ [f]) pls = animate (fst f) (snd f) (frames fs pls).
Proof. unfold frames. by rewrite fold_left_app. Qed.

Lemma Rabs_step a b c d e : Rabs (b - a) <= d -> Rabs e <= c -> Rabs (b + e - a) <= d + c.
Proof.
  intros H1 H2. apply Rabs_le. apply Rabs_le_iff in H1, H2. lra.
Qed.

(** X22. [animate] keeps the lights it is given: their number, colours,
    ranges and heights never change.  One frame moves each light by
    exactly 0.01 in the horizontal plane, so after n frames a light is
    within 0.01 n of where it started along x and along z; and after at
    least one frame every intensity lies between 0.1 and 0.5. *)
Theorem animate_keeps_lights fs pls i l :
  pls !! i = Some l ->
  exists l',
    frames fs pls !! i = Some l' /\ length (frames fs pls) = length pls /\
    color l' = color l /\ distance l' = distance l /\
    vy (light_position l') = vy (light_position l) /\
    Rabs (vx (light_position l') - vx (light_position l)) <= 0.01 * INR (length fs) /\
    Rabs (vz (light_position l') - vz (light_position l)) <= 0.01 * INR (length fs) /\
    (fs <> [] -> 0.1 <= intensity l' <= 0.5) /\
    (forall now dt,
       exists l2, animate now dt (frames fs pls) !! i = Some l2 /\
         (vx (light_position l2) - vx (light_position l'))²
         + (vz (light_position l2) - vz (light_position l'))² = 0.01²).
Proof.
  intros Hl. induction fs as [|f fs IH] using rev_ind.
  - exists l. cbn [frames fold_left length INR]. rewrite !Rminus_diag, Rabs_R0.
    repeat split; try done; try lra.
    intros now dt. rewrite animate_lookup, Hl. eexists. split; [reflexivity|].
    cbn [animate_light light_position vx vz].
    pose proof (sin2_cos2 (now i * 0.001 + INR i)) as T. unfold Rsqr in *. nra.
  - destruct IH as (l1 & E1 & L1 & C1 & D1 & Y1 & X1 & Z1 & _ & _).
    rewrite frames_snoc, length_app, Nat.add_1_r, S_INR.
    exists (animate_light (fst f i) i l1).
    split; [by rewrite animate_lookup, E1|].
    split; [unfold animate; by rewrite length_imap|].
    cbn [animate_light color distance light_position intensity vx vy vz].
    split; [done|]. split; [done|]. split; [done|].
    pose proof (SIN_bound (fst f i * 0.001 + INR i)) as Bs.
    pose proof (COS_bound (fst f i * 0.001 + INR i)) as Bc.
    pose proof (SIN_bound (fst f i * 0.001 * 2 + INR i)) as Bi.
    split.
    { replace (0.01 * (INR (length fs) + 1)) with (0.01 * INR (length fs) + 0.01) by lra.
      apply Rabs_step; [exact X1|]. apply Rabs_le. lra. }
    split.
    { replace (0.01 * (INR (length fs) + 1)) with (0.01 * INR (length fs) + 0.01) by lra.
      apply Rabs_step; [exact Z1|]. apply Rabs_le. lra. }
    split; [intros _; lra|].
    intros now dt. rewrite animate_lookup, animate_lookup, E1.
    eexists. split; [reflexivity|].
    cbn [animate_light light_position vx vz].
    pose proof (sin2_cos2 (now i * 0.001 + INR i)) as T. unfold Rsqr in *. nra.
Qed.

Lemma animate_keeps_lights_witness :
  exists l',
    frames [(fun _ => 0, 0.016); (fun _ => 16, 0.016)]
      (fst (setupLights (mkRandom (fun _ => 0.5) 0))) !! 1%nat = Some l' /\
    0.1 <= intensity l' <= 0.5.
Proof.
  destruct (animate_keeps_lights [(fun _ => 0, 0.016); (fun _ => 16, 0.016)]
              (fst (setupLights (mkRandom (fun _ => 0.5) 0))) 1
              (mkPointLight 0x6b8e6b 0.3 25
                 (mkVec3 ((0.5 - 0.5) * 30) (5 + 0.5 * 3) ((0.5 - 0.5) * 30)))
              eq_refl)
    as (l' & E & _ & _ & _ & _ & _ & _ & I & _).
  exists l'. split; [exact E|]. apply I. discriminate.
Defined.

End SceneManagerFacts.

(** ** The asset cache of src/loader.js *)

Section AssetLoaderFacts.
Import AssetLoader.

Lemma optimize_child_optimized c : optimized_node (optimize_child c).
Proof.
  unfold optimized_node, optimize_child. destruct (isMesh c) eqn:M; [|congruence].
  intros _. cbn [castShadow receiveShadow geometry boundingBox boundingSphere
                  material has_color].
  split; [done|]. split; [done|]. split; [done|]. split; [done|].
  intros m Hm. destruct (material c) as [m0|]; [|discriminate].
  injection Hm as <-. split.
  - intros Hc. rewrite Hc. cbn [isMeshStandardMaterial].
    by destruct (isMeshStandardMaterial m0).
  - destruct (has_color (geometry c)); cbn [isMeshStandardMaterial];
      destruct (isMeshStandardMaterial m0) eqn:S;
      cbn [isMeshStandardMaterial roughness metalness]; rewrite ?S;
      try discriminate; intros _; unfold Math_max, Math_min;
      (split; [apply Rmax_r | apply Rmin_r]).
Qed.

Lemma optimize_child_again c : optimize_child (optimize_child c) = optimize_child c.
Proof.
  unfold optimize_child. destruct (isMesh c) eqn:M; [|by rewrite M].
  cbn [isMesh material geometry has_color]. f_equal.
  destruct (material c) as [m|]; [|done]. f_equal.
  destruct (has_color (geometry c)), (isMeshStandardMaterial m) eqn:S;
    cbn [isMeshStandardMaterial roughness metalness vertexColors]; rewrite ?S;
    cbn [isMeshStandardMaterial roughness metalness vertexColors]; try done;
    unfold Math_max, Math_min; f_equal;
    first [ apply Rmax_left, Rmax_r | apply Rmin_left, Rmin_r ].
Qed.

(** X23. [optimizeModel] leaves every mesh casting and receiving
    shadows, with its bounding volumes computed, vertex colours enabled
    where the geometry has them, and a standard material no smoother than
    0.1 and no more metallic than 0.9; it keeps the number of nodes, leaves
    every node that is not a mesh as it was, and running it a second time
    changes nothing. *)
Theorem optimizeModel_idempotent model :
  Forall optimized_node (optimizeModel model) /\
  length (optimizeModel model) = length model /\
  (forall i n, model !! i = Some n -> isMesh n = false ->
     optimizeModel model !! i = Some n) /\
  optimizeModel (optimizeModel model) = optimizeModel model.
Proof.
  unfold optimizeModel. split; [|split; [|split]].
  - apply Forall_map, Forall_forall. intros c _. apply optimize_child_optimized.
  - apply length_map.
  - intros i n Hn Hm. rewrite list_lookup_fmap_Some. exists n. split; [|done].
    unfold optimize_child. by rewrite Hm.
  - rewrite map_map. apply map_ext. intros c. apply optimize_child_again.
Qed.

Lemma optimizeModel_idempotent_witness :
  optimizeModel [mkNode false false false None (mkGeometry false false false)] !! 0%nat
  = Some (mkNode false false false None (mkGeometry false false false)).
Proof.
  destruct (optimizeModel_idempotent
              [mkNode false false false None (mkGeometry false false false)])
    as (_ & _ & H & _).
  apply (H 0%nat); reflexivity.
Defined.

Lemma optimizeModel_optimized scene : optimized (Model (optimizeModel scene)).
Proof.
  cbn [optimized]. unfold optimizeModel.
  apply Forall_map, Forall_forall. intros c _. apply optimize_child_optimized.
Qed.

Lemma optimizeTexture_optimized t : optimized (Tex (optimizeTexture t)).
Proof.
  cbn [optimized optimizeTexture minFilter magFilter generateMipmaps wrapS wrapT
       anisotropy].
  repeat split. unfold Math_min. apply Rmin_left. lra.
Qed.

Lemma step_optimized ld e :
  map_Forall (fun _ a => optimized a) (loadedAssets ld) ->
  map_Forall (fun _ a => optimized a) (loadedAssets (step ld e)).
Proof.
  intros H. destruct e as [url scene|url t|]; cbn [step gltf_loaded texture_loaded
    clearCache fst loadedAssets].
  - apply map_Forall_insert_2; [apply optimizeModel_optimized | exact H].
  - apply map_Forall_insert_2; [apply optimizeTexture_optimized | exact H].
  - apply map_Forall_empty.
Qed.

Lemma step_size ld e :
  (getCacheSize (step ld e)
   <= getCacheSize ld + (if is_clear e then 0 else 1))%nat.
Proof.
  unfold getCacheSize.
  destruct e as [url scene|url t|]; cbn [step gltf_loaded texture_loaded
    clearCache fst loadedAssets is_clear].
  - rewrite map_size_insert. destruct (_ !! _); cbn; lia.
  - rewrite map_size_insert. destruct (_ !! _); cbn; lia.
  - rewrite map_size_empty. lia.
Qed.

Lemma arrivals_cons e es :
  arrivals (e :: es) = ((if is_clear e then 0 else 1) + arrivals es)%nat.
Proof.
  unfold arrivals. rewrite filter_cons. destruct (is_clear e); case_decide; done.
Qed.

(** X24. Whatever models and textures arrive, in whatever order, and
    however often the cache is cleared in between, every asset the cache
    hands out has been post-processed, and the cache never holds more
    entries than models and textures have arrived (clearing does not
    count). *)
Theorem cache_holds_optimized_assets es url a :
  getCached url (run es new) = Some a ->
  optimized a /\ (1 <= getCacheSize (run es new) <= arrivals es)%nat.
Proof.
  assert (G : forall ld,
            map_Forall (fun _ a => optimized a) (loadedAssets ld) ->
            map_Forall (fun _ a => optimized a) (loadedAssets (run es ld)) /\
            (getCacheSize (run es ld) <= getCacheSize ld + arrivals es)%nat).
  { induction es as [|e es IH]; intros ld H; [split; [exact H | cbn; lia]|].
    destruct (IH (step ld e) (step_optimized ld e H)) as (I1 & I2).
    split; [exact I1|]. change (run (e :: es) ld) with (run es (step ld e)).
    pose proof (step_size ld e). rewrite arrivals_cons. lia. }
  destruct (G new (map_Forall_empty _)) as (G1 & G2).
  intros Hc. split; [exact (G1 url a Hc)|]. split; [|exact G2].
  unfold getCached in Hc. unfold getCacheSize.
  destruct (size (loadedAssets (run es new))) eqn:Z; [|lia].
  apply map_size_empty_inv in Z. rewrite Z in Hc. by rewrite lookup_empty in Hc.
Qed.

Lemma cache_holds_optimized_assets_witness :
  (getCacheSize
     (run [CacheCleared; CacheCleared;
           TextureArrives "space.jpg"
             (mkTexture NearestFilter NearestFilter false ClampToEdgeWrapping
                ClampToEdgeWrapping 1)] new) <= 1)%nat.
Proof.
  destruct (cache_holds_optimized_assets
              [CacheCleared; CacheCleared;
               TextureArrives "space.jpg"
                 (mkTexture NearestFilter NearestFilter false ClampToEdgeWrapping
                    ClampToEdgeWrapping 1)]
              "space.jpg"
              (Tex (optimizeTexture
                      (mkTexture NearestFilter NearestFilter false ClampToEdgeWrapping
                         ClampToEdgeWrapping 1))))
    as (_ & _ & H).
  - reflexivity.
  - exact H.
Defined.

(** X25. A model is fetched once: after a [loadGLTF] that succeeded,
    any later [loadGLTF] of the same address resolves with the same
    optimised model whatever the network would answer, even a failure,
    and leaves the cache as it is; other addresses are not affected by the
    load; a failed first load stores nothing; and after [clearCache] the
    cache is empty and the address has to be fetched again. *)
Theorem loadGLTF_fetches_once url scene response ld :
  getCached url ld = None ->
  let ld1 := fst (loadGLTF url (Some scene) ld) in
  snd (loadGLTF url (Some scene) ld) = Some (Model (optimizeModel scene)) /\
  loadGLTF url response ld1 = (ld1, Some (Model (optimizeModel scene))) /\
  getCacheSize ld1 = S (getCacheSize ld) /\
  (forall url', url' <> url -> getCached url' ld1 = getCached url' ld) /\
  loadGLTF url None ld = (ld, None) /\
  getCacheSize (clearCache ld1) = 0%nat /\
  getCached url (clearCache ld1) = None.
Proof.
  unfold getCached. intros Hmiss. cbv zeta. unfold loadGLTF. rewrite Hmiss.
  cbn [gltf_loaded fst snd loadedAssets]. rewrite lookup_insert_eq.
  repeat split; try done.
  - unfold getCacheSize. cbn [loadedAssets]. by rewrite map_size_insert, Hmiss.
  - intros url' Hne. by rewrite lookup_insert_ne.
Qed.

Lemma loadGLTF_fetches_once_witness :
  loadGLTF "orange.glb" None (fst (loadGLTF "orange.glb" (Some []) new))
  = (fst (loadGLTF "orange.glb" (Some []) new), Some (Model (optimizeModel []))).
Proof.
  destruct (loadGLTF_fetches_once "orange.glb" [] None new eq_refl)
    as (_ & H & _).
  exact H.
Defined.

End AssetLoaderFacts.

(** ** Loading and the loading screen *)

Section LoadingFacts.
Import Loading.

Lemma Math_round_half z : Math_round (IZR z) = z.
Proof.
  unfold Math_round. symmetry. apply Int_part_spec. lra.
Qed.

Lemma load_all_snoc arrivals a st :
  load_all (arrivals ++ [a]) st = asset_loaded (fst a) (snd a) (load_all arrivals st).
Proof. unfold load_all. by rewrite fold_left_app. Qed.

(** X26. The progress counts finished loads, not distinct assets: after
    the success callback has run n times the counter is n, the progress
    is n / 2 and the bar is 50 n percent wide, while the manager holds at
    most n assets; the text reads Preparing Fireflies... after the first
    load and Almost Ready... from the second on, so loading never shows
    the third text. *)
Theorem loading_progress_counts_loads arrivals text :
  arrivals <> [] ->
  let n := length arrivals in
  let '(am, sc) := load_all arrivals (new, mkScreen 0 (Some text)) in
  loadedCount am = n /\ totalAssets am = 2%nat /\
  loadingProgress am = INR n / 2 /\
  (size (AssetManager.loadedAssets (assets am)) <= n)%nat /\
  width sc = (50 * Z.of_nat n)%Z /\
  loadingText sc = Some (if (n =? 1)%nat then "Preparing Fireflies..."
                         else "Almost Ready...").
Proof.
  assert (G : forall arrivals,
            let st := load_all arrivals (new, mkScreen 0 (Some text)) in
            loadedCount (fst st) = length arrivals /\ totalAssets (fst st) = 2%nat /\
            (size (AssetManager.loadedAssets (assets (fst st))) <= length arrivals)%nat /\
            loadingText (snd st) <> None).
  { intros l. induction l as [|a l IH] using rev_ind; [by repeat split|].
    cbv zeta in *. rewrite load_all_snoc, length_app, Nat.add_1_r.
    destruct (load_all l _) as [am sc]. cbn [fst snd] in *.
    destruct IH as (I1 & I2 & I3 & I4). unfold asset_loaded.
    cbn [fst snd loadedCount totalAssets assets AssetManager.loadedAssets].
    split; [by rewrite I1|]. split; [exact I2|]. split.
    - rewrite map_size_insert. destruct (_ !! _); cbn; lia.
    - unfold updateLoadingProgress. cbn [loadingText]. by destruct (loadingText sc). }
  intros Hne. cbv zeta.
  destruct arrivals as [|a l _] using rev_ind; [done|]. clear Hne.
  specialize (G l). cbv zeta in G.
  rewrite load_all_snoc, length_app, Nat.add_1_r.
  destruct (load_all l _) as [am sc]. cbn [fst snd] in G.
  destruct G as (I1 & I2 & I3 & I4). unfold asset_loaded.
  cbn [fst snd loadedCount totalAssets assets AssetManager.loadedAssets loadingProgress].
  rewrite I1, I2. set (n := S (length l)).
  assert (E : INR n / INR 2 * 100 = IZR (50 * Z.of_nat n)).
  { rewrite mult_IZR, <- INR_IZR_INZ. cbn [INR]. lra. }
  split; [done|]. split; [done|]. split; [cbn [INR]; lra|]. split.
  { rewrite map_size_insert. destruct (_ !! _); cbn; lia. }
  unfold updateLoadingProgress. cbn [width loadingText]. rewrite E, Math_round_half.
  split; [done|]. destruct (loadingText sc); [|done]. f_equal.
  destruct (Nat.eqb_spec n 1) as [->|Hn].
  - reflexivity.
  - assert (2 <= n)%nat by lia.
    destruct (Z.ltb_spec (50 * Z.of_nat n) 30); [lia|].
    destruct (Z.ltb_spec (50 * Z.of_nat n) 60); [lia|].
    destruct (Z.ltb_spec (50 * Z.of_nat n) 90); [lia|]. reflexivity.
Qed.

Lemma loading_progress_counts_loads_witness :
  loadingText
    (snd (load_all
            [("blueFlower", mkObject3D true (mkVec3 0 0 0) (mkVec3 0 0 0) (mkVec3 1 1 1));
             ("grass", mkObject3D true (mkVec3 0 0 0) (mkVec3 0 0 0) (mkVec3 1 1 1))]
            (new, mkScreen 0 (Some "Loading..."))))
  = Some "Almost Ready...".
Proof.
  pose proof (loading_progress_counts_loads
                [("blueFlower", mkObject3D true (mkVec3 0 0 0) (mkVec3 0 0 0) (mkVec3 1 1 1));
                 ("grass", mkObject3D true (mkVec3 0 0 0) (mkVec3 0 0 0) (mkVec3 1 1 1))]
                "Loading...") as H.
  cbv zeta in H. destruct (load_all _ _) as [am sc].
  destruct (H ltac:(discriminate)) as (_ & _ & _ & _ & _ & H'). exact H'.
Defined.

(** X27. The loading screen follows the progress monotonically: a
    larger progress never gives a narrower bar, a progress between 0 and 1
    gives a width between 0 and 100 percent, the last text once reached
    stays for every larger progress and the first text holds for every
    smaller one; a page without the text element gets none. *)
Theorem updateLoadingProgress_monotone p q sc :
  p <= q ->
  let sp := updateLoadingProgress p sc in
  let sq := updateLoadingProgress q sc in
  (width sp <= width sq)%Z /\
  (0 <= p -> q <= 1 -> (0 <= width sp)%Z /\ (width sq <= 100)%Z) /\
  (loadingText sp = Some "Almost Ready..." -> loadingText sq = Some "Almost Ready...") /\
  (loadingText sq = Some "Loading Forest Assets..." ->
   loadingText sp = Some "Loading Forest Assets...") /\
  (loadingText sc = None -> loadingText sp = None).
Proof.
  intros Hpq. cbv zeta. unfold updateLoadingProgress. cbn [width loadingText].
  assert (M : (Math_round (p * 100) <= Math_round (q * 100))%Z).
  { unfold Math_round. apply Int_part_mono. lra. }
  split; [exact M|]. split.
  { intros H0 H1. split.
    - assert (L : (Math_round (IZR 0) <= Math_round (p * 100))%Z)
        by (unfold Math_round; apply Int_part_mono; lra).
      by rewrite Math_round_half in L.
    - assert (L : (Math_round (q * 100) <= Math_round (IZR 100))%Z)
        by (unfold Math_round; apply Int_part_mono; lra).
      by rewrite Math_round_half in L. }
  destruct (loadingText sc); [|by repeat split].
  repeat split; try discriminate; intros H;
    repeat match goal with
           | |- context [Z.ltb ?a ?b] => destruct (Z.ltb_spec a b)
           | H : context [Z.ltb ?a ?b] |- _ => destruct (Z.ltb_spec a b)
           end; first [done | lia].
Qed.

Lemma updateLoadingProgress_monotone_witness :
  loadingText (updateLoadingProgress 1 (mkScreen 0 (Some "Loading...")))
  = Some "Almost Ready...".
Proof.
  destruct (updateLoadingProgress_monotone 0.95 1 (mkScreen 0 (Some "Loading..."))
              ltac:(lra))
    as (_ & _ & H & _).
  apply H. unfold updateLoadingProgress. cbn [loadingText]. f_equal.
  assert (E : Math_round (0.95 * 100) = 95%Z).
  { replace (0.95 * 100) with (IZR 95) by lra. apply Math_round_half. }
  rewrite E. reflexivity.
Defined.

End LoadingFacts.

(** ** The roaming fireflies of main.js *)

Section RoamingFacts.
Import Roaming.
Import FireflyLife (unit_draws).

Lemma forEach_from_Forall {A} (Q P : A -> Prop) body (l : list A) :
  (forall i x g, unit_draws g -> Q x ->
     P (fst (body i x g)) /\ draws (snd (body i x g)) = draws g) ->
  forall i g, unit_draws g -> Forall Q l ->
    Forall P (fst (forEach_from i body l g)) /\
    draws (snd (forEach_from i body l g)) = draws g /\
    length (fst (forEach_from i body l g)) = length l.
Proof.
  intros Hb. induction l as [|x l IH]; intros i g Hd Hl; [by repeat split|].
  apply Forall_cons in Hl as [Hx Hl]. cbn [forEach_from].
  destruct (Hb i x g Hd Hx) as (B1 & B2). destruct (body i x g) as [x' g1].
  cbn [fst snd] in B1, B2.
  assert (Hd1 : unit_draws g1) by (intros k; rewrite B2; apply Hd).
  destruct (IH (S i) g1 Hd1 Hl) as (I1 & I2 & I3).
  destruct (forEach_from (S i) body l g1) as [l' g2]. cbn [fst snd] in *.
  split; [by constructor|]. split; [congruence|]. cbn [length]. congruence.
Qed.

Lemma clamp30 x : -30 <= Math_max (-30) (Math_min 30 x) <= 30.
Proof.
  unfold Math_max, Math_min, Rmax, Rmin.
  destruct (Rle_dec 30 x), (Rle_dec _ _); lra.
Qed.

Lemma animate_firefly_roams time i f g :
  unit_draws g -> roams f ->
  (roams (fst (animate_firefly time i f g)) /\ in_range (fst (animate_firefly time i f g)))
  /\ draws (snd (animate_firefly time i f g)) = draws g.
Proof.
  intros Hd (u & Eu & Bx & Bz & By & Br). unfold animate_firefly. rewrite Eu.
  unfold Math_random. cbn [draws cursor].
  pose proof (SIN_bound (time * speed u + offsetX u)) as Sx.
  pose proof (COS_bound (time * speed u + offsetZ u)) as Cz.
  pose proof (SIN_bound (time * speed u * 2 + offsetY u)) as Sy.
  pose proof (SIN_bound (time * speed u * 0.5)) as R5.
  pose proof (SIN_bound (time * speed u * 0.3)) as R3.
  assert (Hin : forall m' ud, in_range
            (mkFirefly
               (mkObject3D (visible (mesh f))
                  (mkVec3 (vx (basePosition u)
                             + sin (time * speed u + offsetX u) * roamRadius u)
                          (vy (basePosition u)
                             + sin (time * speed u * 2 + offsetY u) * 3)
                          (vz (basePosition u)
                             + cos (time * speed u + offsetZ u) * roamRadius u))
                  (mkVec3 (sin (time * speed u * 0.3) * 0.2)
                          (sin (time * speed u * 0.5) * 0.3) m')
                  (scale (mesh f)))
               (radius f) (hue f) (opacity f) (haloRadius f) ud)).
  { intros m' ud. unfold in_range. cbn [mesh position rotation vx vy vz].
    repeat split; try (apply Rabs_le); nra. }
  destruct (num_lt _ _); cbn [fst snd draws]; (split; [split|reflexivity]).
  - eexists. split; [reflexivity|]. cbn [basePosition roamRadius vx vy vz].
    split; [apply clamp30|]. split; [apply clamp30|]. by split.
  - apply Hin.
  - exists u. split; [exact Eu|]. exact (conj Bx (conj Bz (conj By Br))).
  - apply Hin.
Qed.

Lemma moveCamera_firefly_roams t i f : roams f -> roams (moveCamera_firefly t i f).
Proof. intros (u & Eu & H). by exists u. Qed.

Lemma createSingleFirefly_roams i g :
  unit_draws g ->
  roams (fst (createSingleFirefly i g)) /\
  draws (snd (createSingleFirefly i g)) = draws g.
Proof.
  intros Hd. unfold createSingleFirefly, Math_random. cbn [draws cursor fst snd].
  split; [|reflexivity]. eexists. split; [reflexivity|].
  cbn [basePosition roamRadius vx vy vz].
  pose proof (Hd (S (S (S (cursor g))))).
  pose proof (Hd (S (S (S (S (cursor g)))))).
  pose proof (Hd (S (S (S (S (S (cursor g))))))).
  pose proof (Hd (S (S (S (S (S (S (S (cursor g))))))))).
  repeat split; lra.
Qed.

Lemma createFallbackFireflies_roams l g :
  unit_draws g -> Forall roams l ->
  let st := createFallbackFireflies (l, g) in
  Forall roams (fst st) /\ unit_draws (snd st) /\ length (fst st) = (length l + 6)%nat.
Proof.
  intros Hd Hl. cbv zeta. unfold createFallbackFireflies, numberOfFireflies.
  apply (for_count_ind _
           (fun k st => Forall roams (fst st) /\ unit_draws (snd st) /\
                        length (fst st) = (length l + k)%nat)).
  - cbn [fst snd]. split; [exact Hl|]. split; [exact Hd|]. lia.
  - intros k [ffs g1] _ (I1 & I2 & I3). cbn [fst snd] in *.
    destruct (createSingleFirefly_roams k g1 I2) as (C1 & C2).
    destruct (createSingleFirefly k g1) as [f g2]. cbn [fst snd] in *.
    split; [apply Forall_app; by repeat constructor|].
    split; [intros j; rewrite C2; apply I2|].
    rewrite length_app. cbn [length]. lia.
Qed.

Lemma step_roams st e :
  Forall roams (fireflies (fst st)) -> unit_draws (snd st) ->
  Forall roams (fireflies (fst (step st e))) /\ unit_draws (snd (step st e)) /\
  length (fireflies (fst (step st e))) = length (fireflies (fst st)).
Proof.
  destruct st as [sc g]. cbn [fst snd]. intros Hr Hd. destruct e as [time|t].
  - cbn [step animate].
    destruct (forEach_from_Forall roams roams (animate_firefly time) (fireflies sc))
      with (i := 0%nat) (g := g) as (F1 & F2 & F3); [|done|done|].
    { intros i x g1 Hd1 Hx.
      destruct (animate_firefly_roams time i x g1 Hd1 Hx) as ((A & _) & B).
      by split. }
    destruct (forEach_from 0 _ _ g) as [ffs g1]. cbn [fst snd fireflies] in *.
    split; [done|]. split; [|done]. intros k. rewrite F2. apply Hd.
  - cbn [step fst snd moveCamera fireflies]. split; [|split; [done|]].
    + apply Forall_forall. intros f Hf.
      apply elem_of_lookup_imap in Hf as (i & x & -> & Hx).
      apply moveCamera_firefly_roams.
      by eapply Forall_lookup_1.
    + by rewrite length_imap.
Qed.

Lemma run_roams es st :
  Forall roams (fireflies (fst st)) -> unit_draws (snd st) ->
  Forall roams (fireflies (fst (run es st))) /\ unit_draws (snd (run es st)) /\
  length (fireflies (fst (run es st))) = length (fireflies (fst st)).
Proof.
  revert st. induction es as [|e es IH]; intros st Hr Hd; [done|].
  destruct (step_roams st e Hr Hd) as (S1 & S2 & S3).
  destruct (IH (step st e) S1 S2) as (I1 & I2 & I3).
  change (run (e :: es) st) with (run es (step st e)).
  split; [done|]. split; [done|]. by rewrite I3.
Qed.

(** X28. The six fallback fireflies never stray: built from a random
    source drawing from [0, 1), and after any sequence of animation frames
    and scroll events, every frame leaves each of the six within 55 of the
    origin along x and z, between -1 and 13 high, and turned by at most 0.2
    about x and 0.3 about y. *)
Theorem roaming_fireflies_stay_in_range g moon cam es time :
  unit_draws g ->
  let built := createFallbackFireflies ([], g) in
  let st := run es (mkScene moon (fst built) cam, snd built) in
  let sc := fst (animate time st) in
  length (fireflies sc) = 6%nat /\ Forall in_range (fireflies sc).
Proof.
  intros Hd. cbv zeta.
  destruct (createFallbackFireflies_roams [] g Hd (Forall_nil_2 _)) as (C1 & C2 & C3).
  destruct (createFallbackFireflies ([], g)) as [ffs g0]. cbn [fst snd length] in *.
  destruct (run_roams es (mkScene moon ffs cam, g0) C1 C2) as (R1 & R2 & R3).
  destruct (run es _) as [sc g1]. cbn [fst snd fireflies animate] in *.
  destruct (forEach_from_Forall roams in_range (animate_firefly time) (fireflies sc))
    with (i := 0%nat) (g := g1) as (F1 & F2 & F3); [|done|done|].
  { intros i x g2 Hd2 Hx.
    destruct (animate_firefly_roams time i x g2 Hd2 Hx) as ((_ & A) & B).
    by split. }
  destruct (forEach_from 0 _ _ g1) as [ffs' g2]. cbn [fst snd fireflies] in *.
  split; [lia | done].
Qed.

Lemma roaming_fireflies_stay_in_range_witness :
  length (fireflies (fst (animate 1000
    (run [Frame 0; Scroll (-120); Frame 16]
       (mkScene (mkVec3 0 0 0)
          (fst (createFallbackFireflies ([], mkRandom (fun _ => 0.5) 0)))
          (Animations.mkCamera (mkVec3 0 0 30) (mkVec3 0 0 0)),
        snd (createFallbackFireflies ([], mkRandom (fun _ => 0.5) 0))))))) = 6%nat.
Proof.
  apply (roaming_fireflies_stay_in_range (mkRandom (fun _ => 0.5) 0)).
  intros k. cbn [draws]. lra.
Defined.

Lemma imap_Forall2 {A} (Rel : A -> A -> Prop) (l : list A) :
  forall f : nat -> A -> A, (forall i x, Rel (f i x) x) -> Forall2 Rel (imap f l) l.
Proof.
  induction l as [|x l IH]; intros f Hf; [constructor|].
  cbn [imap]. constructor; [apply Hf|]. apply IH. intros i y. apply Hf.
Qed.

Lemma Forall2_and_right {A} (Rel : A -> A -> Prop) (Q : A -> Prop) l l' :
  Forall2 Rel l l' -> Forall Q l' -> Forall2 (fun a b => Rel a b /\ Q b) l l'.
Proof.
  induction 1 as [|a b l l' Hab _ IH]; intros HQ; [constructor|].
  apply Forall_cons in HQ as [Hb Hl]. constructor; [by split | by apply IH].
Qed.

Lemma forEach_from_Forall2 time (l l' : list Firefly) :
  Forall2 same_roaming l l' ->
  forall i g,
    Forall2 same_place (fst (forEach_from i (animate_firefly time) l g))
      (fst (forEach_from i (animate_firefly time) l' g)) /\
    snd (forEach_from i (animate_firefly time) l g)
    = snd (forEach_from i (animate_firefly time) l' g).
Proof.
  induction 1 as [|f f' l l' (Eu & Hu) Hl IH]; intros i g; [by split; constructor|].
  cbn [forEach_from].
  assert (B : same_place (fst (animate_firefly time i f g))
                (fst (animate_firefly time i f' g)) /\
              snd (animate_firefly time i f g) = snd (animate_firefly time i f' g)).
  { unfold animate_firefly. rewrite <- Eu.
    destruct (userData f) as [u|] eqn:E; [|done]. unfold Math_random.
    cbn [draws cursor].
    destruct (num_lt _ _); cbn [fst snd]; (split; [|reflexivity]);
      unfold same_place, set_mesh; cbn [mesh position rotation userData vx vy];
      repeat split; congruence. }
  destruct B as (B1 & B2).
  destruct (animate_firefly time i f g) as [x g1],
           (animate_firefly time i f' g) as [x' g1']. cbn [fst snd] in B1, B2.
  subst g1'. destruct (IH (S i) g1) as (I1 & I2).
  destruct (forEach_from (S i) _ l g1) as [m g2],
           (forEach_from (S i) _ l' g1) as [m' g2']. cbn [fst snd] in *.
  split; [by constructor | done].
Qed.

(** X29. The drift a scroll gives the fireflies does not last: when
    every firefly has its roaming properties, the frame after a scroll
    puts each firefly where it would have been without the scroll, with
    the same x and y rotation, the same base and the same random draws;
    and the camera after a scroll depends on that scroll alone, not on
    earlier ones. *)
Theorem scroll_drift_is_overwritten t t' time sc g :
  Forall (fun f => userData f <> None) (fireflies sc) ->
  let a := animate time (moveCamera t sc, g) in
  let b := animate time (sc, g) in
  Forall2 same_place (fireflies (fst a)) (fireflies (fst b)) /\
  snd a = snd b /\
  camera (moveCamera t (moveCamera t' sc)) = camera (moveCamera t sc).
Proof.
  intros Hu. cbv zeta. cbn [animate moveCamera fireflies camera
                             Animations.cam_position Animations.cam_rotation vx vy vz].
  assert (H1 : Forall2 (fun f f' => userData f = userData f')
                 (imap (moveCamera_firefly t) (fireflies sc)) (fireflies sc))
    by (apply imap_Forall2; reflexivity).
  assert (Hrel' : Forall2 same_roaming (imap (moveCamera_firefly t) (fireflies sc))
                    (fireflies sc)).
  { eapply Forall2_impl; [exact (Forall2_and_right _ _ _ _ H1 Hu)|].
    intros f f' (E & Hx). split; [exact E | by rewrite E]. }
  destruct (forEach_from_Forall2 time _ _ Hrel' 0%nat g) as (F1 & F2).
  destruct (forEach_from 0 _ (imap _ _) g) as [m g1],
           (forEach_from 0 _ (fireflies sc) g) as [m' g1']. cbn [fst snd fireflies] in *.
  by repeat split.
Qed.

Lemma scroll_drift_is_overwritten_witness :
  snd (animate 16
         (moveCamera (-120)
            (mkScene (mkVec3 0 0 0)
               [mkFirefly (mkObject3D true (mkVec3 1 2 3) (mkVec3 0 0 0) (mkVec3 1 1 1))
                  1 0.2 0.9 1.5
                  (Some (mkUserData (mkVec3 1 2 3) 15 0.001 0 0 0 0.001))]
               (Animations.mkCamera (mkVec3 0 0 30) (mkVec3 0 0 0))),
          mkRandom (fun _ => 0.5) 0))
  = snd (animate 16
           (mkScene (mkVec3 0 0 0)
              [mkFirefly (mkObject3D true (mkVec3 1 2 3) (mkVec3 0 0 0) (mkVec3 1 1 1))
                 1 0.2 0.9 1.5
                 (Some (mkUserData (mkVec3 1 2 3) 15 0.001 0 0 0 0.001))]
              (Animations.mkCamera (mkVec3 0 0 30) (mkVec3 0 0 0)),
            mkRandom (fun _ => 0.5) 0)).
Proof.
  refine (proj1 (proj2 (scroll_drift_is_overwritten (-120) 0 16
            (mkScene (mkVec3 0 0 0)
               [mkFirefly (mkObject3D true (mkVec3 1 2 3) (mkVec3 0 0 0) (mkVec3 1 1 1))
                  1 0.2 0.9 1.5
                  (Some (mkUserData (mkVec3 1 2 3) 15 0.001 0 0 0 0.001))]
               (Animations.mkCamera (mkVec3 0 0 30) (mkVec3 0 0 0)))
            (mkRandom (fun _ => 0.5) 0) _))).
  repeat constructor. discriminate.
Defined.

End RoamingFacts.
